(** * Point extraction and reconciliation of gridded climate series

    A shallow embedding of [ClimateDataExtractorWithParallel.py] and
    [ClimateDataExtractor.py]: the unit converter, the series combiner, the
    dataset loaders, the sequential extraction loops and the batched
    coordinator with its global point cap; and of what surrounds them: the
    forecast pipeline of [NetCDFToMonicaPipeline.py], the end date of
    [ClimateDataDownloader.py] and the valid grid points of
    [create_data_availablity_mask_h_and_fc.py].

    Conventions.
    - A Python exception is a value of [exn]; a call that may raise returns
      [result].
    - A cell of a frame is an IEEE binary64 number (Rocq's primitive
      floats); the missing value is NaN, exactly as pandas stores it.
    - A calendar date is its proleptic ordinal, an integer.
    - A [DataFrame] is a value; the frames a method mutates in place live in
      a store of objects addressed by references. *)

From Stdlib Require Import ZArith Floats.PrimFloat.
From stdpp Require Import gmap strings list fin_maps sorting.

Set Default Proof Using "Type".
Open Scope Z_scope.

(** ** Exceptions and fallible results *)

Inductive exn : Set :=
  | KeyError | IndexError | ValueError | AttributeError
  | UnboundLocalError | InvalidIndexError | OSError.

Inductive result (A : Type) : Type :=
  | Ok (a : A)
  | Raise (e : exn).
Arguments Ok {A} a.
Arguments Raise {A} e.

#[global] Instance result_ret : MRet result := λ A a, Ok a.
#[global] Instance result_bind : MBind result := λ A B f m,
  match m with Ok a => f a | Raise e => Raise e end.
#[global] Instance result_fmap : FMap result := λ A B f m,
  match m with Ok a => Ok (f a) | Raise e => Raise e end.

(** ** The part of pandas the extractor relies on *)

Module pd.

Abbreviation float64 := PrimFloat.float (only parsing).
Abbreviation date := Z (only parsing).

Definition isna (x : float64) : bool := PrimFloat.is_nan x.
Definition notna (x : float64) : bool := negb (isna x).

(** A frame: column labels, and one row per index entry, the row's cells
    aligned with the labels.  The index may repeat a date and need not be
    ordered. *)
Record DataFrame : Set := mkDataFrame {
  columns : list string;
  rows : list (date * list float64)
}.

Definition index (df : DataFrame) : list date := (rows df).*1.

(** [df.last_valid_index()]: the label of the last row holding at least
    one non-missing cell (pandas reduces the validity matrix with
    [any(axis=1)]); [None] when there is no such row. *)
Definition row_valid (r : date * list float64) : bool := existsb notna r.2.

Definition last_valid_index (df : DataFrame) : option date :=
  fst <$> List.find row_valid (reverse (rows df)).

Fixpoint take_while {A} (p : A → bool) (l : list A) : list A :=
  match l with
  | [] => []
  | x :: t => if p x then x :: take_while p t else []
  end.

Fixpoint drop_while {A} (p : A → bool) (l : list A) : list A :=
  match l with
  | [] => []
  | x :: t => if p x then drop_while p t else l
  end.

Fixpoint is_monotonic_increasing (idx : list date) : bool :=
  match idx with
  | [] => true
  | x :: t =>
      match t with
      | [] => true
      | y :: _ => (x <=? y) && is_monotonic_increasing t
      end
  end.

Fixpoint is_monotonic_decreasing (idx : list date) : bool :=
  match idx with
  | [] => true
  | x :: t =>
      match t with
      | [] => true
      | y :: _ => (y <=? x) && is_monotonic_decreasing t
      end
  end.

(** [Index.get_slice_bound(label, "right")].  When the label occurs, its
    occurrences must form one run and the bound is the position after the
    run; occurrences that are scattered raise [KeyError].  When it does not
    occur, a monotonic index is searched and any other raises. *)
Definition get_slice_bound_right (idx : list date) (label : date)
  : result nat :=
  let eq := λ d, bool_decide (d = label) in
  let ne := λ d, negb (eq d) in
  let before := take_while ne idx in
  let run := take_while eq (drop_while ne idx) in
  let after := drop_while eq (drop_while ne idx) in
  match run with
  | _ :: _ =>
      if existsb eq after then Raise KeyError
      else Ok (length before + length run)%nat
  | [] =>
      if is_monotonic_increasing idx
      then Ok (length (take_while (λ d, d <=? label) idx))
      else if is_monotonic_decreasing idx
      then Ok (length (take_while (λ d, label <=? d) idx))
      else Raise KeyError
  end.

(** [df.loc[:label]]; [df.loc[:None]] is the whole frame. *)
Definition loc_to (df : DataFrame) (label : option date)
  : result DataFrame :=
  match label with
  | None => Ok df
  | Some l =>
      stop ← get_slice_bound_right (index df) l;
      Ok (mkDataFrame (columns df) (take stop (rows df)))
  end.

Definition position (c : string) (cols : list string) : option nat :=
  fst <$> list_find (λ x, x = c) cols.

Definition reindex_row (old new : list string) (r : list float64)
  : list float64 :=
  (λ c, default PrimFloat.nan (i ← position c old; r !! i)) <$> new.

Definition is_unique (cols : list string) : bool := bool_decide (NoDup cols).

(** [pd.concat([a, b], axis=0)]: rows of [a], then rows of [b].  Frames with
    different labels are aligned on the union of the labels, in order of
    first appearance, the absent cells missing; that alignment needs
    unique labels. *)
Definition concat (a b : DataFrame) : result DataFrame :=
  if decide (columns a = columns b)
  then Ok (mkDataFrame (columns a) (rows a ++ rows b))
  else if is_unique (columns a) && is_unique (columns b)
  then
    let cols := columns a ++ List.filter (λ c, bool_decide (c ∉ columns a)) (columns b) in
    Ok (mkDataFrame cols
          (((λ r, (r.1, reindex_row (columns a) cols r.2)) <$> rows a) ++
           ((λ r, (r.1, reindex_row (columns b) cols r.2)) <$> rows b)))
  else Raise InvalidIndexError.

(** [index.duplicated(keep="first")]: true at every occurrence of a label
    but its first. *)
Fixpoint duplicated_from (seen : list date) (idx : list date) : list bool :=
  match idx with
  | [] => []
  | d :: t => bool_decide (d ∈ seen) :: duplicated_from (d :: seen) t
  end.

Definition duplicated (idx : list date) : list bool := duplicated_from [] idx.

(** [df[mask]] for a boolean mask as long as the frame. *)
Fixpoint select {A} (mask : list bool) (l : list A) : list A :=
  match mask, l with
  | m :: mask', x :: l' => if m then x :: select mask' l' else select mask' l'
  | _, _ => []
  end.

Definition getitem_mask (df : DataFrame) (mask : list bool) : DataFrame :=
  mkDataFrame (columns df) (select mask (rows df)).

(** [df[labels] op= k]: every label must be a column ([KeyError]
    otherwise); the named columns are replaced by their image. *)
Definition update_columns (labels : list string) (op : float64 → float64)
    (df : DataFrame) : result DataFrame :=
  if forallb (λ c, bool_decide (c ∈ columns df)) labels
  then Ok (mkDataFrame (columns df)
             ((λ r, (r.1, zip_with (λ c v, if bool_decide (c ∈ labels) then op v else v)
                                   (columns df) r.2)) <$> rows df))
  else Raise KeyError.

(** The cell at a row position and a column label. *)
Definition cell (df : DataFrame) (i : nat) (c : string) : option float64 :=
  r ← rows df !! i; j ← position c (columns df); r.2 !! j.

(** The first row carrying a date. *)
Definition row_at (df : DataFrame) (d : date) : option (list float64) :=
  snd <$> List.find (λ r, bool_decide (r.1 = d)) (rows df).

(** Rows surviving [~duplicated(keep="first")]. *)
Fixpoint keep_first (seen : list date) (rws : list (date * list float64))
  : list (date * list float64) :=
  match rws with
  | [] => []
  | r :: t =>
      if bool_decide (r.1 ∈ seen) then keep_first (r.1 :: seen) t
      else r :: keep_first (r.1 :: seen) t
  end.

End pd.

Import pd.

(** ** Objects: frames that are mutated in place

    A reference names a frame object; the store holds the current value of
    every object.  A method that assigns into its argument is a store
    transformer, so that aliasing is visible. *)

Abbreviation ref := nat (only parsing).
Abbreviation store := (list DataFrame) (only parsing).
Definition M (A : Type) : Type := store → result (A * store).

#[global] Instance M_ret : MRet M := λ A a σ, Ok (a, σ).
#[global] Instance M_bind : MBind M := λ A B f m σ,
  match m σ with Ok (a, σ') => f a σ' | Raise e => Raise e end.

Definition lift {A} (m : result A) : M A := λ σ,
  match m with Ok a => Ok (a, σ) | Raise e => Raise e end.

(** A new object. *)
Definition new (df : DataFrame) : M ref := λ σ, Ok (length σ, σ ++ [df]).

(** The value of an object. *)
Definition get (r : ref) : M DataFrame := λ σ,
  match σ !! r with Some df => Ok (df, σ) | None => Raise AttributeError end.

(** Assignment into an object. *)
Definition put (r : ref) (df : DataFrame) : M unit := λ σ, Ok (tt, <[r:=df]> σ).

(** [df.copy()]: a new object with the same value. *)
Definition copy (r : ref) : M ref := df ← get r; new df.

(** [df[labels] op= k] on the object itself. *)
Definition setitem_op (r : ref) (labels : list string) (op : float64 → float64)
  : M unit :=
  df ← get r; df' ← lift (update_columns labels op df); put r df'.

(** What a holder of a dictionary of objects observes: each key with the
    current value of its object. *)
Definition contents (σ : store) (d : gmap string ref) : gmap string DataFrame :=
  omap (λ r, σ !! r) d.

(** ** Gridded datasets and the environment

    An opened dataset is characterised by what the extractor reads from it:
    whether it has data variables (its truth value), its two coordinate
    axes, and the frame at the grid cell nearest to a coordinate,
    [dataset[variables].sel(lat, lon, method="nearest").to_dataframe()]
    re-indexed by calendar date. *)

Record Dataset : Type := mkDataset {
  data_vars : list string;
  lat_values : list float64;
  lon_values : list float64;
  point_frame : list string → float64 → float64 → result DataFrame
}.

Definition Mask : Set := list (list bool).

(** The operating system, the libraries and the scheduler. *)
Record Env : Type := mkEnv {
  glob : string → list string;
  path_exists : string → bool;
  path_join : string → string → string;
  format_year : string → Z → string;
  format_ensemble : string → string → string;
  open_mfdataset : list string → result Dataset;
  open_dataset : string → result Dataset;
  np_load : string → result Mask;
  cpu_count : option Z;
  str_float : float64 → string;
  as_completed : ∀ A : Type, list A → list A
}.

(** Truth value of [max_points and count >= max_points]. *)
Definition cap_reached (max_points : option Z) (count : nat) : bool :=
  match max_points with
  | Some m => bool_decide (m ≠ 0) && (m <=? Z.of_nat count)
  | None => false
  end.

(** Truth value of a dataset slot: [None] and a dataset without data
    variables are false. *)
Definition truthy (ds : option Dataset) : bool :=
  match ds with
  | Some d => match data_vars d with [] => false | _ => true end
  | None => false
  end.

(** [x.load()] on the value a loader returned. *)
Definition load (ds : option Dataset) : result (option Dataset) :=
  match ds with
  | Some d => Ok (Some d)
  | None => Raise AttributeError
  end.

(** [range(start, stop)]. *)
Definition py_range (start stop : Z) : list Z :=
  (λ k, start + Z.of_nat k) <$> seq 0 (Z.to_nat (stop - start)).

(** [range(0, n, step)]. *)
Definition py_range_step (n : nat) (step : Z) : result (list nat) :=
  if decide (step = 0) then Raise ValueError
  else if decide (step < 0) then Ok []
  else
    let b := Z.to_nat step in
    Ok ((λ k, k * b)%nat <$> seq 0 ((n + b - 1) `div` b)%nat).

(** [a[i : i + size]]; a negative end counts from the end of [a]. *)
Definition slice {A} (a : list A) (i : nat) (size : Z) : list A :=
  let stop := Z.of_nat i + size in
  let stop' := if decide (stop < 0) then Z.max 0 (Z.of_nat (length a) + stop) else stop in
  take (Z.to_nat stop' - i)%nat (drop i a).

(** [np.where(mask)] of a two-dimensional mask: the row and the column
    indices of the true cells, row by row. *)
Definition true_cells (mask : Mask) : list (nat * nat) :=
  mjoin (imap (λ i row,
           omap (λ jc : nat * bool, if jc.2 then Some (i, jc.1) else None)
                (imap (λ j c, (j, c)) row)) mask).

Definition np_where (mask : Mask) : list nat * list nat :=
  ((true_cells mask).*1, (true_cells mask).*2).

Definition count_nonzero (mask : Mask) : nat := length (true_cells mask).

(** [lat_grid[i, j]] and [lon_grid[i, j]] of
    [lon_grid, lat_grid = np.meshgrid(lons, lats)]. *)
Definition lat_grid_at (lats lons : list float64) (i j : nat) : result float64 :=
  match lats !! i, lons !! j with
  | Some lat, Some _ => Ok lat
  | _, _ => Raise IndexError
  end.

Definition lon_grid_at (lats lons : list float64) (i j : nat) : result float64 :=
  match lats !! i, lons !! j with
  | Some _, Some lon => Ok lon
  | _, _ => Raise IndexError
  end.

Fixpoint mapM_result {A B} (f : A → result B) (l : list A) : result (list B) :=
  match l with
  | [] => Ok []
  | x :: t => y ← f x; ys ← mapM_result f t; Ok (y :: ys)
  end.

(** [grid[rows, cols]] with two index arrays. *)
Definition fancy_index (at_ : nat → nat → result float64) (rws cls : list nat)
  : result (list float64) :=
  mapM_result (λ ij : nat * nat, at_ ij.1 ij.2) (zip rws cls).

Set Warnings "-inexact-float".

(** ** ClimateDataExtractorWithParallel.py *)

Module ClimateDataExtractorWithParallel.
Section Extractor.

Context (env : Env).

(** Key of a point in the output: [f"{lat},{lon}"]. *)
Definition point_key (lat lon : float64) : string :=
  str_float env lat +:+ "," +:+ str_float env lon.

(** Mutates the frame it is given and returns that same object. *)
Definition _convert_forecast_to_historical_units (forecast_df : ref) : M ref :=
  _ ← setitem_op forecast_df ["tas"; "tasmax"; "tasmin"]
        (λ v, PrimFloat.sub v 273.15%float);
  _ ← setitem_op forecast_df ["rsds"] (λ v, PrimFloat.mul v 24%float);
  mret forecast_df.

(** Returns a new frame. *)
Definition _extract_point_data (dataset : Dataset) (lat lon : float64)
    (variables : list string) : M ref :=
  df ← lift (point_frame dataset variables lat lon); new df.

(** Reads its two arguments only; the result is a new frame. *)
Definition _combine_dataframes (historical_df forecast_df : DataFrame)
  : result DataFrame :=
  let last_valid_historical := last_valid_index historical_df in
  historical_df ← loc_to historical_df last_valid_historical;
  combined_df ← concat historical_df forecast_df;
  Ok (getitem_mask combined_df (negb <$> duplicated (index combined_df))).

Definition _load_netcdf_data (folder file_pattern : string)
    (start_year end_year : Z) : result (option Dataset) :=
  let file_paths :=
    mjoin ((λ year, glob env (path_join env folder (format_year env file_pattern year)))
           <$> py_range start_year (end_year + 1)) in
  match file_paths with
  | [] => Ok None
  | _ => Some <$> open_mfdataset env file_paths
  end.

(** One iteration of the batch loop, after the cap test. *)
Definition process_point (historical_ds forecast_ds : Dataset)
    (variables : list string) (lat lon : float64)
    (batch_results : gmap string ref) : M (gmap string ref) :=
  historical_df ← _extract_point_data historical_ds lat lon variables;
  forecast_df ← _extract_point_data forecast_ds lat lon variables;
  forecast_df ← _convert_forecast_to_historical_units forecast_df;
  h ← get historical_df;
  f ← get forecast_df;
  combined ← lift (_combine_dataframes h f);
  c ← new combined;
  mret (<[point_key lat lon := c]> batch_results).

(** The loop of [_process_point_batch] from position [i] on. *)
Fixpoint batch_loop (historical_ds forecast_ds : Dataset)
    (variables : list string) (max_points : option Z)
    (points : list (float64 * float64)) (i : nat)
    (batch_results : gmap string ref) : M (gmap string ref) :=
  match points with
  | [] => mret batch_results
  | (lat, lon) :: rest =>
      if cap_reached max_points i then mret batch_results
      else
        batch_results ← process_point historical_ds forecast_ds variables
                          lat lon batch_results;
        batch_loop historical_ds forecast_ds variables max_points rest (S i)
          batch_results
  end.

Definition _process_point_batch (historical_ds forecast_ds : Dataset)
    (variables : list string) (lat_batch lon_batch : list float64)
    (max_points : option Z) : M (gmap string ref) :=
  batch_loop historical_ds forecast_ds variables max_points
    (zip lat_batch lon_batch) 0 ∅.

(** One iteration of the loop of [extract_variables_over_years], after the
    cap test; the forecast frame is converted on a copy. *)
Definition extract_point (historical_ds forecast_ds : Dataset)
    (variables : list string) (lat_idx lon_idx : nat)
    (df_dict : gmap string ref) : M (gmap string ref) :=
  let lats := lat_values historical_ds in
  let lons := lon_values historical_ds in
  lat ← lift (lat_grid_at lats lons lat_idx lon_idx);
  lon ← lift (lon_grid_at lats lons lat_idx lon_idx);
  historical_df ← _extract_point_data historical_ds lat lon variables;
  forecast_df ← _extract_point_data forecast_ds lat lon variables;
  forecast_copy ← copy forecast_df;
  forecast_df ← _convert_forecast_to_historical_units forecast_copy;
  h ← get historical_df;
  f ← get forecast_df;
  combined ← lift (_combine_dataframes h f);
  c ← new combined;
  mret (<[point_key lat lon := c]> df_dict).

(** The loop of [extract_variables_over_years]; the second component is
    the binding of [count] when the loop is left, [None] while the loop
    variable was never bound. *)
Fixpoint extract_loop (historical_ds forecast_ds : Dataset)
    (variables : list string) (max_points : option Z)
    (cells : list (nat * nat)) (count : nat) (bound : option nat)
    (df_dict : gmap string ref) : M (gmap string ref * option nat) :=
  match cells with
  | [] => mret (df_dict, bound)
  | (lat_idx, lon_idx) :: rest =>
      if cap_reached max_points count then mret (df_dict, Some count)
      else
        df_dict ← extract_point historical_ds forecast_ds variables
                    lat_idx lon_idx df_dict;
        extract_loop historical_ds forecast_ds variables max_points rest
          (S count) (Some count) df_dict
  end.

(** The closing [print] reads [count]. *)
Definition read_local {A} (x : option A) : result A :=
  match x with Some a => Ok a | None => Raise UnboundLocalError end.

Definition forecast_folder : string := "netcdf_files/forecasts_2024_05/r1i1p1".

Definition extract_variables_over_years (netcdf_folder : string)
    (variables : list string) (file_name_pattern : string)
    (start_year end_year : Z) (mask_path : string) (max_points : option Z)
  : result (gmap string DataFrame) :=
  mask ← np_load env mask_path;
  historical_ds ← _load_netcdf_data netcdf_folder file_name_pattern
                    start_year end_year ≫= load;
  forecast_ds ← _load_netcdf_data forecast_folder "combined.nc" 2024 2024 ≫= load;
  match historical_ds, forecast_ds with
  | Some hds, Some fds =>
      if negb (truthy historical_ds) || negb (truthy forecast_ds) then Ok ∅
      else
        let '(valid_lat_indices, valid_lon_indices) := np_where mask in
        '(df_dict, count, σ) ←
           extract_loop hds fds variables max_points
             (zip valid_lat_indices valid_lon_indices) 0 None ∅ [];
        _ ← read_local count;
        Ok (contents σ df_dict)
  | _, _ => Ok ∅
  end.

(** A submitted batch: the worker runs [_process_point_batch] in a process
    of its own and sends back the dictionary of frames. *)
Definition submit (historical_ds forecast_ds : Dataset)
    (variables : list string) (lat_batch lon_batch : list float64)
    (max_points : option Z) : result (gmap string DataFrame) :=
  '(batch_results, σ) ←
     _process_point_batch historical_ds forecast_ds variables
       lat_batch lon_batch max_points [];
  Ok (contents σ batch_results).

(** What the coordinator hands to the pool for one batch. *)
Record Submission : Set := mkSubmission {
  lat_batch : list float64;
  lon_batch : list float64;
  budget : option Z
}.

(** The submission loop over the batch starts [i]; [points_processed] is
    the running count of submitted points. *)
Fixpoint submit_loop (lats lons : list float64)
    (valid_lat_indices valid_lon_indices : list nat)
    (batch_size : Z) (max_points : option Z)
    (starts : list nat) (points_processed : nat)
  : result (list Submission) :=
  match starts with
  | [] => Ok []
  | i :: rest =>
      if cap_reached max_points points_processed then Ok []
      else
        lat_batch ← fancy_index (lat_grid_at lats lons)
                      (slice valid_lat_indices i batch_size)
                      (slice valid_lon_indices i batch_size);
        lon_batch ← fancy_index (lon_grid_at lats lons)
                      (slice valid_lat_indices i batch_size)
                      (slice valid_lon_indices i batch_size);
        let b := match max_points with
                 | Some m => if decide (m ≠ 0)
                             then Some (m - Z.of_nat points_processed) else None
                 | None => None
                 end in
        later ← submit_loop lats lons valid_lat_indices valid_lon_indices
                  batch_size max_points rest
                  (points_processed + length lat_batch);
        Ok (mkSubmission lat_batch lon_batch b :: later)
  end.

(** [for future in as_completed(futures): df_dict.update(future.result())]. *)
Fixpoint collect (done : list (result (gmap string DataFrame)))
    (df_dict : gmap string DataFrame) : result (gmap string DataFrame) :=
  match done with
  | [] => Ok df_dict
  | future :: rest => r ← future; collect rest (r ∪ df_dict)
  end.

(** Batch size when none is given. *)
Definition default_batch_size (mask : Mask) : Z :=
  let num_processes :=
    match cpu_count env with
    | Some n => if decide (n = 0) then 1 else n
    | None => 1
    end in
  Z.max 1 (Z.of_nat (count_nonzero mask) `div` num_processes).

(** The batches the coordinator submits, in submission order. *)
Definition submissions (hds : Dataset) (mask : Mask) (batch_size : option Z)
    (max_points : option Z) : result (list Submission) :=
  let batch_size := default (default_batch_size mask) batch_size in
  let '(valid_lat_indices, valid_lon_indices) := np_where mask in
  starts ← py_range_step (length valid_lat_indices) batch_size;
  submit_loop (lat_values hds) (lon_values hds)
    valid_lat_indices valid_lon_indices batch_size max_points starts 0.

Definition extract_variables_over_years_parallel (netcdf_folder : string)
    (variables : list string) (file_name_pattern : string)
    (start_year end_year : Z) (mask_path : string)
    (batch_size max_points : option Z) : result (gmap string DataFrame) :=
  mask ← np_load env mask_path;
  historical_ds ← _load_netcdf_data netcdf_folder file_name_pattern
                    start_year end_year;
  forecast_ds ← _load_netcdf_data forecast_folder "combined.nc" 2024 2024;
  match historical_ds, forecast_ds with
  | Some hds, Some fds =>
      if negb (truthy historical_ds) || negb (truthy forecast_ds) then Ok ∅
      else
        batches ← submissions hds mask batch_size max_points;
        let futures :=
          (λ s, submit hds fds variables (lat_batch s) (lon_batch s) (budget s))
          <$> batches in
        collect (as_completed env _ futures) ∅
  | _, _ => Ok ∅
  end.

End Extractor.
End ClimateDataExtractorWithParallel.

(** ** ClimateDataExtractor.py *)

Module ClimateDataExtractor.
Section Extractor.

Context (env : Env).

Definition point_key (lat lon : float64) : string :=
  str_float env lat +:+ "," +:+ str_float env lon.

Definition _convert_forecast_to_amber_units (forecast_df : ref) : M ref :=
  _ ← setitem_op forecast_df ["tas"; "tasmax"; "tasmin"]
        (λ v, PrimFloat.sub v 273.15%float);
  _ ← setitem_op forecast_df ["rsds"] (λ v, PrimFloat.mul v 24%float);
  mret forecast_df.

Definition _extract_point_data (dataset : Dataset) (lat lon : float64)
    (variables : list string) : M ref :=
  df ← lift (point_frame dataset variables lat lon); new df.

Definition _combine_dataframes (amber_df forecast_df : DataFrame)
  : result DataFrame :=
  let last_valid_amber := last_valid_index amber_df in
  amber_df ← loc_to amber_df last_valid_amber;
  combined_df ← concat amber_df forecast_df;
  Ok (getitem_mask combined_df (negb <$> duplicated (index combined_df))).

Definition _load_amber_data (folder_pattern file_name_pattern : string)
    (start_year end_year : Z) : result (option Dataset) :=
  let file_paths :=
    omap (λ year,
            let folder := format_year env folder_pattern year in
            let file_path := path_join env folder (format_year env file_name_pattern year) in
            if path_exists env file_path then Some file_path else None)
         (py_range start_year (end_year + 1)) in
  match file_paths with
  | [] => Ok None
  | _ => Some <$> open_mfdataset env file_paths
  end.

Definition _load_forecast_data (folder_pattern file_name_pattern ensemble : string)
  : result (option Dataset) :=
  let folder := format_ensemble env folder_pattern ensemble in
  let file_path := path_join env folder (format_ensemble env file_name_pattern ensemble) in
  if negb (path_exists env file_path) then Ok None
  else Some <$> open_dataset env file_path.

Definition read_local {A} (x : option A) : result A :=
  match x with Some a => Ok a | None => Raise UnboundLocalError end.

(** The loop of [extract_amber_data]. *)
Fixpoint amber_loop (amber_ds : Dataset) (variables : list string)
    (max_points : option Z) (points : list (float64 * float64))
    (count : nat) (bound : option nat) (amber_df_dict : gmap string ref)
  : M (gmap string ref * option nat) :=
  match points with
  | [] => mret (amber_df_dict, bound)
  | (lat, lon) :: rest =>
      if cap_reached max_points count then mret (amber_df_dict, Some count)
      else
        amber_df ← _extract_point_data amber_ds lat lon variables;
        amber_loop amber_ds variables max_points rest (S count) (Some count)
          (<[point_key lat lon := amber_df]> amber_df_dict)
  end.

Definition extract_amber_data (netcdf_folder_pattern : string)
    (variables : list string) (file_name_pattern : string)
    (start_year end_year : Z)
    (ndarray_of_valid_lat_lon_tuples : list (float64 * float64))
    (max_points : option Z) : result (gmap string DataFrame) :=
  amber_ds ← _load_amber_data netcdf_folder_pattern file_name_pattern
               start_year end_year ≫= load;
  match amber_ds with
  | Some ds =>
      if negb (truthy amber_ds) then Ok ∅
      else
        '(amber_df_dict, count, σ) ←
           amber_loop ds variables max_points
             ndarray_of_valid_lat_lon_tuples 0 None ∅ [];
        _ ← read_local count;
        Ok (contents σ amber_df_dict)
  | None => Ok ∅
  end.

(** The loop of [extract_forecast_data]; the conversion works on a copy. *)
Fixpoint forecast_loop (forecast_ds : Dataset) (variables : list string)
    (max_points : option Z) (points : list (float64 * float64))
    (count : nat) (bound : option nat) (forecast_df_dict : gmap string ref)
  : M (gmap string ref * option nat) :=
  match points with
  | [] => mret (forecast_df_dict, bound)
  | (lat, lon) :: rest =>
      if cap_reached max_points count then mret (forecast_df_dict, Some count)
      else
        forecast_df ← _extract_point_data forecast_ds lat lon variables;
        forecast_copy ← copy forecast_df;
        forecast_df ← _convert_forecast_to_amber_units forecast_copy;
        forecast_loop forecast_ds variables max_points rest (S count)
          (Some count) (<[point_key lat lon := forecast_df]> forecast_df_dict)
  end.

Definition extract_forecast_data (netcdf_folder_pattern : string)
    (variables : list string) (file_name_pattern : string)
    (ndarray_of_valid_lat_lon_tuples : list (float64 * float64))
    (ensemble : string) (max_points : option Z)
  : result (gmap string DataFrame) :=
  forecast_ds ← _load_forecast_data netcdf_folder_pattern file_name_pattern
                  ensemble ≫= load;
  match forecast_ds with
  | Some ds =>
      if negb (truthy forecast_ds) then Ok ∅
      else
        '(forecast_df_dict, count, σ) ←
           forecast_loop ds variables max_points
             ndarray_of_valid_lat_lon_tuples 0 None ∅ [];
        _ ← read_local count;
        Ok (contents σ forecast_df_dict)
  | None => Ok ∅
  end.

End Extractor.
End ClimateDataExtractor.

(** ** Notions used in the statements *)

Section Notions.

Import ClimateDataExtractorWithParallel.

(** Every reference held by a dictionary names an object among the first
    [n] of the store. *)
Definition refs_below (n : nat) (d : gmap string nat) : Prop :=
  map_Forall (λ _ r, (r < n)%nat) d.

(** The points a worker processes under a budget: all of them without a
    cap (or with the cap 0, which the loop test ignores), and otherwise
    those at positions below the budget. *)
Definition within_budget {A} (max_points : option Z) (points : list A) : list A :=
  match max_points with
  | Some m => if decide (m = 0) then points else take (Z.to_nat m) points
  | None => points
  end.

(** The coordinate pair of a true mask cell. *)
Definition grid_point (lats lons : list float64) (ij : nat * nat)
  : result (float64 * float64) :=
  lat ← lat_grid_at lats lons ij.1 ij.2;
  lon ← lon_grid_at lats lons ij.1 ij.2;
  Ok (lat, lon).

(** The ordered valid-point sequence: the coordinate pairs of the true
    cells of the mask, row by row, on the axes of the historical dataset. *)
Definition valid_points (hds : Dataset) (mask : Mask)
  : result (list (float64 * float64)) :=
  mapM_result (grid_point (lat_values hds) (lon_values hds)) (true_cells mask).

(** The points of a submitted batch, and those among them that its worker
    processes under the budget it was given. *)
Definition batch_points (s : Submission) : list (float64 * float64) :=
  zip (lat_batch s) (lon_batch s).

Definition processed (s : Submission) : list (float64 * float64) :=
  within_budget (budget s) (batch_points s).

(** Running count of submitted points before the batch at position [k]. *)
Definition submitted_before (subs : list Submission) (k : nat) : nat :=
  sum_list_with (λ s, length (lat_batch s)) (take k subs).

End Notions.

(** ** The specification's wording *)

Section Wording.

(** The last valid index in the words of the specification: the latest
    date at which no variable has a missing value. *)
Definition row_complete (r : date * list float64) : bool := forallb notna r.2.

Definition spec_last_valid_index (df : DataFrame) : option date :=
  foldr (λ d acc, Some (from_option (Z.max d) d acc)) None
    (List.filter row_complete (rows df)).*1.

(** The unit table of the specification: Kelvin to Celsius for the three
    air temperatures, daily mean to daily total for the shortwave
    radiation, every other variable unchanged. *)
Definition spec_convert (variable : string) (v : float64) : float64 :=
  if bool_decide (variable ∈ ["tas"; "tasmax"; "tasmin"])
  then PrimFloat.sub v 273.15%float
  else if bool_decide (variable = "rsds") then PrimFloat.mul v 24%float
  else v.

End Wording.

(** ** Concrete frames, datasets and environments *)

Section Samples.

(** A frame with the single variable tas. *)
Definition frame1 (rws : list (date * float64)) : DataFrame :=
  mkDataFrame ["tas"] ((λ r, (r.1, [r.2])) <$> rws).

Definition all_variables : list string :=
  ["hurs"; "pr"; "rsds"; "sfcWind"; "tas"; "tasmax"; "tasmin"].

(** A forecast frame in forecast units, the same frame after conversion,
    and a historical frame. *)
Definition forecast_frame : DataFrame :=
  mkDataFrame all_variables
    [(1, [80; 1; 10; 3; 278.15; 280.15; 275.15]%float);
     (2, [81; 0; 12; 4; 280.15; 282.15; 277.15]%float)].

Definition converted_frame : DataFrame :=
  mkDataFrame all_variables
    [(1, [80; 1; 240; 3; 5; 7; 2]%float);
     (2, [81; 0; 288; 4; 7; 9; 4]%float)].

Definition historical_frame : DataFrame :=
  mkDataFrame all_variables
    [(1, [70; 2; 200; 3; 5; 7; 2]%float)].

(** A dataset on a 2 x 5 grid that serves [frame] at every point. *)
Definition dataset_of (frame : DataFrame) : Dataset :=
  mkDataset all_variables [54; 55]%float [9; 10; 11; 12; 13]%float
    (λ _ _ _, Ok frame).

(** [str] on the coordinates of that grid. *)
Definition str_small (x : float64) : string :=
  if PrimFloat.eqb x 54 then "54.0"
  else if PrimFloat.eqb x 55 then "55.0"
  else if PrimFloat.eqb x 9 then "9.0"
  else if PrimFloat.eqb x 10 then "10.0"
  else if PrimFloat.eqb x 11 then "11.0"
  else if PrimFloat.eqb x 12 then "12.0"
  else if PrimFloat.eqb x 13 then "13.0"
  else "nan".

(** An environment: every pattern matches [files], every opened dataset
    serves [frame] at each point, the mask file holds [mask], there are
    four processors, and completed futures are seen in reverse submission
    order. *)
Definition example_env (files : list string) (frame : DataFrame) (mask : Mask)
  : Env :=
  mkEnv (λ _, files)
        (λ _, bool_decide (files ≠ []))
        (λ a b, a +:+ "/" +:+ b)
        (λ p _, p)
        (λ p _, p)
        (λ _, Ok (dataset_of frame))
        (λ _, Ok (dataset_of frame))
        (λ _, Ok mask)
        (Some 4)
        str_small
        (λ A l, reverse l).

(** Ten valid points on the 2 x 5 grid, and the mask without any. *)
Definition ten_mask : Mask := replicate 2 (replicate 5 true).

Definition ten_points : list (float64 * float64) :=
  [(54, 9); (54, 10); (54, 11); (54, 12); (54, 13);
   (55, 9); (55, 10); (55, 11); (55, 12); (55, 13)]%float.

Definition empty_mask : Mask := replicate 2 (replicate 5 false).

End Samples.

(** ** Occurrences of a label that do not form one run *)

Definition scattered (D : date) (idx : list date) : Prop :=
  ∃ pre mid post x,
    idx = pre ++ D :: mid ++ D :: post ∧ x ∈ mid ∧ x ≠ D.

(** ** The frames the extraction computes for one point *)

Section PointFrames.

(** The value of a forecast frame after the unit conversion. *)
Definition converted (df : DataFrame) : result DataFrame :=
  df ← update_columns ["tas"; "tasmax"; "tasmin"]
         (λ v, PrimFloat.sub v 273.15%float) df;
  update_columns ["rsds"] (λ v, PrimFloat.mul v 24%float) df.

(** The forecast series of a point, in historical units. *)
Definition converted_at (fds : Dataset) (variables : list string)
    (p : float64 * float64) : result DataFrame :=
  f ← point_frame fds variables p.1 p.2;
  converted f.

(** The series of a point: its historical frame combined with its
    converted forecast frame. *)
Definition combined_at (hds fds : Dataset) (variables : list string)
    (p : float64 * float64) : result DataFrame :=
  h ← point_frame hds variables p.1 p.2;
  f ← converted_at fds variables p;
  ClimateDataExtractorWithParallel._combine_dataframes h f.

(** A dictionary filled point by point, a later point replacing an earlier
    one under the same key; the first failure ends the loop. *)
Fixpoint fill {P} (frame_at : P → result DataFrame) (key : P → string)
    (points : list P) (acc : gmap string DataFrame)
  : result (gmap string DataFrame) :=
  match points with
  | [] => Ok acc
  | p :: rest => c ← frame_at p; fill frame_at key rest (<[key p := c]> acc)
  end.

End PointFrames.

(** ** The shape the three sequential loops share *)

Section Loops.

(** The points left to a loop that has counted [count] of them. *)
Definition remaining {A} (max_points : option Z) (count : nat) (points : list A)
  : list A :=
  match max_points with
  | Some m => if decide (m = 0) then points
              else take (Z.to_nat m - count) points
  | None => points
  end.

(** A loop that tests the cap, runs [step] on the item and counts it. *)
Fixpoint counted_loop {X} (step : X → gmap string nat → M (gmap string nat))
    (max_points : option Z) (items : list X) (count : nat) (bound : option nat)
    (df_dict : gmap string nat) : M (gmap string nat * option nat) :=
  match items with
  | [] => mret (df_dict, bound)
  | x :: rest =>
      if cap_reached max_points count then mret (df_dict, Some count)
      else
        df_dict ← step x df_dict;
        counted_loop step max_points rest (S count) (Some count) df_dict
  end.

End Loops.

(** ** NetCDFToMonicaPipeline.py *)

Module NetCDFToMonicaPipeline.

(** What the forecast pipeline calls besides the extraction: the
    downloader, the merger, [np.load] of the saved point array, [save_data]
    and the formatting of integers ([str] and the format [02]).  The
    downloads and the merges act on the file system, which [Env] describes
    as the extraction finds it. *)
Record Services : Type := mkServices {
  retrieve_seasonal_forecasts :
    string → string → string → string → string → list string → list string →
    string → string → Z → Z → result unit;
  merge_esgf_files : string → Z → Z → list string → result unit;
  load_points : string → result (list (float64 * float64));
  save_data : gmap string DataFrame → string → string → result unit;
  str_int : Z → string;
  format_02 : Z → string
}.

(** A file written by [save_data]: directory, file name, content. *)
Definition Saved : Type := string * string * gmap string DataFrame.

Section Pipeline.

Context (env : Env) (svc : Services).

(** The loop over the ensembles; [bound] holds the three loop-local
    variables once an iteration has assigned them. *)
Fixpoint ensembles_loop (variables : list string)
    (ndarray_of_valid_lat_lon_tuples : list (float64 * float64))
    (year month : Z) (ensembles : list string) (bound : option Saved)
  : result (option Saved) :=
  match ensembles with
  | [] => Ok bound
  | enseble :: rest =>
      let forecast_data_directory :=
        "cache/forecast/" +:+ str_int svc year +:+ format_02 svc month +:+ "01" in
      let forecast_data_file := enseble +:+ "_extracted.pkl.lz4" in
      forecast_df_dict ←
        ClimateDataExtractor.extract_forecast_data env
          "netcdf_files/forecasts/20240501/{ensemble}" variables
          "merged_20240501_{ensemble}.nc" ndarray_of_valid_lat_lon_tuples
          enseble (Some 2000);
      ensembles_loop variables ndarray_of_valid_lat_lon_tuples year month rest
        (Some (forecast_data_directory, forecast_data_file, forecast_df_dict))
  end.

(** The files the pipeline has written when it returns. *)
Definition forecast_pipeline (ensembles variables : list string)
    (forecast_directory : string) (year month : Z) (version_suffix : string)
  : result (list Saved) :=
  _ ← retrieve_seasonal_forecasts svc "seasonal" "GCFS21" "svhYYYY" "sfc"
        "DE-0075x005" variables ensembles version_suffix forecast_directory
        year month;
  _ ← merge_esgf_files svc forecast_directory year month ensembles;
  ndarray_of_valid_lat_lon_tuples ← load_points svc "valid_grid_points.npy";
  bound ← ensembles_loop variables ndarray_of_valid_lat_lon_tuples year month
            ensembles None;
  '(forecast_data_directory, forecast_data_file, forecast_df_dict) ←
     ClimateDataExtractor.read_local bound;
  _ ← save_data svc forecast_df_dict forecast_data_directory forecast_data_file;
  Ok [(forecast_data_directory, forecast_data_file, forecast_df_dict)].

End Pipeline.

(** Services that all succeed, with a given point array. *)
Definition example_services (points : list (float64 * float64)) : Services :=
  mkServices (λ _ _ _ _ _ _ _ _ _ _ _, Ok tt) (λ _ _ _ _, Ok tt)
             (λ _, Ok points) (λ _ _ _, Ok tt)
             (λ z, if decide (z = 2024) then "2024" else "2023")
             (λ z, if decide (z = 5) then "05" else "12").

End NetCDFToMonicaPipeline.

(** ** ClimateDataDownloader.py: the end date of a forecast *)

Module ClimateDataDownloader.

(** The exceptions of the date arithmetic, and its results. *)
Inductive error : Set := ValueError | OverflowError.

Inductive outcome (A : Type) : Type :=
  | Return (a : A)
  | Fail (e : error).
Arguments Return {_} _.
Arguments Fail {_} _.

Definition bind {A B} (m : outcome A) (k : A → outcome B) : outcome B :=
  match m with Return a => k a | Fail e => Fail e end.

(** A [datetime] at midnight. *)
Record datetime : Set := mkDatetime { year : Z; month : Z; day : Z }.

Definition is_leap (y : Z) : bool :=
  (y `mod` 4 =? 0) && (negb (y `mod` 100 =? 0) || (y `mod` 400 =? 0)).

Definition days_in_month (y m : Z) : Z :=
  if m =? 2 then (if is_leap y then 29 else 28)
  else if (m =? 4) || (m =? 6) || (m =? 9) || (m =? 11) then 30
  else 31.

(** [datetime(year, month, day)]. *)
Definition new_datetime (y m d : Z) : outcome datetime :=
  if bool_decide (1 ≤ y ≤ 9999 ∧ 1 ≤ m ≤ 12 ∧ 1 ≤ d ≤ days_in_month y m)
  then Return (mkDatetime y m d)
  else Fail ValueError.

(** [dt + timedelta(days=-1)]. *)
Definition minus_one_day (dt : datetime) : outcome datetime :=
  if bool_decide (1 < day dt)
  then Return (mkDatetime (year dt) (month dt) (day dt - 1))
  else if bool_decide (1 < month dt)
  then Return (mkDatetime (year dt) (month dt - 1)
                 (days_in_month (year dt) (month dt - 1)))
  else if bool_decide (1 < year dt)
  then Return (mkDatetime (year dt - 1) 12 31)
  else Fail OverflowError.

Section Downloader.

(** [datetime.strptime(s, "%Y%m%d")] and [dt.strftime("%Y%m%d")]. *)
Context (strptime : string → outcome datetime) (strftime : datetime → string).

Definition _calculate_end_date (start_date_str : string) : outcome string :=
  bind (strptime start_date_str) (λ start_date,
    let future_year := year start_date + (month start_date + 6) `div` 12 in
    let future_month := (month start_date + 6) `mod` 12 in
    let future_month := if decide (future_month = 0) then 12 else future_month in
    bind (bind (new_datetime future_year future_month 1) minus_one_day)
      (λ future_date, Return (strftime future_date))).

End Downloader.

(** The two library functions on start dates of eight digits. *)
Definition digit (d : Z) : string :=
  String (Ascii.ascii_of_nat (48 + Z.to_nat d)) EmptyString.

Definition digit_value (c : Ascii.ascii) : option Z :=
  let n := Z.of_nat (Ascii.nat_of_ascii c) in
  if bool_decide (48 ≤ n ≤ 57) then Some (n - 48) else None.

Definition example_strftime (dt : datetime) : string :=
  digit ((year dt `div` 1000) `mod` 10) +:+ digit ((year dt `div` 100) `mod` 10)
  +:+ digit ((year dt `div` 10) `mod` 10) +:+ digit (year dt `mod` 10)
  +:+ digit ((month dt `div` 10) `mod` 10) +:+ digit (month dt `mod` 10)
  +:+ digit ((day dt `div` 10) `mod` 10) +:+ digit (day dt `mod` 10).

Definition example_strptime (s : string) : outcome datetime :=
  match digit_value <$> String.list_ascii_of_string s with
  | [Some y1; Some y2; Some y3; Some y4; Some m1; Some m2; Some d1; Some d2] =>
      new_datetime (1000 * y1 + 100 * y2 + 10 * y3 + y4) (10 * m1 + m2)
        (10 * d1 + d2)
  | _ => Fail ValueError
  end.

End ClimateDataDownloader.

(** ** create_data_availablity_mask_h_and_fc.py *)

Module create_data_availablity_mask_h_and_fc.

Definition variables : list string :=
  ["hurs"; "pr"; "rsds"; "sfcWind"; "tas"; "tasmax"; "tasmin"].

(** [data_point["pr"].isnull().all()] on the series of a point. *)
Definition pr_all_null (data_point : DataFrame) : result bool :=
  match position "pr" (columns data_point) with
  | Some j => Ok (forallb (λ r, from_option isna true (r.2 !! j))
                    (rows data_point))
  | None => Raise KeyError
  end.

(** The test of one grid point: both series are selected first; [or]
    looks at the forecast series only if the historical one has a value. *)
Definition keep_point (dataset_fc dataset_hist : Dataset) (lat lon : float64)
  : result bool :=
  data_point_hist ← point_frame dataset_hist variables lat lon;
  data_point_fc ← point_frame dataset_fc variables lat lon;
  hist_null ← pr_all_null data_point_hist;
  if (hist_null : bool) then Ok false
  else (fc_null ← pr_all_null data_point_fc; Ok (negb fc_null)).

Fixpoint lon_loop (dataset_fc dataset_hist : Dataset) (lat : float64)
    (lons : list float64) (valid_grid_points : list (float64 * float64))
  : result (list (float64 * float64)) :=
  match lons with
  | [] => Ok valid_grid_points
  | lon :: rest =>
      keep ← keep_point dataset_fc dataset_hist lat lon;
      lon_loop dataset_fc dataset_hist lat rest
        (if (keep : bool) then valid_grid_points ++ [(lat, lon)]
         else valid_grid_points)
  end.

Fixpoint lat_loop (dataset_fc dataset_hist : Dataset)
    (lats lons : list float64) (valid_grid_points : list (float64 * float64))
  : result (list (float64 * float64)) :=
  match lats with
  | [] => Ok valid_grid_points
  | lat :: rest =>
      valid_grid_points ← lon_loop dataset_fc dataset_hist lat lons
                            valid_grid_points;
      lat_loop dataset_fc dataset_hist rest lons valid_grid_points
  end.

Section Script.

(** The conversion of a coordinate to [np.float32]. *)
Context (float32 : float64 → float64).

(** The array handed to [np.save], with the path it is saved at. *)
Definition save_valid_grid_points_fc_and_hist (dataset_fc dataset_hist : Dataset)
    (output_path : string) : result (string * list (float64 * float64)) :=
  valid_grid_points ←
    lat_loop dataset_fc dataset_hist (lat_values dataset_hist)
      (lon_values dataset_hist) [];
  Ok (output_path,
      (λ p, (float32 p.1, float32 p.2))
      <$> (valid_grid_points : list (float64 * float64))).

End Script.

End create_data_availablity_mask_h_and_fc.

(** A dataset on a 2 x 2 grid whose point at latitude 55 and longitude 9
    has no precipitation value. *)
Definition dataset_with_gap : Dataset :=
  mkDataset all_variables [54; 55]%float [9; 10]%float
    (λ _ lat lon,
       if PrimFloat.eqb lat 55 && PrimFloat.eqb lon 9
       then Ok (mkDataFrame all_variables
                  [(1, [70; PrimFloat.nan; 200; 3; 5; 7; 2]%float)])
       else Ok historical_frame).

(** ** Proof steps over the store monad *)

Ltac destruct_step r σ1 H :=
  match goal with
  | |- context [match ?m with Ok _ => _ | Raise _ => _ end] =>
      destruct m as [[r σ1]|] eqn:H
  end.


(** * Facts about the pandas operations *)

Section pandas_facts.

Implicit Types (rws : list (date * list float64)) (seen idx : list date).

Lemma bind_result_Ok {A B} (m : result A) (k : A → result B) b :
  m ≫= k = Ok b ↔ ∃ a, m = Ok a ∧ k a = Ok b.
Proof. destruct m; cbn; naive_solver. Qed.

Lemma select_not_duplicated seen rws :
  select (negb <$> duplicated_from seen rws.*1) rws = keep_first seen rws.
Proof.
  revert seen. induction rws as [|r t IH]; intros seen; [done|].
  cbn. rewrite IH. by destruct (bool_decide (r.1 ∈ seen)).
Qed.

Lemma keep_first_ext s1 s2 rws :
  (∀ d, d ∈ s1 ↔ d ∈ s2) → keep_first s1 rws = keep_first s2 rws.
Proof.
  revert s1 s2. induction rws as [|r t IH]; intros s1 s2 Hs; [done|].
  cbn. rewrite (IH (r.1 :: s1) (r.1 :: s2)).
  - by rewrite (bool_decide_ext _ _ (Hs r.1)).
  - intros d. rewrite !elem_of_cons. naive_solver.
Qed.

Lemma keep_first_fresh seen rws d :
  d ∈ (keep_first seen rws).*1 → (d ∉ seen) ∧ (d ∈ rws.*1).
Proof.
  revert seen. induction rws as [|r t IH]; intros seen; cbn.
  - by intros ?%elem_of_nil.
  - case_bool_decide as Hr; cbn.
    + intros [Hd ?]%IH. split; [|by right]. set_solver.
    + rewrite elem_of_cons. intros [->|[Hd ?]%IH].
      * split; [done|by left].
      * split; [|by right]. set_solver.
Qed.

Lemma keep_first_NoDup seen rws : NoDup (keep_first seen rws).*1.
Proof.
  revert seen. induction rws as [|r t IH]; intros seen; cbn.
  - constructor.
  - case_bool_decide; cbn; [apply IH|].
    constructor; [|apply IH].
    intros [Hd _]%keep_first_fresh. set_solver.
Qed.

Lemma keep_first_find seen rws d :
  d ∉ seen →
  List.find (λ r, bool_decide (r.1 = d)) (keep_first seen rws)
  = List.find (λ r, bool_decide (r.1 = d)) rws.
Proof.
  revert seen. induction rws as [|r t IH]; intros seen Hd; [done|].
  cbn. case_bool_decide as Hr; cbn.
  - case_bool_decide as Hrd; [by subst|].
    apply IH. set_solver.
  - case_bool_decide as Hrd; [done|].
    apply IH. set_solver.
Qed.

Lemma keep_first_app seen a b :
  keep_first seen (a ++ b) = keep_first seen a ++ keep_first (a.*1 ++ seen) b.
Proof.
  revert seen. induction a as [|r t IH]; intros seen; [done|].
  cbn. rewrite IH.
  rewrite (keep_first_ext (t.*1 ++ r.1 :: seen) (r.1 :: t.*1 ++ seen) b).
  - by case_bool_decide.
  - intros d. set_solver.
Qed.

Lemma keep_first_id seen rws :
  NoDup rws.*1 → (∀ d, d ∈ rws.*1 → d ∉ seen) → keep_first seen rws = rws.
Proof.
  revert seen. induction rws as [|r t IH]; intros seen Hnd Hfresh; [done|].
  cbn in *. apply NoDup_cons in Hnd as [Hr Hnd].
  rewrite bool_decide_eq_false_2 by set_solver.
  f_equal. apply IH; [done|]. intros d Hd. set_solver.
Qed.

Lemma filter_iff_in {A} (P1 P2 : A → Prop)
    `{!∀ x, Decision (P1 x), !∀ x, Decision (P2 x)} (l : list A) :
  (∀ x, x ∈ l → P1 x ↔ P2 x) → filter P1 l = filter P2 l.
Proof.
  induction l as [|a l IH]; intros HP; [done|].
  rewrite !filter_cons, IH by (intros; apply HP; by right).
  apply decide_ext, HP. by left.
Qed.

Lemma keep_first_filter seen rws :
  NoDup rws.*1 →
  keep_first seen rws = filter (λ r, r.1 ∉ seen) rws.
Proof.
  revert seen. induction rws as [|r t IH]; intros seen Hnd; [done|].
  rewrite fmap_cons in Hnd. apply NoDup_cons in Hnd as [Hr Hnd].
  cbn [keep_first]. rewrite IH by done.
  assert (filter (λ r0, r0.1 ∉ r.1 :: seen) t = filter (λ r0, r0.1 ∉ seen) t) as ->.
  { apply filter_iff_in. intros x Hx. rewrite not_elem_of_cons.
    split; [naive_solver|]. intros ?. split; [|done].
    intros Heq. apply Hr. rewrite <- Heq. by apply list_elem_of_fmap_2. }
  case_bool_decide as Hin.
  - by rewrite filter_cons_False by naive_solver.
  - by rewrite filter_cons_True by done.
Qed.

End pandas_facts.

Section slicing_facts.

Implicit Types (rws : list (date * list float64)) (idx : list date).

Lemma is_monotonic_increasing_sorted idx :
  is_monotonic_increasing idx = true → StronglySorted Z.le idx.
Proof.
  intros H. apply Sorted_StronglySorted; [intros x y z; lia|].
  induction idx as [|x [|y t] IH]; [constructor|repeat constructor|].
  change (is_monotonic_increasing (x :: y :: t))
    with ((x <=? y) && is_monotonic_increasing (y :: t)) in H.
  apply andb_prop in H as [Hxy Ht].
  constructor; [by apply IH|]. constructor. lia.
Qed.

Lemma sorted_is_monotonic_increasing idx :
  Sorted Z.le idx → is_monotonic_increasing idx = true.
Proof.
  induction 1 as [|x t Hs IH Hhd]; [done|].
  destruct t as [|y t]; [done|].
  change (is_monotonic_increasing (x :: y :: t))
    with ((x <=? y) && is_monotonic_increasing (y :: t)).
  rewrite IH, andb_true_r.
  inversion Hhd; subst. lia.
Qed.

Lemma find_app {A} (p : A → bool) (l1 l2 : list A) :
  List.find p (l1 ++ l2)
  = match List.find p l1 with Some x => Some x | None => List.find p l2 end.
Proof. induction l1 as [|a l1 IH]; [done|]. cbn. by destruct (p a). Qed.

Lemma find_reverse_split {A} (p : A → bool) (l : list A) x :
  List.find p (reverse l) = Some x →
  ∃ pre post, l = pre ++ x :: post ∧ p x = true ∧ Forall (λ y, p y = false) post.
Proof.
  induction l as [|a l IH]; [done|].
  rewrite reverse_cons, find_app.
  destruct (List.find p (reverse l)) as [y|] eqn:Hfind.
  - intros [= ->]. destruct (IH eq_refl) as (pre & post & -> & ? & ?).
    by exists (a :: pre), post.
  - cbn. destruct (p a) eqn:Hpa; [|done]. intros [= ->].
    exists [], l. split_and!; [done..|].
    apply Forall_forall. intros y Hy.
    destruct (p y) eqn:Hpy; [|done].
    assert (In y (reverse l)) as Hin by by apply list_elem_of_In, elem_of_reverse.
    by pose proof (List.find_none p _ Hfind y Hin) as ?; congruence.
Qed.

Lemma last_valid_index_Some (df : DataFrame) D :
  last_valid_index df = Some D →
  ∃ pre row post, rows df = pre ++ (D, row) :: post
    ∧ row_valid (D, row) = true ∧ Forall (λ r, row_valid r = false) post.
Proof.
  unfold last_valid_index. intros H.
  apply fmap_Some in H as ([d row] & Hfind & ->).
  apply find_reverse_split in Hfind as (pre & post & ? & ? & ?).
  by exists pre, row, post.
Qed.

Lemma last_valid_index_None (df : DataFrame) :
  last_valid_index df = None → Forall (λ r, row_valid r = false) (rows df).
Proof.
  unfold last_valid_index. intros H. apply fmap_None in H.
  apply Forall_forall. intros r Hr.
  destruct (row_valid r) eqn:Hv; [|done].
  assert (In r (reverse (rows df))) as Hin by by apply list_elem_of_In, elem_of_reverse.
  by pose proof (List.find_none _ _ H r Hin); congruence.
Qed.

Lemma filter_none {A} (P : A → Prop) `{!∀ x, Decision (P x)} (l : list A) :
  (∀ x, x ∈ l → ¬ P x) → filter P l = [].
Proof.
  induction l as [|a l IH]; intros Hall; [done|].
  rewrite filter_cons_False by (apply Hall; by left).
  apply IH. intros x Hx. apply Hall. by right.
Qed.

(** In an ascending index the run of a label ends the prefix of the dates
    on or before it. *)
Lemma run_of_label_sorted rws D :
  StronglySorted Z.le rws.*1 → Forall (λ d, D ≤ d) rws.*1 →
  existsb (λ d, bool_decide (d = D))
    (drop_while (λ d, bool_decide (d = D)) rws.*1) = false
  ∧ take (length (take_while (λ d, bool_decide (d = D)) rws.*1)) rws
    = filter (λ r, r.1 ≤ D) rws.
Proof.
  induction rws as [|r t IH]; intros Hs Hge; [done|].
  rewrite fmap_cons in *. apply StronglySorted_inv in Hs as [Hs Hhd].
  apply Forall_cons in Hge as [Hr Hge].
  cbn [drop_while take_while]. case_bool_decide as HrD.
  - destruct (IH Hs Hge) as [IH1 IH2]. split; [done|].
    cbn [length take]. rewrite IH2. by rewrite filter_cons_True by (cbn; lia).
  - assert (Forall (λ d, D < d) t.*1) as Hgt.
    { eapply Forall_impl; [exact Hhd|]. intros d ?. cbn in *. lia. }
    split.
    + cbn [existsb]. rewrite bool_decide_eq_false_2 by done. cbn.
      apply not_true_is_false. intros (d & Hd%list_elem_of_In & Hd')%existsb_exists.
      apply bool_decide_eq_true in Hd'. subst d.
      rewrite Forall_forall in Hgt. specialize (Hgt _ Hd). lia.
    + cbn [length take]. rewrite filter_cons_False by (cbn; lia).
      symmetry. apply filter_none. intros x Hx.
      rewrite Forall_forall in Hgt.
      specialize (Hgt x.1 (list_elem_of_fmap_2 fst _ _ Hx)). lia.
Qed.

End slicing_facts.

Section combiner_facts.

Import ClimateDataExtractorWithParallel.

Implicit Types (rws : list (date * list float64)) (idx : list date).
Implicit Types (h f : DataFrame).

Lemma slice_components_sorted rws D :
  StronglySorted Z.le rws.*1 → D ∈ rws.*1 →
  take_while (λ d, bool_decide (d = D))
    (drop_while (λ d, negb (bool_decide (d = D))) rws.*1) ≠ []
  ∧ existsb (λ d, bool_decide (d = D))
      (drop_while (λ d, bool_decide (d = D))
         (drop_while (λ d, negb (bool_decide (d = D))) rws.*1)) = false
  ∧ take (length (take_while (λ d, negb (bool_decide (d = D))) rws.*1)
          + length (take_while (λ d, bool_decide (d = D))
                      (drop_while (λ d, negb (bool_decide (d = D))) rws.*1)))
         rws
    = filter (λ r, r.1 ≤ D) rws.
Proof.
  induction rws as [|r t IH]; intros Hs HD; [by apply elem_of_nil in HD|].
  rewrite fmap_cons in *.
  destruct (decide (r.1 = D)) as [Heq|Hne].
  - cbn [take_while drop_while].
    rewrite (bool_decide_eq_true_2 _ Heq). cbn [negb length Nat.add].
    assert (Forall (λ d, D ≤ d) (r.1 :: t.*1)) as Hge.
    { apply StronglySorted_inv in Hs as [_ Hhd].
      constructor; [lia|]. eapply Forall_impl; [exact Hhd|].
      intros d ?; cbn in *; lia. }
    destruct (run_of_label_sorted (r :: t) D Hs Hge) as [H1 H2].
    rewrite fmap_cons in *. cbn [take_while drop_while] in *.
    rewrite (bool_decide_eq_true_2 _ Heq) in *. done.
  - apply elem_of_cons in HD as [?|HD]; [done|].
    pose proof Hs as Hs'. apply StronglySorted_inv in Hs' as [Hst Hhd].
    destruct (IH Hst HD) as (IH1 & IH2 & IH3).
    cbn [take_while drop_while].
    rewrite (bool_decide_eq_false_2 _ Hne). cbn [negb length Nat.add take].
    split_and!; [done..|].
    rewrite IH3. rewrite filter_cons_True; [done|].
    rewrite Forall_forall in Hhd. specialize (Hhd _ HD). cbn in *; lia.
Qed.

Lemma loc_to_sorted h D :
  is_monotonic_increasing (index h) = true → D ∈ index h →
  loc_to h (Some D)
  = Ok (mkDataFrame (columns h) (filter (λ r, r.1 ≤ D) (rows h))).
Proof.
  intros Hs%is_monotonic_increasing_sorted HD. unfold index in *.
  destruct (slice_components_sorted _ _ Hs HD) as (H1 & H2 & H3).
  unfold loc_to, get_slice_bound_right, index.
  destruct (take_while _ (drop_while _ _)) as [|x run] eqn:Hrun; [done|].
  rewrite H2. unfold mbind, result_bind. by rewrite H3.
Qed.

Lemma last_valid_index_elem h D : last_valid_index h = Some D → D ∈ index h.
Proof.
  intros (pre & row & post & Hrows & _)%last_valid_index_Some.
  unfold index. rewrite Hrows, fmap_app, fmap_cons. set_solver.
Qed.

(** With one valid row the last valid index exists; in an ascending index
    it is the latest date of a valid row. *)
Lemma last_valid_index_latest h :
  is_monotonic_increasing (index h) = true →
  (∃ r, r ∈ rows h ∧ row_valid r = true) →
  ∃ D, last_valid_index h = Some D
    ∧ (∃ r, r ∈ rows h ∧ r.1 = D ∧ row_valid r = true)
    ∧ (∀ r, r ∈ rows h → row_valid r = true → r.1 ≤ D).
Proof.
  intros Hs%is_monotonic_increasing_sorted (r0 & Hr0 & Hv0).
  destruct (last_valid_index h) as [D|] eqn:Hlast.
  - exists D. split; [done|].
    destruct (last_valid_index_Some _ _ Hlast) as (pre & row & post & Hrows & Hv & Hpost).
    split.
    + exists (D, row). rewrite Hrows. set_solver.
    + intros r Hr Hvr. unfold index in Hs. rewrite Hrows in Hr, Hs.
      apply elem_of_app in Hr as [Hr|Hr].
      * rewrite fmap_app, fmap_cons in Hs.
        apply (StronglySorted_app_1_elem_of _ _ _ r.1 D) in Hs;
          [done|by apply list_elem_of_fmap_2|by left].
      * apply elem_of_cons in Hr as [->|Hr]; [done|].
        rewrite Forall_forall in Hpost. specialize (Hpost _ Hr). congruence.
  - apply last_valid_index_None in Hlast.
    rewrite Forall_forall in Hlast. specialize (Hlast _ Hr0). congruence.
Qed.

(** The two files hold the same combiner and the same converter. *)
Lemma combine_dataframes_same h f :
  ClimateDataExtractor._combine_dataframes h f = _combine_dataframes h f.
Proof. reflexivity. Qed.

Lemma convert_units_same (r : ref) (σ : store) :
  ClimateDataExtractor._convert_forecast_to_amber_units r σ
  = _convert_forecast_to_historical_units r σ.
Proof. reflexivity. Qed.

Lemma combine_unfold h f :
  _combine_dataframes h f
  = (h' ← loc_to h (last_valid_index h);
     combined ← concat h' f;
     Ok (getitem_mask combined (negb <$> duplicated (index combined)))).
Proof. done. Qed.

Lemma dedup_concat_same_columns h f :
  columns h = columns f →
  (combined ← concat h f;
   Ok (getitem_mask combined (negb <$> duplicated (index combined))))
  = Ok (mkDataFrame (columns h) (keep_first [] (rows h ++ rows f))).
Proof.
  intros Hc. unfold concat. rewrite decide_True by done. cbn.
  unfold getitem_mask, duplicated, index. cbn.
  by rewrite select_not_duplicated.
Qed.

Lemma find_filter_le rws d D :
  d ≤ D →
  List.find (λ r, bool_decide (r.1 = d)) (filter (λ r, r.1 ≤ D) rws)
  = List.find (λ r, bool_decide (r.1 = d)) rws.
Proof.
  intros Hd. induction rws as [|r t IH]; [done|].
  rewrite filter_cons. case_decide as Hr; cbn.
  - by rewrite IH.
  - rewrite bool_decide_eq_false_2 by lia. done.
Qed.

Lemma find_filter_gt rws d D :
  D < d →
  List.find (λ r, bool_decide (r.1 = d)) (filter (λ r, r.1 ≤ D) rws) = None.
Proof.
  intros Hd. induction rws as [|r t IH]; [done|].
  rewrite filter_cons. case_decide as Hr; cbn; [|done].
  rewrite bool_decide_eq_false_2 by lia. done.
Qed.

Lemma find_date_Some rws d :
  d ∈ rws.*1 → is_Some (List.find (λ r, bool_decide (r.1 = d)) rws).
Proof.
  induction rws as [|r t IH]; [by intros ?%elem_of_nil|].
  rewrite fmap_cons, elem_of_cons. intros Hd. cbn.
  case_bool_decide as Hr; [done|]. apply IH. naive_solver.
Qed.

Lemma StronglySorted_filter_fst (R : relation Z) (P : date * list float64 → Prop)
    `{!∀ x, Decision (P x)} rws :
  StronglySorted R rws.*1 → StronglySorted R (filter P rws).*1.
Proof.
  induction rws as [|r t IH]; [done|].
  rewrite fmap_cons. intros [Ht Hhd]%StronglySorted_inv.
  rewrite filter_cons. case_decide; [|by apply IH].
  rewrite fmap_cons. constructor; [by apply IH|].
  rewrite Forall_forall in *. intros d Hd. apply Hhd.
  apply list_elem_of_fmap in Hd as (x & -> & Hx%list_elem_of_filter).
  apply list_elem_of_fmap_2. tauto.
Qed.

Lemma StronglySorted_lt_NoDup idx : StronglySorted Z.lt idx → NoDup idx.
Proof.
  induction 1 as [|x l Hs IH Hhd]; constructor; [|done].
  intros Hx. rewrite Forall_forall in Hhd. specialize (Hhd _ Hx). lia.
Qed.

End combiner_facts.

(** * The series combiner *)

Section combiner.

Import ClimateDataExtractorWithParallel.

Implicit Types (h f : DataFrame).

(** C3, as stated, fails: at a date where one variable is missing and
    another is not, the code's last valid index is later than the latest
    fully valid date, and the rows kept differ. *)
Lemma last_valid_index_any_variable :
  ¬ (∀ h, rows h ≠ [] →
       last_valid_index h = spec_last_valid_index h
       ∧ ∀ D, spec_last_valid_index h = Some D →
              loc_to h (last_valid_index h)
              = Ok (mkDataFrame (columns h) (filter (λ r, r.1 ≤ D) (rows h)))).
Proof.
  intros H.
  destruct (H (mkDataFrame ["tas"; "pr"]
                 [(1, [5%float; 1%float]); (2, [PrimFloat.nan; 2%float])]))
    as [Heq _]; [done|].
  vm_compute in Heq. discriminate.
Qed.

(** C3, amended: for a historical series in ascending date order with at
    least one row holding a non-missing value, the last valid index is the
    latest date at which at least one variable is not missing; the
    historical series is cut to exactly the rows dated on or before it,
    and that truncated series is what the combiner concatenates with the
    forecast series and de-duplicates. *)
Theorem combine_truncates_at_last_valid h f :
  is_monotonic_increasing (index h) = true →
  (∃ r, r ∈ rows h ∧ row_valid r = true) →
  ∃ D, last_valid_index h = Some D
    ∧ (∃ r, r ∈ rows h ∧ r.1 = D ∧ row_valid r = true)
    ∧ (∀ r, r ∈ rows h → row_valid r = true → r.1 ≤ D)
    ∧ loc_to h (last_valid_index h)
      = Ok (mkDataFrame (columns h) (filter (λ r, r.1 ≤ D) (rows h)))
    ∧ _combine_dataframes h f
      = (combined ← concat (mkDataFrame (columns h)
                              (filter (λ r, r.1 ≤ D) (rows h))) f;
         Ok (getitem_mask combined (negb <$> duplicated (index combined)))).
Proof.
  intros Hs Hv.
  destruct (last_valid_index_latest h Hs Hv) as (D & Hlast & Hex & Hmax).
  exists D. split_and!; [done..| |].
  - rewrite Hlast. apply loc_to_sorted; [done|].
    by apply last_valid_index_elem.
  - rewrite combine_unfold, Hlast, loc_to_sorted;
      [done|done|by apply last_valid_index_elem].
Qed.

Lemma combine_truncates_at_last_valid_witness :
  let h := frame1 [(1, 5%float); (2, 6%float); (3, PrimFloat.nan)] in
  let f := frame1 [(2, 7%float); (3, 8%float)] in
  is_monotonic_increasing (index h) = true
  ∧ (∃ r, r ∈ rows h ∧ row_valid r = true)
  ∧ ∃ D, last_valid_index h = Some D
    ∧ (∃ r, r ∈ rows h ∧ r.1 = D ∧ row_valid r = true)
    ∧ (∀ r, r ∈ rows h → row_valid r = true → r.1 ≤ D)
    ∧ loc_to h (last_valid_index h)
      = Ok (mkDataFrame (columns h) (filter (λ r, r.1 ≤ D) (rows h)))
    ∧ _combine_dataframes h f
      = (combined ← concat (mkDataFrame (columns h)
                              (filter (λ r, r.1 ≤ D) (rows h))) f;
         Ok (getitem_mask combined (negb <$> duplicated (index combined)))).
Proof.
  intros h f.
  assert (is_monotonic_increasing (index h) = true) as H1 by reflexivity.
  assert (∃ r, r ∈ rows h ∧ row_valid r = true) as H2.
  { exists (2, [6%float]). split; [|reflexivity].
    apply list_elem_of_In. vm_compute. tauto. }
  split; [exact H1|]. split; [exact H2|].
  exact (combine_truncates_at_last_valid h f H1 H2).
Defined.

(** C2, as stated, fails: nothing sorts the concatenation, so a forecast
    date that the historical series lacks lands after later historical
    dates. *)
Lemma combine_index_not_increasing :
  ¬ (∀ h f r, _combine_dataframes h f = Ok r →
       Sorted Z.lt (index r) ∧ NoDup (index r)
       ∧ ∀ d, d ∈ index h → d ∈ index f → row_at r d = row_at h d).
Proof.
  intros H.
  destruct (H (frame1 [(1, 1%float); (5, 5%float)])
              (frame1 [(3, 3%float); (6, 6%float)])
              (frame1 [(1, 1%float); (5, 5%float); (3, 3%float); (6, 6%float)]))
    as [Hs _]; [reflexivity|].
  change (index _) with [1; 5; 3; 6] in Hs.
  apply Sorted_inv in Hs as [Hs _].
  apply Sorted_inv in Hs as [_ Hhd].
  apply HdRel_inv in Hhd. lia.
Qed.

(** X1: whatever the inputs, a series the combiner returns has no duplicate
    date. *)
Lemma combine_index_NoDup h f r :
  _combine_dataframes h f = Ok r → NoDup (index r).
Proof.
  rewrite combine_unfold.
  intros (h' & _ & (c & _ & [= <-])%bind_result_Ok)%bind_result_Ok.
  unfold index, getitem_mask, duplicated. cbn [rows].
  rewrite select_not_duplicated. apply keep_first_NoDup.
Qed.

(** In an index that is not ascending the cut is by position: a later date
    standing before the last valid row is kept. *)
Example loc_to_by_position :
  let h := frame1 [(3, 1%float); (1, 2%float); (2, PrimFloat.nan)] in
  last_valid_index h = Some 1
  ∧ loc_to h (Some 1) = Ok (frame1 [(3, 1%float); (1, 2%float)]).
Proof. split; reflexivity. Qed.

(** A last valid date that also occurs apart from its run makes the slice,
    and with it the combiner, raise. *)
Example loc_to_scattered_label :
  let h := frame1 [(1, 1%float); (2, 2%float); (1, 3%float)] in
  last_valid_index h = Some 1
  ∧ _combine_dataframes h h = Raise KeyError.
Proof. split; reflexivity. Qed.

(** On a date that both inputs carry but that lies after the last valid
    index, the forecast row is the one retained. *)
Example forecast_fills_missing_tail :
  _combine_dataframes (frame1 [(1, 5%float); (2, PrimFloat.nan)])
                      (frame1 [(1, 7%float); (2, 8%float)])
  = Ok (frame1 [(1, 5%float); (2, 8%float)]).
Proof. reflexivity. Qed.

(** C2, amended: for a historical series in ascending date order with a
    last valid index [D], and a forecast series over the same variables,
    the combiner returns a series without duplicate dates in which every
    historical date on or before [D] keeps its historical row and every
    date after [D] has the row of the forecast series; the date index is
    strictly increasing when both inputs are and every forecast date on or
    before [D] is also a historical date. *)
Theorem combine_no_duplicates_historical_first h f D :
  columns h = columns f →
  is_monotonic_increasing (index h) = true →
  last_valid_index h = Some D →
  ∃ r, _combine_dataframes h f = Ok r
    ∧ NoDup (index r)
    ∧ (∀ d, d ∈ index h → d ≤ D → row_at r d = row_at h d)
    ∧ (∀ d, D < d → row_at r d = row_at f d)
    ∧ (Sorted Z.lt (index h) → Sorted Z.lt (index f) →
       (∀ d, d ∈ index f → d ≤ D → d ∈ index h) →
       Sorted Z.lt (index r)).
Proof.
  intros Hc Hs Hlast.
  rewrite combine_unfold, Hlast, loc_to_sorted
    by (done || by apply last_valid_index_elem).
  cbn [mbind result_bind].
  rewrite dedup_concat_same_columns by done. cbn [columns rows].
  eexists. split; [done|]. unfold index, row_at. cbn [rows].
  set (hf := filter (λ r, r.1 ≤ D) (rows h)).
  split_and!.
  - apply keep_first_NoDup.
  - intros d Hd HdD.
    rewrite keep_first_find by apply not_elem_of_nil.
    rewrite find_app. unfold hf. rewrite find_filter_le by done.
    by destruct (find_date_Some _ _ Hd) as [x ->].
  - intros d HdD.
    rewrite keep_first_find by apply not_elem_of_nil.
    rewrite find_app. unfold hf. by rewrite find_filter_gt.
  - intros Hh Hf Hcover.
    apply Sorted_StronglySorted in Hh; [|intros ???; lia].
    apply Sorted_StronglySorted in Hf; [|intros ???; lia].
    apply StronglySorted_Sorted.
    assert (StronglySorted Z.lt hf.*1) as Hhf
      by by apply StronglySorted_filter_fst.
    rewrite keep_first_app, app_nil_r.
    rewrite keep_first_id;
      [|by apply StronglySorted_lt_NoDup|intros; apply not_elem_of_nil].
    rewrite keep_first_filter by by apply StronglySorted_lt_NoDup.
    rewrite fmap_app. apply StronglySorted_app_2.
    + intros d1 d2 Hd1 Hd2.
      apply list_elem_of_fmap in Hd1 as (r1 & -> & Hr1).
      apply list_elem_of_fmap in Hd2 as (r2 & -> & Hr2).
      apply list_elem_of_filter in Hr1 as [Hr1 Hr1'].
      apply list_elem_of_filter in Hr2 as [Hr2 Hr2'].
      destruct (decide (r2.1 ≤ D)) as [Hle|]; [|lia].
      exfalso. apply Hr2. apply list_elem_of_fmap.
      specialize (Hcover r2.1 (list_elem_of_fmap_2 fst _ _ Hr2') Hle).
      apply list_elem_of_fmap in Hcover as (r3 & Heq & Hr3).
      exists r3. split; [done|]. apply list_elem_of_filter. split; [|done].
      cbn. lia.
    + done.
    + by apply StronglySorted_filter_fst.
Qed.

Lemma combine_no_duplicates_historical_first_witness :
  let h := frame1 [(1, 5%float); (2, 6%float); (3, PrimFloat.nan)] in
  let f := frame1 [(2, 7%float); (3, 8%float); (4, 9%float)] in
  columns h = columns f
  ∧ is_monotonic_increasing (index h) = true
  ∧ last_valid_index h = Some 2
  ∧ ∃ r, _combine_dataframes h f = Ok r
    ∧ NoDup (index r)
    ∧ (∀ d, d ∈ index h → d ≤ 2 → row_at r d = row_at h d)
    ∧ (∀ d, 2 < d → row_at r d = row_at f d)
    ∧ (Sorted Z.lt (index h) → Sorted Z.lt (index f) →
       (∀ d, d ∈ index f → d ≤ 2 → d ∈ index h) →
       Sorted Z.lt (index r)).
Proof.
  intros h f.
  split; [reflexivity|]. split; [reflexivity|]. split; [reflexivity|].
  apply (combine_no_duplicates_historical_first h f 2); reflexivity.
Defined.

(** A historical series without any valid row is kept whole: its rows come
    first and shadow the forecast rows of the same dates. *)
Lemma combine_all_missing h f :
  columns h = columns f →
  Forall (λ r, row_valid r = false) (rows h) →
  _combine_dataframes h f
  = Ok (mkDataFrame (columns h) (keep_first [] (rows h ++ rows f))).
Proof.
  intros Hc Hall. rewrite combine_unfold.
  assert (last_valid_index h = None) as ->.
  { unfold last_valid_index.
    destruct (List.find row_valid (reverse (rows h))) as [r|] eqn:Hfind; [|done].
    apply List.find_some in Hfind as [Hin%list_elem_of_In Hv].
    rewrite elem_of_reverse in Hin. rewrite Forall_forall in Hall. specialize (Hall _ Hin). congruence. }
  cbn [loc_to mbind result_bind].
  by rewrite dedup_concat_same_columns.
Qed.

(** C4 on the code: an all-missing historical series combined with a
    forecast series over the same dates gives back the all-missing
    historical series, not the forecast series. *)
Theorem combine_all_missing_keeps_historical :
  let h := frame1 [(1, PrimFloat.nan); (2, PrimFloat.nan)] in
  let f := frame1 [(1, 5%float); (2, 7%float)] in
  Forall (λ r, row_valid r = false) (rows h)
  ∧ _combine_dataframes h f = Ok h
  ∧ _combine_dataframes h f ≠ Ok f.
Proof.
  intros h f. split; [by repeat constructor|].
  assert (_combine_dataframes h f = Ok h) as -> by reflexivity.
  split; [done|]. vm_compute. intros [=].
Qed.

End combiner.


(** * The store and the unit converter *)

Section converter_facts.

Import ClimateDataExtractorWithParallel.

Implicit Types (σ : store) (df : DataFrame).

Lemma bind_M_Ok {A B} (m : M A) (k : A → M B) σ b σ' :
  (m ≫= k) σ = Ok (b, σ') ↔ ∃ a σ1, m σ = Ok (a, σ1) ∧ k a σ1 = Ok (b, σ').
Proof.
  unfold mbind, M_bind. destruct (m σ) as [[a σ1]|e]; split.
  - intros H. by exists a, σ1.
  - by intros (a' & σ2 & [= -> ->] & H).
  - done.
  - by intros (a' & σ2 & [=] & _).
Qed.

Lemma setitem_op_Ok σ (r : ref) labels op df df' :
  σ !! r = Some df → update_columns labels op df = Ok df' →
  setitem_op r labels op σ = Ok (tt, <[r:=df']> σ).
Proof.
  intros Hr Hu. unfold setitem_op, mbind, M_bind, get, lift, put.
  by rewrite Hr, Hu.
Qed.

Lemma update_columns_Ok labels op df :
  (∀ c, c ∈ labels → c ∈ columns df) →
  update_columns labels op df
  = Ok (mkDataFrame (columns df)
          ((λ r, (r.1, zip_with (λ c v, if bool_decide (c ∈ labels) then op v else v)
                         (columns df) r.2)) <$> rows df)).
Proof.
  intros H. unfold update_columns.
  rewrite (proj2 (forallb_forall _ _)); [done|].
  intros c Hc%list_elem_of_In. apply bool_decide_eq_true. by apply H.
Qed.

Lemma position_lookup c cols j : position c cols = Some j → cols !! j = Some c.
Proof.
  unfold position. intros ([j' c'] & Hfind & ->)%fmap_Some.
  apply list_find_Some in Hfind as (? & -> & _). done.
Qed.

Lemma cell_update_columns labels op df df' i c :
  update_columns labels op df = Ok df' →
  cell df' i c
  = (λ v, if bool_decide (c ∈ labels) then op v else v) <$> cell df i c.
Proof.
  unfold update_columns. destruct (forallb _ _); [|done]. intros [= <-].
  unfold cell. cbn [rows columns]. rewrite list_lookup_fmap.
  destruct (rows df !! i) as [[d row]|]; [|done]. cbn.
  destruct (position c (columns df)) as [j|] eqn:Hpos; [|done]. cbn.
  rewrite lookup_zip_with, (position_lookup _ _ _ Hpos). cbn.
  by destruct (row !! j).
Qed.

(** The converter writes into the object it is given and returns it. *)
Lemma convert_in_place σ (r : ref) df :
  σ !! r = Some df →
  (∀ c, c ∈ ["tas"; "tasmax"; "tasmin"; "rsds"] → c ∈ columns df) →
  ∃ df', _convert_forecast_to_historical_units r σ = Ok (r, <[r:=df']> σ)
    ∧ columns df' = columns df
    ∧ index df' = index df
    ∧ ∀ i c, cell df' i c = spec_convert c <$> cell df i c.
Proof.
  intros Hr Hcols.
  pose proof (update_columns_Ok ["tas"; "tasmax"; "tasmin"]
                (λ v, PrimFloat.sub v 273.15%float) df) as H1.
  set (df1 := mkDataFrame _ _) in H1.
  pose proof (update_columns_Ok ["rsds"] (λ v, PrimFloat.mul v 24%float) df1) as H2.
  set (df2 := mkDataFrame _ _) in H2.
  exists df2. split_and!.
  - unfold _convert_forecast_to_historical_units.
    unfold mbind at 1. unfold M_bind.
    rewrite (setitem_op_Ok σ r _ _ df df1 Hr); [|apply H1; set_solver].
    unfold mbind at 1. unfold M_bind.
    rewrite (setitem_op_Ok _ r _ _ df1 df2).
    + unfold mret, M_ret. by rewrite list_insert_insert_eq.
    + apply list_lookup_insert_eq. by eapply lookup_lt_Some.
    + apply H2. cbn. set_solver.
  - done.
  - unfold index. cbn. rewrite <- !list_fmap_compose. done.
  - intros i c.
    rewrite (cell_update_columns _ _ df1 df2) by (apply H2; cbn; set_solver).
    rewrite (cell_update_columns _ _ df df1) by (apply H1; set_solver).
    rewrite <- option_fmap_compose. apply option_fmap_ext. intros v. cbn.
    unfold spec_convert.
    destruct (decide (c ∈ ["tas"; "tasmax"; "tasmin"])) as [Hin|Hin].
    + rewrite !(bool_decide_eq_true_2 _ Hin).
      rewrite bool_decide_eq_false_2; [done|].
      rewrite list_elem_of_singleton. intros ->.
      repeat (apply elem_of_cons in Hin as [?|Hin]; [done|]).
      by apply elem_of_nil in Hin.
    + rewrite !(bool_decide_eq_false_2 _ Hin).
      by rewrite (bool_decide_ext (c ∈ ["rsds"]) (c = "rsds"))
        by apply list_elem_of_singleton.
Qed.

End converter_facts.


Section converter_properties.

Import ClimateDataExtractorWithParallel.

Implicit Types (σ : store) (df : DataFrame).

(** C5: on a forecast frame that carries the four converted variables the
    converter succeeds, subtracts 273.15 from every cell of tas, tasmax
    and tasmin, multiplies every cell of rsds by 24, and leaves the cells of
    every other variable, the labels and the dates as they were. *)
Theorem convert_units_table σ (r : ref) df :
  σ !! r = Some df →
  (∀ c, c ∈ ["tas"; "tasmax"; "tasmin"; "rsds"] → c ∈ columns df) →
  ∃ df', _convert_forecast_to_historical_units r σ = Ok (r, <[r:=df']> σ)
    ∧ columns df' = columns df
    ∧ index df' = index df
    ∧ (∀ i c, c ∈ ["tas"; "tasmax"; "tasmin"] →
         cell df' i c = (λ v, PrimFloat.sub v 273.15%float) <$> cell df i c)
    ∧ (∀ i, cell df' i "rsds"
            = (λ v, PrimFloat.mul v 24%float) <$> cell df i "rsds")
    ∧ (∀ i c, c ∉ ["tas"; "tasmax"; "tasmin"; "rsds"] →
         cell df' i c = cell df i c).
Proof.
  intros Hr Hcols.
  destruct (convert_in_place σ r df Hr Hcols) as (df' & Hrun & Hc & Hi & Hcell).
  exists df'. split_and!; [done..| | |].
  - intros i c Hin. rewrite Hcell. apply option_fmap_ext. intros v.
    unfold spec_convert. by rewrite bool_decide_eq_true_2.
  - intros i. rewrite Hcell. by apply option_fmap_ext.
  - intros i c Hnin. rewrite Hcell.
    rewrite <- (option_fmap_id (cell df i c)) at 2.
    apply option_fmap_ext. intros v. unfold spec_convert.
    rewrite !bool_decide_eq_false_2; [done|set_solver..].
Qed.

Lemma convert_units_table_witness :
  let σ := [forecast_frame] in
  σ !! 0%nat = Some forecast_frame
  ∧ (∀ c, c ∈ ["tas"; "tasmax"; "tasmin"; "rsds"] → c ∈ columns forecast_frame)
  ∧ ∃ df', _convert_forecast_to_historical_units 0%nat σ
           = Ok (0%nat, <[0%nat:=df']> σ)
    ∧ columns df' = columns forecast_frame
    ∧ index df' = index forecast_frame
    ∧ (∀ i c, c ∈ ["tas"; "tasmax"; "tasmin"] →
         cell df' i c
         = (λ v, PrimFloat.sub v 273.15%float) <$> cell forecast_frame i c)
    ∧ (∀ i, cell df' i "rsds"
            = (λ v, PrimFloat.mul v 24%float) <$> cell forecast_frame i "rsds")
    ∧ (∀ i c, c ∉ ["tas"; "tasmax"; "tasmin"; "rsds"] →
         cell df' i c = cell forecast_frame i c).
Proof.
  intros σ.
  assert (∀ c, c ∈ ["tas"; "tasmax"; "tasmin"; "rsds"]
               → c ∈ columns forecast_frame) as Hcols.
  { intros c Hc. apply list_elem_of_In. apply list_elem_of_In in Hc.
    simpl in *. tauto. }
  split; [reflexivity|]. split; [exact Hcols|].
  exact (convert_units_table σ 0%nat forecast_frame eq_refl Hcols).
Defined.

Example convert_forecast_frame :
  _convert_forecast_to_historical_units 0%nat [forecast_frame]
  = Ok (0%nat, [converted_frame]).
Proof. reflexivity. Qed.

(** Converting a copy leaves the original object as it was. *)
Lemma convert_copy_preserves σ (r : ref) df :
  σ !! r = Some df →
  (∀ c, c ∈ ["tas"; "tasmax"; "tasmin"; "rsds"] → c ∈ columns df) →
  ∃ df', (copy r ≫= _convert_forecast_to_historical_units) σ
         = Ok (length σ, σ ++ [df'])
    ∧ (σ ++ [df']) !! r = Some df.
Proof.
  intros Hr Hcols.
  assert ((σ ++ [df]) !! length σ = Some df) as Hnew
    by (by rewrite lookup_app_r, Nat.sub_diag by lia).
  destruct (convert_in_place (σ ++ [df]) (length σ) df Hnew Hcols)
    as (df' & Hrun & _).
  exists df'. split.
  - unfold mbind at 1. unfold M_bind, copy.
    unfold mbind at 1. unfold M_bind, get, new. rewrite Hr, Hrun.
    by rewrite insert_app_r_alt, Nat.sub_diag by lia.
  - rewrite lookup_app_l; [done|]. by eapply lookup_lt_Some.
Qed.

(** C6 on the code.  In the batch path the object that the extraction
    returned holds the converted values once the point is processed: the
    untransformed values are gone.  The sequential path, which converts
    [forecast_df.copy()], keeps them. *)
Theorem batch_path_converts_in_place :
  let env := example_env ["f.nc"] forecast_frame [[true]] in
  let hds := dataset_of historical_frame in
  let fds := dataset_of forecast_frame in
  (∃ d σ', process_point env hds fds all_variables 54 9 ∅ [] = Ok (d, σ')
     ∧ σ' !! 1%nat = Some converted_frame
     ∧ converted_frame ≠ forecast_frame)
  ∧ (∃ d σ', extract_point env hds fds all_variables 0 0 ∅ [] = Ok (d, σ')
     ∧ σ' !! 1%nat = Some forecast_frame).
Proof.
  intros env hds fds. split.
  - eexists _, _. split; [reflexivity|]. split; [reflexivity|].
    intros [=].
  - eexists _, _. split; reflexivity.
Qed.

End converter_properties.


(** * Programs over the store *)

Section store_facts.

Implicit Types (σ : store) (df : DataFrame) (d : gmap string nat).

Lemma lift_Ok {A} (m : result A) σ a σ' :
  lift m σ = Ok (a, σ') ↔ m = Ok a ∧ σ' = σ.
Proof. unfold lift. destruct m; naive_solver. Qed.

Lemma new_Ok df σ (r : ref) σ' :
  new df σ = Ok (r, σ') ↔ r = length σ ∧ σ' = σ ++ [df].
Proof. unfold new. naive_solver. Qed.

Lemma get_Ok (r : ref) σ df σ' :
  get r σ = Ok (df, σ') ↔ σ !! r = Some df ∧ σ' = σ.
Proof. unfold get. destruct (σ !! r); naive_solver. Qed.

Lemma put_Ok (r : ref) df σ u σ' :
  put r df σ = Ok (u, σ') ↔ σ' = <[r:=df]> σ.
Proof. unfold put. destruct u. naive_solver. Qed.

Lemma mret_Ok {A} (a b : A) σ σ' :
  (mret a : M A) σ = Ok (b, σ') ↔ b = a ∧ σ' = σ.
Proof. unfold mret, M_ret. naive_solver. Qed.

Lemma copy_Ok (r r' : ref) σ σ' :
  copy r σ = Ok (r', σ') → r' = length σ ∧ length σ' = S (length σ).
Proof.
  unfold copy. intros (df & σ1 & [_ ->]%get_Ok & [-> ->]%new_Ok)%bind_M_Ok.
  rewrite length_app. cbn. lia.
Qed.

Lemma setitem_op_length (r : ref) labels op σ u σ' :
  setitem_op r labels op σ = Ok (u, σ') → length σ' = length σ.
Proof.
  unfold setitem_op.
  intros (df & σ1 & [_ ->]%get_Ok & (df' & σ2 & [_ ->]%lift_Ok & ->%put_Ok)%bind_M_Ok)%bind_M_Ok.
  by rewrite length_insert.
Qed.

Lemma refs_below_empty n : refs_below n ∅.
Proof. apply map_Forall_empty. Qed.

Lemma refs_below_insert n d k (r : ref) :
  refs_below n d → (r < n)%nat → refs_below n (<[k:=r]> d).
Proof. intros. by apply map_Forall_insert_2. Qed.

Lemma refs_below_mono n n' d : refs_below n d → (n ≤ n')%nat → refs_below n' d.
Proof. intros H ?. eapply map_Forall_impl; [exact H|]. cbn. intros; lia. Qed.

Lemma dom_contents σ d : refs_below (length σ) d → dom (contents σ d) = dom d.
Proof.
  intros Hv. apply set_eq. intros k. unfold contents.
  rewrite !elem_of_dom, lookup_omap.
  destruct (d !! k) as [r|] eqn:Hk; cbn.
  - specialize (Hv k r Hk). cbn in Hv.
    destruct (lookup_lt_is_Some_2 σ r Hv) as [df ->].
    split; eauto.
  - split; intros [? [=]].
Qed.

Lemma size_contents σ d : (size (contents σ d) ≤ size d)%nat.
Proof.
  rewrite <- !size_dom. apply subseteq_size. apply dom_omap_subseteq.
Qed.

End store_facts.

(** * The worker: [_process_point_batch] *)

Section worker_facts.

Import ClimateDataExtractorWithParallel.

Context (env : Env).

Implicit Types (σ : store) (d : gmap string nat).
Implicit Types (points : list (float * float)).

Lemma cap_reached_zero count : cap_reached (Some 0) count = cap_reached None count.
Proof. done. Qed.

Lemma cap_reached_pos m count :
  0 < m → cap_reached (Some m) count = bool_decide (Z.to_nat m ≤ count)%nat.
Proof.
  intros Hm. unfold cap_reached.
  rewrite bool_decide_eq_true_2 by lia. cbn.
  apply eq_true_iff_eq. rewrite Z.leb_le, bool_decide_eq_true. lia.
Qed.

Lemma convert_Ok_length (r r' : ref) σ σ' :
  _convert_forecast_to_historical_units r σ = Ok (r', σ') →
  r' = r ∧ length σ' = length σ.
Proof.
  unfold _convert_forecast_to_historical_units.
  intros (? & σ1 & H1%setitem_op_length
          & (? & σ2 & H2%setitem_op_length & [-> ->]%mret_Ok)%bind_M_Ok)%bind_M_Ok.
  split; [done|congruence].
Qed.

Lemma extract_point_data_Ok ds lat lon variables (r : ref) σ σ' :
  _extract_point_data ds lat lon variables σ = Ok (r, σ') →
  r = length σ ∧ length σ' = S (length σ).
Proof.
  unfold _extract_point_data.
  intros (df & σ1 & [_ ->]%lift_Ok & [-> ->]%new_Ok)%bind_M_Ok.
  rewrite length_app. cbn. lia.
Qed.

(** One processed point adds its key, bound to a new object. *)
Lemma process_point_Ok hds fds variables lat lon d σ d' σ' :
  process_point env hds fds variables lat lon d σ = Ok (d', σ') →
  ∃ c : ref, d' = <[point_key env lat lon := c]> d
    ∧ (c < length σ')%nat ∧ (length σ ≤ length σ')%nat.
Proof.
  unfold process_point.
  intros (h & σ1 & [_ H1]%extract_point_data_Ok & H)%bind_M_Ok.
  apply bind_M_Ok in H as (f & σ2 & [_ H2]%extract_point_data_Ok & H).
  apply bind_M_Ok in H as (f' & σ3 & [_ H3]%convert_Ok_length & H).
  apply bind_M_Ok in H as (hv & σ4 & [_ ->]%get_Ok & H).
  apply bind_M_Ok in H as (fv & σ5 & [_ ->]%get_Ok & H).
  apply bind_M_Ok in H as (cv & σ6 & [_ ->]%lift_Ok & H).
  apply bind_M_Ok in H as (c & σ7 & [-> ->]%new_Ok & [-> ->]%mret_Ok).
  exists (length σ3). rewrite length_app. cbn. split; [done|]. lia.
Qed.

Lemma batch_loop_zero_cap hds fds variables points i d σ :
  batch_loop env hds fds variables (Some 0) points i d σ
  = batch_loop env hds fds variables None points i d σ.
Proof.
  revert i d σ. induction points as [|[lat lon] rest IH]; intros i d σ; [done|].
  cbn [batch_loop]. rewrite cap_reached_zero. cbn [cap_reached].
  unfold mbind, M_bind.
  destruct (process_point _ _ _ _ _ _ _ _) as [[d1 σ1]|]; [apply IH|done].
Qed.

(** With a positive budget the worker does what it would do, uncapped, on
    the points below the budget. *)
Lemma batch_loop_budget hds fds variables m points i d σ :
  0 < m →
  batch_loop env hds fds variables (Some m) points i d σ
  = batch_loop env hds fds variables None (take (Z.to_nat m - i) points) i d σ.
Proof.
  intros Hm. revert i d σ.
  induction points as [|[lat lon] rest IH]; intros i d σ.
  - by rewrite take_nil.
  - cbn [batch_loop]. rewrite cap_reached_pos by done.
    case_bool_decide as Hi.
    + by replace (Z.to_nat m - i)%nat with 0%nat by lia.
    + replace (Z.to_nat m - i)%nat with (S (Z.to_nat m - S i)) by lia.
      cbn [take batch_loop cap_reached]. unfold mbind, M_bind.
      destruct (process_point _ _ _ _ _ _ _ _) as [[d1 σ1]|]; [apply IH|done].
Qed.

Lemma batch_loop_None_Ok hds fds variables points i d σ d' σ' :
  batch_loop env hds fds variables None points i d σ = Ok (d', σ') →
  refs_below (length σ) d →
  dom d' = dom d ∪ list_to_set ((λ p, point_key env p.1 p.2) <$> points)
  ∧ refs_below (length σ') d'
  ∧ (length σ ≤ length σ')%nat.
Proof.
  revert i d σ. induction points as [|[lat lon] rest IH]; intros i d σ.
  - intros [-> ->]%mret_Ok Hv. split_and!; [set_solver|done|done].
  - cbn [batch_loop cap_reached].
    intros (d1 & σ1 & (c & -> & Hc & Hlen)%process_point_Ok & Hrest)%bind_M_Ok Hv.
    apply IH in Hrest as (Hdom & Hv' & Hlen').
    + split_and!; [|done|lia].
      rewrite Hdom, dom_insert_L, fmap_cons. cbn. set_solver.
    + apply refs_below_insert; [|done]. by eapply refs_below_mono.
Qed.

(** The keys a worker sends back: those of the points within its budget. *)
Lemma submit_dom hds fds variables lats lons max_points r :
  (∀ m, max_points = Some m → 0 ≤ m) →
  submit env hds fds variables lats lons max_points = Ok r →
  dom r = list_to_set ((λ p, point_key env p.1 p.2)
                         <$> within_budget max_points (zip lats lons)).
Proof.
  intros Hm. unfold submit, _process_point_batch.
  destruct (batch_loop _ _ _ _ _ _ _ _ _) as [[d σ]|] eqn:Hloop; [|done].
  cbn. intros [= <-].
  assert (batch_loop env hds fds variables None
            (within_budget max_points (zip lats lons)) 0 ∅ [] = Ok (d, σ)) as Hnone.
  { destruct max_points as [m|]; [|done]. unfold within_budget.
    case_decide as Hz.
    - subst m. by rewrite <- batch_loop_zero_cap.
    - specialize (Hm m eq_refl).
      rewrite batch_loop_budget in Hloop by lia.
      by rewrite Nat.sub_0_r in Hloop. }
  apply batch_loop_None_Ok in Hnone as (Hdom & Hv & _); [|apply refs_below_empty].
  rewrite dom_contents by done. rewrite Hdom. set_solver.
Qed.

End worker_facts.


(** * Index arrays, slices and chunks *)

Section slices_facts.

Lemma mapM_result_length {A B} (f : A → result B) l ys :
  mapM_result f l = Ok ys → length ys = length l.
Proof.
  revert ys. induction l as [|x t IH]; intros ys; cbn.
  - by intros [= <-].
  - destruct (f x) as [y|]; [|done]. cbn.
    destruct (mapM_result f t) as [yt|]; [|done]. cbn.
    intros [= <-]. cbn. f_equal. by apply IH.
Qed.

Lemma mapM_result_fmap {A B C} (f : A → result B) (g : B → C) l :
  mapM_result (λ x, result_fmap _ _ g (f x)) l
  = result_fmap _ _ (fmap g) (mapM_result f l).
Proof.
  induction l as [|x t IH]; [done|]. cbn. rewrite IH.
  destruct (f x) as [y|]; [|done]. cbn.
  by destruct (mapM_result f t).
Qed.

Lemma mapM_result_app {A B} (f : A → result B) l1 l2 :
  mapM_result f (l1 ++ l2)
  = (y1 ← mapM_result f l1; y2 ← mapM_result f l2; Ok (y1 ++ y2)).
Proof.
  induction l1 as [|x t IH]; cbn.
  - by destruct (mapM_result f l2).
  - destruct (f x) as [y|]; [|done]. cbn. rewrite IH.
    destruct (mapM_result f t) as [yt|]; [|done]. cbn.
    by destruct (mapM_result f l2).
Qed.

Lemma mapM_result_app_Ok {A B} (f : A → result B) l1 l2 ys :
  mapM_result f (l1 ++ l2) = Ok ys →
  mapM_result f l1 = Ok (take (length l1) ys)
  ∧ mapM_result f l2 = Ok (drop (length l1) ys).
Proof.
  rewrite mapM_result_app.
  destruct (mapM_result f l1) as [y1|] eqn:H1; [|done]. cbn.
  destruct (mapM_result f l2) as [y2|] eqn:H2; [|done]. cbn.
  intros [= <-]. apply mapM_result_length in H1.
  rewrite take_app_length', drop_app_length' by done. done.
Qed.

Lemma mapM_result_take {A B} (f : A → result B) l ys n :
  mapM_result f l = Ok ys → mapM_result f (take n l) = Ok (take n ys).
Proof.
  intros H. pose proof (mapM_result_length _ _ _ H) as Hlen.
  rewrite <- (take_drop n l) in H.
  apply mapM_result_app_Ok in H as [H _]. rewrite H.
  rewrite length_take. f_equal.
  destruct (decide (n ≤ length l)%nat).
  - by rewrite Nat.min_l.
  - rewrite Nat.min_r by lia. rewrite !take_ge; [done|lia..].
Qed.

Lemma mapM_result_drop {A B} (f : A → result B) l ys n :
  mapM_result f l = Ok ys → mapM_result f (drop n l) = Ok (drop n ys).
Proof.
  intros H. pose proof (mapM_result_length _ _ _ H) as Hlen.
  rewrite <- (take_drop n l) in H.
  apply mapM_result_app_Ok in H as [_ H]. rewrite H.
  rewrite length_take. f_equal.
  destruct (decide (n ≤ length l)%nat).
  - by rewrite Nat.min_l.
  - rewrite Nat.min_r by lia. rewrite !drop_ge; [done|lia..].
Qed.

Lemma lat_grid_at_grid_point lats lons ij :
  lat_grid_at lats lons ij.1 ij.2 = result_fmap _ _ fst (grid_point lats lons ij).
Proof.
  unfold grid_point, lat_grid_at, lon_grid_at.
  by destruct (lats !! ij.1), (lons !! ij.2).
Qed.

Lemma lon_grid_at_grid_point lats lons ij :
  lon_grid_at lats lons ij.1 ij.2 = result_fmap _ _ snd (grid_point lats lons ij).
Proof.
  unfold grid_point, lat_grid_at, lon_grid_at.
  by destruct (lats !! ij.1), (lons !! ij.2).
Qed.

Lemma fancy_index_lat lats lons rws cls :
  fancy_index (lat_grid_at lats lons) rws cls
  = result_fmap _ _ (fmap fst) (mapM_result (grid_point lats lons) (zip rws cls)).
Proof.
  unfold fancy_index. rewrite <- mapM_result_fmap.
  induction (zip rws cls) as [|ij t IH]; [done|].
  cbn [mapM_result]. by rewrite IH, lat_grid_at_grid_point.
Qed.

Lemma fancy_index_lon lats lons rws cls :
  fancy_index (lon_grid_at lats lons) rws cls
  = result_fmap _ _ (fmap snd) (mapM_result (grid_point lats lons) (zip rws cls)).
Proof.
  unfold fancy_index. rewrite <- mapM_result_fmap.
  induction (zip rws cls) as [|ij t IH]; [done|].
  cbn [mapM_result]. by rewrite IH, lon_grid_at_grid_point.
Qed.

Lemma slice_pos {A} (a : list A) i (b : nat) :
  slice a i (Z.of_nat b) = take b (drop i a).
Proof.
  unfold slice. rewrite decide_False by lia. f_equal. lia.
Qed.

Lemma zip_slices {A B} (a : list A) (c : list B) i (b : nat) :
  zip (slice a i (Z.of_nat b)) (slice c i (Z.of_nat b))
  = take b (drop i (zip a c)).
Proof.
  rewrite !slice_pos.
  by rewrite (zip_with_drop pair i a c), (zip_with_take pair b).
Qed.

(** Chunks of [b] consecutive elements, from chunk [k0] on, make up the
    list from position [k0 * b] on. *)
Lemma join_chunks {A} (l : list A) (b k0 len : nat) :
  (length l ≤ (k0 + len) * b)%nat →
  mjoin ((λ k, take b (drop (k * b) l)) <$> seq k0 len) = drop (k0 * b) l.
Proof.
  revert k0. induction len as [|len IH]; intros k0 Hlen.
  - cbn. rewrite drop_ge; [done|lia].
  - cbn [seq fmap list_fmap mjoin list_join]. rewrite IH by lia.
    replace (S k0 * b)%nat with (k0 * b + b)%nat by lia.
    rewrite <- drop_drop. apply take_drop.
Qed.

Lemma ceil_div_bounds (n b : nat) :
  (0 < b)%nat →
  let q := ((n + b - 1) `div` b)%nat in
  (n ≤ q * b)%nat ∧ (q = 0%nat ∨ ((q - 1) * b < n)%nat).
Proof.
  intros Hb q.
  pose proof (Nat.div_mod_eq (n + b - 1) b) as Hdm.
  pose proof (Nat.mod_upper_bound (n + b - 1) b ltac:(lia)) as Hmod.
  fold q in Hdm. split; [nia|].
  destruct q as [|q']; [by left|right]. nia.
Qed.

End slices_facts.


(** * The coordinator: the submission loop *)

Section coordinator_facts.

Import ClimateDataExtractorWithParallel.

Implicit Types (subs : list Submission) (starts : list nat).

Lemma submit_loop_zero_cap lats lons vi vj b starts pp :
  submit_loop lats lons vi vj b (Some 0) starts pp
  = submit_loop lats lons vi vj b None starts pp.
Proof.
  revert pp. induction starts as [|i rest IH]; intros pp; [done|].
  cbn [submit_loop cap_reached]. rewrite decide_False by (intros ?; done).
  rewrite bool_decide_eq_false_2 by (intros ?; done). cbn [andb].
  destruct (fancy_index (lat_grid_at _ _) _ _) as [la|]; [|done]. cbn.
  destruct (fancy_index (lon_grid_at _ _) _ _) as [lo|]; [|done]. cbn.
  by rewrite IH.
Qed.

(** The two arrays of a batch hold the two coordinates of the same points. *)
Lemma batch_arrays lats lons rws cls la lo :
  fancy_index (lat_grid_at lats lons) rws cls = Ok la →
  fancy_index (lon_grid_at lats lons) rws cls = Ok lo →
  ∃ ps, mapM_result (grid_point lats lons) (zip rws cls) = Ok ps
    ∧ la = ps.*1 ∧ lo = ps.*2.
Proof.
  rewrite fancy_index_lat, fancy_index_lon.
  destruct (mapM_result _ _) as [ps|]; [|done]. cbn.
  intros [= <-] [= <-]. by exists ps.
Qed.

Lemma submit_loop_cons lats lons vi vj b max_points i rest pp subs :
  submit_loop lats lons vi vj b max_points (i :: rest) pp = Ok subs →
  (cap_reached max_points pp = true ∧ subs = [])
  ∨ (cap_reached max_points pp = false
     ∧ ∃ ps later,
         mapM_result (grid_point lats lons) (zip (slice vi i b) (slice vj i b)) = Ok ps
         ∧ submit_loop lats lons vi vj b max_points rest (pp + length ps) = Ok later
         ∧ subs = mkSubmission ps.*1 ps.*2
                    (match max_points with
                     | Some m => if decide (m ≠ 0) then Some (m - Z.of_nat pp) else None
                     | None => None
                     end) :: later).
Proof.
  cbn [submit_loop]. destruct (cap_reached max_points pp); [intros [= <-]; by left|].
  destruct (fancy_index (lat_grid_at _ _) _ _) as [la|] eqn:Hla; [|done]. cbn.
  destruct (fancy_index (lon_grid_at _ _) _ _) as [lo|] eqn:Hlo; [|done]. cbn.
  destruct (batch_arrays _ _ _ _ _ _ Hla Hlo) as (ps & Hps & -> & ->).
  rewrite length_fmap.
  destruct (submit_loop _ _ _ _ _ _ rest _) as [later|] eqn:Hlater; [|done]. cbn.
  intros [= <-]. right. split; [done|]. by exists ps, later.
Qed.

Lemma length_processed_le s : (length (processed s) ≤ length (lat_batch s))%nat.
Proof.
  unfold processed, within_budget, batch_points.
  assert (length (zip (lat_batch s) (lon_batch s)) ≤ length (lat_batch s))%nat
    by (rewrite length_zip; lia).
  destruct (budget s) as [m|]; [|done].
  case_decide; [done|]. rewrite length_take. lia.
Qed.

(** Under a positive cap: every batch is submitted while the running count
    is below the cap and carries the remaining budget, and the workers
    together process at most what remained when the loop started. *)
Lemma submit_loop_cap lats lons vi vj b m starts pp subs :
  0 < m →
  submit_loop lats lons vi vj b (Some m) starts pp = Ok subs →
  (∀ k s, subs !! k = Some s →
     Z.of_nat (pp + submitted_before subs k) < m
     ∧ budget s = Some (m - Z.of_nat (pp + submitted_before subs k)))
  ∧ (sum_list_with (λ s, length (processed s)) subs ≤ Z.to_nat m - pp)%nat.
Proof.
  intros Hm. revert pp subs.
  induction starts as [|i rest IH]; intros pp subs.
  - intros [= <-]. split; [intros k s Hk; by rewrite lookup_nil in Hk|cbn; lia].
  - intros [[_ ->]|[Hcap (ps & later & Hps & Hlater & ->)]]%submit_loop_cons.
    { split; [intros k s Hk; by rewrite lookup_nil in Hk|cbn; lia]. }
    rewrite cap_reached_pos in Hcap by done.
    apply bool_decide_eq_false in Hcap.
    rewrite decide_True by lia.
    destruct (IH _ _ Hlater) as [IH1 IH2]. split.
    + intros [|k] s Hs.
      * injection Hs as <-. unfold submitted_before. cbn.
        rewrite Nat.add_0_r. split; [lia|done].
      * cbn in Hs. destruct (IH1 k s Hs) as [H1 H2].
        unfold submitted_before in *. cbn [take sum_list_with lat_batch].
        rewrite length_fmap, Nat.add_assoc. done.
    + cbn [sum_list_with].
      pose proof (length_processed_le
                    (mkSubmission ps.*1 ps.*2 (Some (m - Z.of_nat pp)))) as Hle.
      cbn [lat_batch] in Hle. rewrite length_fmap in Hle.
      assert (length (processed (mkSubmission ps.*1 ps.*2 (Some (m - Z.of_nat pp)%Z)))
              ≤ Z.to_nat m - pp)%nat as Hle'.
      { unfold processed, within_budget. cbn [budget].
        rewrite decide_False by lia. rewrite length_take. lia. }
      lia.
Qed.

(** Without a cap every start yields a batch: the slice of the point
    sequence that begins there. *)
Lemma submit_loop_no_cap lats lons cells pts (b : nat) k0 len pp :
  (0 < b)%nat →
  mapM_result (grid_point lats lons) cells = Ok pts →
  submit_loop lats lons cells.*1 cells.*2 (Z.of_nat b) None
    ((λ k, (k * b)%nat) <$> seq k0 len) pp
  = Ok ((λ k, mkSubmission (take b (drop (k * b) pts)).*1
                           (take b (drop (k * b) pts)).*2 None)
        <$> seq k0 len).
Proof.
  intros Hb Hpts. revert k0 pp.
  induction len as [|len IH]; intros k0 pp; [done|].
  cbn [seq fmap list_fmap submit_loop cap_reached].
  rewrite fancy_index_lat, fancy_index_lon, zip_slices, zip_fst_snd.
  rewrite (mapM_result_take _ _ _ b (mapM_result_drop _ _ _ (k0 * b) Hpts)).
  cbn. rewrite IH. done.
Qed.

Lemma py_range_step_pos n (b : nat) :
  (0 < b)%nat →
  py_range_step n (Z.of_nat b)
  = Ok ((λ k, (k * b)%nat) <$> seq 0 ((n + b - 1) `div` b)%nat).
Proof.
  intros Hb. unfold py_range_step.
  rewrite !decide_False by lia. by rewrite Nat2Z.id.
Qed.

Lemma default_batch_size_pos env mask : 1 ≤ default_batch_size env mask.
Proof. unfold default_batch_size. lia. Qed.

Lemma np_where_cells mask :
  np_where mask = ((true_cells mask).*1, (true_cells mask).*2).
Proof. done. Qed.

End coordinator_facts.

Section partition.

Import ClimateDataExtractorWithParallel.

Lemma length_join_fmap {A B} (g : A → list B) (l : list A) :
  length (mjoin (g <$> l)) = sum_list_with (λ x, length (g x)) l.
Proof.
  induction l as [|x t IH]; [done|].
  rewrite fmap_cons. change (mjoin (g x :: (g <$> t))) with (g x ++ mjoin (g <$> t)).
  rewrite length_app, IH. done.
Qed.

(** The batches the coordinator forms when no cap is set, in closed form. *)
Lemma submissions_no_cap env hds mask (batch_size : option Z) pts :
  (∀ b, batch_size = Some b → 1 ≤ b) →
  valid_points hds mask = Ok pts →
  let b := Z.to_nat (default (default_batch_size env mask) batch_size) in
  (0 < b)%nat
  ∧ submissions env hds mask batch_size None
    = Ok ((λ k, mkSubmission (take b (drop (k * b) pts)).*1
                             (take b (drop (k * b) pts)).*2 None)
          <$> seq 0 ((length pts + b - 1) `div` b)%nat).
Proof.
  intros Hb Hpts b.
  assert (1 ≤ default (default_batch_size env mask) batch_size) as HB.
  { destruct batch_size as [x|]; cbn; [by apply Hb|apply default_batch_size_pos]. }
  assert (default (default_batch_size env mask) batch_size = Z.of_nat b) as HBb
    by (unfold b; lia).
  split; [lia|].
  unfold submissions. rewrite np_where_cells, HBb.
  rewrite py_range_step_pos by lia. cbn [mbind result_bind].
  unfold valid_points in Hpts.
  rewrite (submit_loop_no_cap _ _ _ pts) by (done || lia).
  rewrite length_fmap, (mapM_result_length _ _ _ Hpts). done.
Qed.

(** C7: for a batch size of at least 1 (given, or derived from the
    processor count) and no cap, the submitted batches are the consecutive
    slices of [b] points of the valid-point sequence: batch [k] is the
    slice starting at position [k * b]; concatenated in order they give
    back the sequence, their lengths add up to its length, no batch is
    empty and only the last may hold fewer than [b] points. *)
Theorem batches_partition_points env hds mask (batch_size : option Z) pts :
  (∀ b, batch_size = Some b → 1 ≤ b) →
  valid_points hds mask = Ok pts →
  let b := Z.to_nat (default (default_batch_size env mask) batch_size) in
  ∃ subs, submissions env hds mask batch_size None = Ok subs
    ∧ (∀ k s, subs !! k = Some s →
         lat_batch s = (take b (drop (k * b) pts)).*1
         ∧ lon_batch s = (take b (drop (k * b) pts)).*2
         ∧ batch_points s = take b (drop (k * b) pts))
    ∧ mjoin (batch_points <$> subs) = pts
    ∧ sum_list_with (λ s, length (batch_points s)) subs = length pts
    ∧ (∀ k s, subs !! k = Some s →
         (1 ≤ length (batch_points s) ≤ b)%nat
         ∧ ((S k < length subs)%nat → length (batch_points s) = b)).
Proof.
  intros Hbs Hpts b.
  destruct (submissions_no_cap env hds mask batch_size pts Hbs Hpts) as [Hb Hsubs].
  fold b in Hb, Hsubs.
  set (q := ((length pts + b - 1) `div` b)%nat) in *.
  destruct (ceil_div_bounds (length pts) b Hb) as [Hq1 Hq2]. fold q in Hq1, Hq2.
  eexists. split; [exact Hsubs|].
  assert (∀ k s,
    ((λ k, mkSubmission (take b (drop (k * b) pts)).*1
                        (take b (drop (k * b) pts)).*2 None) <$> seq 0 q) !! k
    = Some s →
    (k < q)%nat ∧ lat_batch s = (take b (drop (k * b) pts)).*1
    ∧ lon_batch s = (take b (drop (k * b) pts)).*2
    ∧ batch_points s = take b (drop (k * b) pts)) as Hlook.
  { intros k s Hk. rewrite list_lookup_fmap in Hk.
    apply fmap_Some in Hk as (k' & Hk' & ->).
    apply lookup_seq in Hk' as [-> Hlt]. cbn in *.
    split_and!; [done..|]. unfold batch_points. cbn. apply zip_fst_snd. }
  assert (mjoin (batch_points <$>
                 ((λ k, mkSubmission (take b (drop (k * b) pts)).*1
                          (take b (drop (k * b) pts)).*2 None) <$> seq 0 q))
          = pts) as Hjoin.
  { rewrite <- list_fmap_compose.
    rewrite (list_fmap_ext _ (λ k, take b (drop (k * b) pts)) (seq 0 q));
      [|intros ? k _; unfold batch_points; cbn; apply zip_fst_snd].
    rewrite join_chunks by (cbn; lia). done. }
  split_and!.
  - intros k s Hk. by destruct (Hlook k s Hk) as (_ & ? & ? & ?).
  - exact Hjoin.
  - rewrite <- length_join_fmap. by rewrite Hjoin.
  - intros k s Hk. destruct (Hlook k s Hk) as (Hkq & _ & _ & ->).
    rewrite length_fmap, length_seq.
    rewrite length_take, length_drop.
    destruct Hq2 as [->|Hq2]; [lia|].
    assert (k * b ≤ (q - 1) * b)%nat by (apply Nat.mul_le_mono_r; lia).
    split; [lia|]. intros HS.
    assert (S k * b ≤ (q - 1) * b)%nat by (apply Nat.mul_le_mono_r; lia).
    lia.
Qed.

Lemma batches_partition_points_witness :
  let env := example_env ["f.nc"] forecast_frame ten_mask in
  let hds := dataset_of forecast_frame in
  let b := Z.to_nat (default (default_batch_size env ten_mask) (Some 3)) in
  (∀ b, Some 3 = Some b → 1 ≤ b)
  ∧ valid_points hds ten_mask = Ok ten_points
  ∧ ∃ subs, submissions env hds ten_mask (Some 3) None = Ok subs
    ∧ (∀ k s, subs !! k = Some s →
         lat_batch s = (take b (drop (k * b) ten_points)).*1
         ∧ lon_batch s = (take b (drop (k * b) ten_points)).*2
         ∧ batch_points s = take b (drop (k * b) ten_points))
    ∧ mjoin (batch_points <$> subs) = ten_points
    ∧ sum_list_with (λ s, length (batch_points s)) subs = length ten_points
    ∧ (∀ k s, subs !! k = Some s →
         (1 ≤ length (batch_points s) ≤ b)%nat
         ∧ ((S k < length subs)%nat → length (batch_points s) = b)).
Proof.
  intros env hds b.
  assert (∀ b, Some 3 = Some b → 1 ≤ b) as H1 by (intros ? [= <-]; lia).
  assert (valid_points hds ten_mask = Ok ten_points) as H2 by reflexivity.
  split; [exact H1|]. split; [exact H2|].
  exact (batches_partition_points env hds ten_mask (Some 3) ten_points H1 H2).
Defined.

End partition.

(** * The coordinator: collecting the futures *)

Section collect_facts.

Import ClimateDataExtractorWithParallel.

Context (env : Env).

Implicit Types (subs : list Submission).
Implicit Types (acc d r : gmap string DataFrame).

Lemma size_list_to_set_le (l : list string) :
  (size (list_to_set l : gset string) ≤ length l)%nat.
Proof.
  induction l as [|x t IH]; cbn.
  - by rewrite size_empty.
  - rewrite size_union_alt, size_singleton.
    assert (size (list_to_set t ∖ {[x]} : gset string)
            ≤ size (list_to_set t : gset string))%nat
      by (apply subseteq_size; set_solver).
    lia.
Qed.

Lemma collect_Ok done acc d :
  collect done acc = Ok d →
  (∀ fut, fut ∈ done → ∃ r, fut = Ok r)
  ∧ (∀ k, k ∈ dom d ↔ k ∈ dom acc ∨ ∃ r, Ok r ∈ done ∧ k ∈ dom r).
Proof.
  revert acc. induction done as [|fut rest IH]; intros acc.
  - intros [= <-]. split; [by intros ? ?%elem_of_nil|].
    intros k. split; [by left|]. intros [?|(r & ?%elem_of_nil & _)]; done.
  - cbn [collect]. destruct fut as [r0|e]; [|done]. cbn.
    intros [Hall Hdom]%IH. split.
    + intros fut [->|?]%elem_of_cons; [by exists r0|by apply Hall].
    + intros k. rewrite Hdom, dom_union_L, elem_of_union. split.
      * intros [[?|?]|(r & ? & ?)]; [|by left|].
        -- right. exists r0. split; [by left|done].
        -- right. exists r. split; [by right|done].
      * intros [?|(r & [[= ->]|?]%elem_of_cons & ?)]; [by left;right|by left;left|].
        right. by exists r.
Qed.

(** Every budget handed to a worker is positive. *)
Lemma submit_loop_budget_pos lats lons vi vj b max_points starts pp subs :
  submit_loop lats lons vi vj b max_points starts pp = Ok subs →
  ∀ s m, s ∈ subs → budget s = Some m → 0 < m.
Proof.
  revert pp subs. induction starts as [|i rest IH]; intros pp subs.
  - intros [= <-] s m ?%elem_of_nil. done.
  - intros [[_ ->]|[Hcap (ps & later & Hps & Hlater & ->)]]%submit_loop_cons.
    { by intros s m ?%elem_of_nil. }
    intros s m [->|Hs]%elem_of_cons; [|by eapply IH].
    cbn [budget]. destruct max_points as [x|]; [|done].
    case_decide as Hx; [|done]. intros [= <-].
    unfold cap_reached in Hcap. rewrite bool_decide_eq_true_2 in Hcap by done.
    cbn in Hcap. apply Z.leb_gt in Hcap. lia.
Qed.

Lemma submissions_budget_pos hds mask batch_size max_points subs :
  submissions env hds mask batch_size max_points = Ok subs →
  ∀ s m, s ∈ subs → budget s = Some m → 0 < m.
Proof.
  unfold submissions. rewrite np_where_cells.
  destruct (py_range_step _ _) as [starts|]; [|done]. cbn.
  apply submit_loop_budget_pos.
Qed.

(** The keys of the mapping the coordinator assembles, whatever the order
    in which the batches complete: those of the points the workers
    processed. *)
Lemma collect_submissions_dom hds fds variables subs d :
  (∀ A (l : list A), as_completed env A l ≡ₚ l) →
  (∀ s m, s ∈ subs → budget s = Some m → 0 < m) →
  collect (as_completed env _
             ((λ s, submit env hds fds variables (lat_batch s) (lon_batch s)
                      (budget s)) <$> subs)) ∅ = Ok d →
  dom d = list_to_set ((λ p, point_key env p.1 p.2) <$> mjoin (processed <$> subs)).
Proof.
  intros Hperm Hbudget [Hall Hdom]%collect_Ok.
  apply set_eq. intros k. rewrite Hdom, dom_empty_L, elem_of_list_to_set.
  rewrite list_elem_of_fmap.
  setoid_rewrite list_elem_of_join. setoid_rewrite list_elem_of_fmap.
  assert (∀ s r, s ∈ subs →
            submit env hds fds variables (lat_batch s) (lon_batch s) (budget s) = Ok r →
            dom r = list_to_set ((λ p, point_key env p.1 p.2) <$> processed s)) as Hsub.
  { intros s r Hs Hr. eapply submit_dom; [|done].
    intros m Hm. specialize (Hbudget s m Hs Hm). lia. }
  split.
  - intros [?%elem_of_empty|(r & Hr & Hk)]; [done|].
    rewrite Hperm in Hr. apply list_elem_of_fmap in Hr as (s & Hr & Hs).
    symmetry in Hr. rewrite (Hsub s r Hs Hr) in Hk.
    apply elem_of_list_to_set, list_elem_of_fmap in Hk as (p & -> & Hp).
    exists p. split; [done|]. exists (processed s). split; [done|]. by exists s.
  - intros (p & -> & l & Hp & s & -> & Hs). right.
    destruct (Hall (submit env hds fds variables (lat_batch s) (lon_batch s) (budget s)))
      as [r Hr].
    { rewrite Hperm. apply list_elem_of_fmap. by exists s. }
    exists r. split.
    + rewrite Hperm. apply list_elem_of_fmap. by exists s.
    + rewrite (Hsub s r Hs Hr). apply elem_of_list_to_set, list_elem_of_fmap. by exists p.
Qed.

(** What a successful run of the coordinator went through. *)
Lemma parallel_Ok netcdf_folder variables file_name_pattern start_year end_year
    mask_path batch_size max_points d :
  (∀ A (l : list A), as_completed env A l ≡ₚ l) →
  extract_variables_over_years_parallel env netcdf_folder variables
    file_name_pattern start_year end_year mask_path batch_size max_points = Ok d →
  d = ∅
  ∨ ∃ mask hds fds subs,
      np_load env mask_path = Ok mask
      ∧ _load_netcdf_data env netcdf_folder file_name_pattern start_year end_year
        = Ok (Some hds)
      ∧ _load_netcdf_data env forecast_folder "combined.nc" 2024 2024 = Ok (Some fds)
      ∧ submissions env hds mask batch_size max_points = Ok subs
      ∧ dom d = list_to_set ((λ p, point_key env p.1 p.2)
                               <$> mjoin (processed <$> subs)).
Proof.
  intros Hperm. unfold extract_variables_over_years_parallel.
  intros (mask & Hmask & H)%bind_result_Ok.
  apply bind_result_Ok in H as (historical_ds & Hh & H).
  apply bind_result_Ok in H as (forecast_ds & Hf & H).
  destruct historical_ds as [hds|], forecast_ds as [fds|];
    try (injection H as <-; by left).
  destruct (negb _ || negb _); [injection H as <-; by left|].
  apply bind_result_Ok in H as (subs & Hsubs & Hcollect).
  right. exists mask, hds, fds, subs. split_and!; [done..|].
  eapply collect_submissions_dom; [done| |done].
  by eapply submissions_budget_pos.
Qed.

End collect_facts.


(** * The global cap of the parallel extraction *)

Section global_cap.

Import ClimateDataExtractorWithParallel.

Lemma submissions_cap env hds mask batch_size m subs :
  0 < m →
  submissions env hds mask batch_size (Some m) = Ok subs →
  (∀ k s, subs !! k = Some s →
     Z.of_nat (submitted_before subs k) < m
     ∧ budget s = Some (m - Z.of_nat (submitted_before subs k)))
  ∧ (sum_list_with (λ s, length (processed s)) subs ≤ Z.to_nat m)%nat.
Proof.
  intros Hm. unfold submissions. rewrite np_where_cells.
  intros (starts & _ & Hloop)%bind_result_Ok.
  apply submit_loop_cap in Hloop as [H1 H2]; [|done].
  split; [exact H1|lia].
Qed.

(** A worker under a positive budget does what an uncapped worker does on
    the first [budget] points of the batch. *)
Lemma submit_budget env hds fds variables lats lons m :
  0 < m →
  submit env hds fds variables lats lons (Some m)
  = submit env hds fds variables (take (Z.to_nat m) lats) (take (Z.to_nat m) lons) None.
Proof.
  intros Hm. unfold submit, _process_point_batch.
  rewrite batch_loop_budget by done. rewrite Nat.sub_0_r.
  by rewrite (zip_with_take pair).
Qed.

Lemma submit_size env hds fds variables lats lons m r :
  0 < m →
  submit env hds fds variables lats lons (Some m) = Ok r →
  (size r ≤ Z.to_nat m)%nat.
Proof.
  intros Hm Hr. apply submit_dom in Hr; [|intros ? [= <-]; lia].
  rewrite <- size_dom, Hr. etrans; [apply size_list_to_set_le|].
  unfold within_budget. rewrite decide_False by lia.
  rewrite length_fmap, length_take. lia.
Qed.

(** C1: under a positive cap [m], whatever the mask and the batch size,
    every batch is submitted while the running count of submitted points
    is below [m] (none is once the count has reached [m]); its worker is
    given the remaining budget, at which it stops: it does what an
    uncapped worker does on the first [budget] points and sends back at
    most that many entries; and the mapping finally returned holds at
    most [m] entries, in whatever order the batches complete. *)
Theorem parallel_cap_bound env m :
  0 < m →
  (∀ A (l : list A), as_completed env A l ≡ₚ l) →
  (∀ hds mask batch_size subs,
     submissions env hds mask batch_size (Some m) = Ok subs →
     ∀ k s, subs !! k = Some s →
       ∃ remaining,
         remaining = m - Z.of_nat (submitted_before subs k)
         ∧ 0 < remaining
         ∧ budget s = Some remaining
         ∧ ∀ fds variables,
             submit env hds fds variables (lat_batch s) (lon_batch s) (budget s)
             = submit env hds fds variables
                 (take (Z.to_nat remaining) (lat_batch s))
                 (take (Z.to_nat remaining) (lon_batch s)) None
             ∧ ∀ r, submit env hds fds variables (lat_batch s) (lon_batch s)
                      (budget s) = Ok r →
                    (size r ≤ Z.to_nat remaining)%nat)
  ∧ (∀ netcdf_folder variables file_name_pattern start_year end_year
       mask_path batch_size d,
       extract_variables_over_years_parallel env netcdf_folder variables
         file_name_pattern start_year end_year mask_path batch_size (Some m)
       = Ok d →
       (size d ≤ Z.to_nat m)%nat).
Proof.
  intros Hm Hperm. split.
  - intros hds mask batch_size subs Hsubs k s Hk.
    destruct (submissions_cap _ _ _ _ _ _ Hm Hsubs) as [H1 _].
    destruct (H1 k s Hk) as [Hlt Hbudget].
    eexists. split; [reflexivity|]. split; [lia|]. split; [done|].
    intros fds variables. rewrite Hbudget. split.
    + apply submit_budget. lia.
    + intros r. apply submit_size. lia.
  - intros nf variables pat sy ey mp bs d Hd.
    destruct (parallel_Ok env _ _ _ _ _ _ _ _ d Hperm Hd)
      as [->|(mask & hds & fds & subs & _ & _ & _ & Hsubs & Hdom)].
    + rewrite map_size_empty. lia.
    + destruct (submissions_cap _ _ _ _ _ _ Hm Hsubs) as [_ H2].
      rewrite <- size_dom, Hdom. etrans; [apply size_list_to_set_le|].
      rewrite length_fmap, length_join_fmap. done.
Qed.

Lemma parallel_cap_bound_witness :
  let env := example_env ["f.nc"] forecast_frame ten_mask in
  0 < 5
  ∧ (∀ A (l : list A), as_completed env A l ≡ₚ l)
  ∧ ∃ d, extract_variables_over_years_parallel env "netcdf_files/combined"
           all_variables "amber_{year}.nc" 2023 2024 "mask.npy"
           (Some 3) (Some 5) = Ok d
         ∧ (size d ≤ Z.to_nat 5)%nat.
Proof.
  intros env.
  assert (0 < 5) as H1 by lia.
  assert (∀ A (l : list A), as_completed env A l ≡ₚ l) as H2
    by (intros A l; apply reverse_Permutation).
  split; [exact H1|]. split; [exact H2|].
  destruct (extract_variables_over_years_parallel env "netcdf_files/combined"
              all_variables "amber_{year}.nc" 2023 2024 "mask.npy"
              (Some 3) (Some 5)) as [d|e] eqn:Hrun.
  - exists d. split; [reflexivity|].
    exact (proj2 (parallel_cap_bound env 5 H1 H2) _ _ _ _ _ _ _ d Hrun).
  - vm_compute in Hrun. discriminate Hrun.
Defined.

Example cap_five_of_ten :
  let env := example_env ["f.nc"] forecast_frame ten_mask in
  (size <$> extract_variables_over_years_parallel env "netcdf_files/combined"
              all_variables "amber_{year}.nc" 2023 2024 "mask.npy"
              (Some 3) (Some 5) : result nat) = Ok 5%nat.
Proof. vm_compute. reflexivity. Qed.

End global_cap.

(** * The sequential loop of [extract_variables_over_years] *)

Section sequential_facts.

Import ClimateDataExtractorWithParallel.

Context (env : Env).

Implicit Types (σ : store) (d : gmap string nat).
Implicit Types (cells : list (nat * nat)).

Lemma extract_point_Ok hds fds variables lat_idx lon_idx d σ d' σ' :
  extract_point env hds fds variables lat_idx lon_idx d σ = Ok (d', σ') →
  ∃ (p : float * float) (c : ref),
    grid_point (lat_values hds) (lon_values hds) (lat_idx, lon_idx) = Ok p
    ∧ d' = <[point_key env p.1 p.2 := c]> d
    ∧ (c < length σ')%nat ∧ (length σ ≤ length σ')%nat.
Proof.
  unfold extract_point.
  intros (lat & σa & [Hlat ->]%lift_Ok & H)%bind_M_Ok.
  apply bind_M_Ok in H as (lon & σb & [Hlon ->]%lift_Ok & H).
  apply bind_M_Ok in H as (h & σ1 & [_ H1]%extract_point_data_Ok & H).
  apply bind_M_Ok in H as (f & σ2 & [_ H2]%extract_point_data_Ok & H).
  apply bind_M_Ok in H as (fc & σ2' & [_ H2']%copy_Ok & H).
  apply bind_M_Ok in H as (f' & σ3 & [_ H3]%convert_Ok_length & H).
  apply bind_M_Ok in H as (hv & σ4 & [_ ->]%get_Ok & H).
  apply bind_M_Ok in H as (fv & σ5 & [_ ->]%get_Ok & H).
  apply bind_M_Ok in H as (cv & σ6 & [_ ->]%lift_Ok & H).
  apply bind_M_Ok in H as (c & σ7 & [-> ->]%new_Ok & [-> ->]%mret_Ok).
  exists (lat, lon), (length σ3). rewrite length_app. cbn [fst snd length].
  split_and!; [|done|lia..].
  unfold grid_point. cbn [fst snd]. by rewrite Hlat, Hlon.
Qed.

Lemma extract_loop_zero_cap hds fds variables cells count bound d σ :
  extract_loop env hds fds variables (Some 0) cells count bound d σ
  = extract_loop env hds fds variables None cells count bound d σ.
Proof.
  revert count bound d σ.
  induction cells as [|[i j] rest IH]; intros count bound d σ; [done|].
  cbn [extract_loop]. rewrite cap_reached_zero. cbn [cap_reached].
  unfold mbind, M_bind.
  destruct (extract_point _ _ _ _ _ _ _ _) as [[d1 σ1]|]; [apply IH|done].
Qed.

Lemma extract_loop_None_Ok hds fds variables cells count bound d σ d' c σ' :
  extract_loop env hds fds variables None cells count bound d σ = Ok ((d', c), σ') →
  refs_below (length σ) d →
  ∃ pts, mapM_result (grid_point (lat_values hds) (lon_values hds)) cells = Ok pts
    ∧ dom d' = dom d ∪ list_to_set ((λ p, point_key env p.1 p.2) <$> pts)
    ∧ refs_below (length σ') d'
    ∧ (length σ ≤ length σ')%nat.
Proof.
  revert count bound d σ.
  induction cells as [|[i j] rest IH]; intros count bound d σ.
  - intros [[= -> ->] ->]%mret_Ok Hv. exists []. split_and!; [done|set_solver|done|done].
  - cbn [extract_loop cap_reached].
    intros (d1 & σ1 & (p & r & Hp & -> & Hr & Hlen)%extract_point_Ok & Hrest)%bind_M_Ok Hv.
    apply IH in Hrest as (pts & Hpts & Hdom & Hv' & Hlen').
    + exists (p :: pts). split_and!; [| |done|lia].
      * cbn [mapM_result]. by rewrite Hp, Hpts.
      * rewrite Hdom, dom_insert_L, fmap_cons. cbn. set_solver.
    + apply refs_below_insert; [|done]. by eapply refs_below_mono.
Qed.

Lemma extract_loop_cap hds fds variables m cells count bound d σ d' c σ' :
  0 < m →
  extract_loop env hds fds variables (Some m) cells count bound d σ = Ok ((d', c), σ') →
  (size d' ≤ size d + (Z.to_nat m - count))%nat.
Proof.
  intros Hm. revert count bound d σ.
  induction cells as [|[i j] rest IH]; intros count bound d σ.
  - intros [[= -> ->] ->]%mret_Ok. lia.
  - cbn [extract_loop]. rewrite cap_reached_pos by done.
    case_bool_decide as Hc.
    + intros [[= -> ->] ->]%mret_Ok. lia.
    + intros (d1 & σ1 & (p & r & Hp & -> & Hr & Hlen)%extract_point_Ok & Hrest)%bind_M_Ok.
      apply IH in Hrest.
      pose proof (map_size_insert (point_key env p.1 p.2) r d) as Hsz.
      destruct (d !! point_key env p.1 p.2); unfold id in Hsz; lia.
Qed.

End sequential_facts.

Section entry_point_facts.

Import ClimateDataExtractorWithParallel.

Context (env : Env).

(** With both datasets loaded and non-empty the sequential entry point is
    its loop over the true cells of the mask, then the closing [print]. *)
Lemma sequential_loaded netcdf_folder variables file_name_pattern start_year
    end_year mask_path max_points mask hds fds :
  np_load env mask_path = Ok mask →
  _load_netcdf_data env netcdf_folder file_name_pattern start_year end_year
  = Ok (Some hds) →
  _load_netcdf_data env forecast_folder "combined.nc" 2024 2024 = Ok (Some fds) →
  truthy (Some hds) = true → truthy (Some fds) = true →
  extract_variables_over_years env netcdf_folder variables file_name_pattern
    start_year end_year mask_path max_points
  = match extract_loop env hds fds variables max_points (true_cells mask)
            0 None ∅ [] with
    | Ok (df_dict, count, σ) => _ ← read_local count; Ok (contents σ df_dict)
    | Raise e => Raise e
    end.
Proof.
  intros Hmask Hh Hf Hth Htf. unfold extract_variables_over_years.
  rewrite Hmask, Hh, Hf. cbn [mbind result_bind load].
  rewrite Hth, Htf. cbn [negb orb].
  rewrite np_where_cells, zip_fst_snd.
  by destruct (extract_loop _ _ _ _ _ _ _ _ _ _) as [[[??]?]|].
Qed.

Lemma sequential_zero_cap netcdf_folder variables file_name_pattern start_year
    end_year mask_path :
  extract_variables_over_years env netcdf_folder variables file_name_pattern
    start_year end_year mask_path (Some 0)
  = extract_variables_over_years env netcdf_folder variables file_name_pattern
      start_year end_year mask_path None.
Proof.
  unfold extract_variables_over_years.
  destruct (np_load env mask_path) as [mask|]; [|done]. cbn [mbind result_bind].
  destruct (_load_netcdf_data env netcdf_folder _ _ _ ≫= load) as [[hds|]|]; [|done..].
  cbn [mbind result_bind].
  destruct (_load_netcdf_data env forecast_folder _ _ _ ≫= load) as [[fds|]|]; [|done..].
  cbn [mbind result_bind].
  destruct (negb _ || negb _); [done|].
  destruct (np_where mask) as [vi vj].
  by rewrite extract_loop_zero_cap.
Qed.

Lemma sequential_size netcdf_folder variables file_name_pattern start_year
    end_year mask_path m d :
  0 < m →
  extract_variables_over_years env netcdf_folder variables file_name_pattern
    start_year end_year mask_path (Some m) = Ok d →
  (size d ≤ Z.to_nat m)%nat.
Proof.
  intros Hm. unfold extract_variables_over_years.
  intros (mask & _ & H)%bind_result_Ok.
  apply bind_result_Ok in H as (historical_ds & _ & H).
  apply bind_result_Ok in H as (forecast_ds & _ & H).
  destruct historical_ds as [hds|], forecast_ds as [fds|];
    try (injection H as <-; rewrite map_size_empty; lia).
  destruct (negb _ || negb _); [injection H as <-; rewrite map_size_empty; lia|].
  destruct (np_where mask) as [vi vj].
  apply bind_result_Ok in H as ([[d' c] σ'] & Hloop & H).
  apply bind_result_Ok in H as (? & _ & [= <-]).
  apply extract_loop_cap in Hloop; [|done].
  rewrite map_size_empty in Hloop.
  pose proof (size_contents σ' d'). lia.
Qed.

Lemma sequential_None_dom netcdf_folder variables file_name_pattern start_year
    end_year mask_path mask hds fds d :
  np_load env mask_path = Ok mask →
  _load_netcdf_data env netcdf_folder file_name_pattern start_year end_year
  = Ok (Some hds) →
  _load_netcdf_data env forecast_folder "combined.nc" 2024 2024 = Ok (Some fds) →
  truthy (Some hds) = true → truthy (Some fds) = true →
  extract_variables_over_years env netcdf_folder variables file_name_pattern
    start_year end_year mask_path None = Ok d →
  ∃ pts, valid_points hds mask = Ok pts
    ∧ dom d = list_to_set ((λ p, point_key env p.1 p.2) <$> pts).
Proof.
  intros Hmask Hh Hf Hth Htf.
  rewrite (sequential_loaded _ _ _ _ _ _ _ mask hds fds) by done.
  destruct (extract_loop _ _ _ _ _ _ _ _ _ _) as [[[d' c] σ']|] eqn:Hloop; [|done].
  intros (? & _ & [= <-])%bind_result_Ok.
  apply extract_loop_None_Ok in Hloop as (pts & Hpts & Hdom & Hv & _);
    [|apply refs_below_empty].
  exists pts. split; [done|].
  rewrite dom_contents by done. rewrite Hdom. set_solver.
Qed.

(** With both datasets loaded and non-empty the parallel entry point is the
    submission of the batches and the collection of the futures. *)
Lemma parallel_loaded netcdf_folder variables file_name_pattern start_year
    end_year mask_path batch_size max_points mask hds fds :
  np_load env mask_path = Ok mask →
  _load_netcdf_data env netcdf_folder file_name_pattern start_year end_year
  = Ok (Some hds) →
  _load_netcdf_data env forecast_folder "combined.nc" 2024 2024 = Ok (Some fds) →
  truthy (Some hds) = true → truthy (Some fds) = true →
  extract_variables_over_years_parallel env netcdf_folder variables
    file_name_pattern start_year end_year mask_path batch_size max_points
  = (batches ← submissions env hds mask batch_size max_points;
     collect (as_completed env _
                ((λ s, submit env hds fds variables (lat_batch s) (lon_batch s)
                         (budget s)) <$> batches)) ∅).
Proof.
  intros Hmask Hh Hf Hth Htf. unfold extract_variables_over_years_parallel.
  rewrite Hmask, Hh, Hf. cbn [mbind result_bind].
  by rewrite Hth, Htf.
Qed.

Lemma submissions_zero_cap hds mask batch_size :
  submissions env hds mask batch_size (Some 0)
  = submissions env hds mask batch_size None.
Proof.
  unfold submissions. rewrite np_where_cells.
  destruct (py_range_step _ _) as [starts|]; [|done]. cbn [mbind result_bind].
  apply submit_loop_zero_cap.
Qed.

Lemma parallel_zero_cap netcdf_folder variables file_name_pattern start_year
    end_year mask_path batch_size :
  extract_variables_over_years_parallel env netcdf_folder variables
    file_name_pattern start_year end_year mask_path batch_size (Some 0)
  = extract_variables_over_years_parallel env netcdf_folder variables
      file_name_pattern start_year end_year mask_path batch_size None.
Proof.
  unfold extract_variables_over_years_parallel.
  destruct (np_load env mask_path) as [mask|]; [|done]. cbn [mbind result_bind].
  destruct (_load_netcdf_data env netcdf_folder _ _ _) as [[hds|]|]; [|done..].
  cbn [mbind result_bind].
  destruct (_load_netcdf_data env forecast_folder _ _ _) as [[fds|]|]; [|done..].
  cbn [mbind result_bind].
  destruct (negb _ || negb _); [done|].
  by rewrite submissions_zero_cap.
Qed.

(** Without a cap the submitted batches, in order, make up the valid-point
    sequence, and no worker is given a budget. *)
Lemma batches_join hds mask (batch_size : option Z) pts subs :
  (∀ b, batch_size = Some b → 1 ≤ b) →
  valid_points hds mask = Ok pts →
  submissions env hds mask batch_size None = Ok subs →
  mjoin (batch_points <$> subs) = pts
  ∧ ∀ s, s ∈ subs → budget s = None.
Proof.
  intros Hbs Hpts Hsubs.
  destruct (submissions_no_cap env hds mask batch_size pts Hbs Hpts) as [Hb Heq].
  rewrite Heq in Hsubs. injection Hsubs as <-.
  set (b := Z.to_nat (default (default_batch_size env mask) batch_size)) in *.
  destruct (ceil_div_bounds (length pts) b Hb) as [Hq1 _].
  split.
  - rewrite <- list_fmap_compose.
    rewrite (list_fmap_ext _ (λ k, take b (drop (k * b) pts)));
      [|intros ? k _; unfold batch_points; cbn; apply zip_fst_snd].
    rewrite join_chunks by (cbn; lia). done.
  - intros s (k & -> & _)%list_elem_of_fmap. done.
Qed.

Lemma parallel_None_dom netcdf_folder variables file_name_pattern start_year
    end_year mask_path batch_size mask hds fds pts d :
  (∀ A (l : list A), as_completed env A l ≡ₚ l) →
  (∀ b, batch_size = Some b → 1 ≤ b) →
  np_load env mask_path = Ok mask →
  _load_netcdf_data env netcdf_folder file_name_pattern start_year end_year
  = Ok (Some hds) →
  _load_netcdf_data env forecast_folder "combined.nc" 2024 2024 = Ok (Some fds) →
  truthy (Some hds) = true → truthy (Some fds) = true →
  valid_points hds mask = Ok pts →
  extract_variables_over_years_parallel env netcdf_folder variables
    file_name_pattern start_year end_year mask_path batch_size None = Ok d →
  dom d = list_to_set ((λ p, point_key env p.1 p.2) <$> pts).
Proof.
  intros Hperm Hbs Hmask Hh Hf Hth Htf Hpts.
  rewrite (parallel_loaded _ _ _ _ _ _ _ _ mask hds fds) by done.
  intros (subs & Hsubs & Hcollect)%bind_result_Ok.
  apply collect_submissions_dom in Hcollect;
    [|done|by eapply submissions_budget_pos].
  rewrite Hcollect.
  destruct (batches_join hds mask batch_size pts subs Hbs Hpts Hsubs) as [Hj Hb].
  rewrite (list_fmap_ext processed batch_points subs); [by rewrite Hj|].
  intros i s Hs. unfold processed. rewrite (Hb s); [done|].
  by eapply list_elem_of_lookup_2.
Qed.

End entry_point_facts.

(** * The extraction-only entry points of [ClimateDataExtractor.py] *)

Section amber_forecast_facts.

Import ClimateDataExtractor.

Context (env : Env).

Implicit Types (σ : store) (d : gmap string nat).
Implicit Types (points : list (float * float)).

Lemma amber_extract_point_data_Ok ds lat lon variables (r : ref) σ σ' :
  _extract_point_data ds lat lon variables σ = Ok (r, σ') →
  r = length σ ∧ length σ' = S (length σ).
Proof.
  unfold _extract_point_data.
  intros (df & σ1 & [_ ->]%lift_Ok & [-> ->]%new_Ok)%bind_M_Ok.
  rewrite length_app. cbn. lia.
Qed.

Lemma convert_amber_Ok_length (r r' : ref) σ σ' :
  _convert_forecast_to_amber_units r σ = Ok (r', σ') →
  r' = r ∧ length σ' = length σ.
Proof.
  unfold _convert_forecast_to_amber_units.
  intros (? & σ1 & H1%setitem_op_length
          & (? & σ2 & H2%setitem_op_length & [-> ->]%mret_Ok)%bind_M_Ok)%bind_M_Ok.
  split; [done|congruence].
Qed.

Lemma amber_loop_zero_cap ds variables points count bound d σ :
  amber_loop env ds variables (Some 0) points count bound d σ
  = amber_loop env ds variables None points count bound d σ.
Proof.
  revert count bound d σ.
  induction points as [|[lat lon] rest IH]; intros count bound d σ; [done|].
  cbn [amber_loop]. rewrite cap_reached_zero. cbn [cap_reached].
  unfold mbind, M_bind.
  destruct (_extract_point_data _ _ _ _ _) as [[r σ1]|]; [apply IH|done].
Qed.

Lemma amber_loop_None_Ok ds variables points count bound d σ d' c σ' :
  amber_loop env ds variables None points count bound d σ = Ok ((d', c), σ') →
  refs_below (length σ) d →
  dom d' = dom d ∪ list_to_set ((λ p, point_key env p.1 p.2) <$> points)
  ∧ refs_below (length σ') d'
  ∧ (length σ ≤ length σ')%nat.
Proof.
  revert count bound d σ.
  induction points as [|[lat lon] rest IH]; intros count bound d σ.
  - intros [[= -> ->] ->]%mret_Ok Hv. split_and!; [set_solver|done|done].
  - cbn [amber_loop cap_reached].
    intros (r & σ1 & [-> Hlen]%amber_extract_point_data_Ok & Hrest)%bind_M_Ok Hv.
    apply IH in Hrest as (Hdom & Hv' & Hlen').
    + split_and!; [|done|lia].
      rewrite Hdom, dom_insert_L, fmap_cons. cbn. set_solver.
    + apply refs_below_insert; [|lia]. eapply refs_below_mono; [done|lia].
Qed.

Lemma amber_loop_cap ds variables m points count bound d σ d' c σ' :
  0 < m →
  amber_loop env ds variables (Some m) points count bound d σ = Ok ((d', c), σ') →
  (size d' ≤ size d + (Z.to_nat m - count))%nat.
Proof.
  intros Hm. revert count bound d σ.
  induction points as [|[lat lon] rest IH]; intros count bound d σ.
  - intros [[= -> ->] ->]%mret_Ok. lia.
  - cbn [amber_loop]. rewrite cap_reached_pos by done.
    case_bool_decide as Hc.
    + intros [[= -> ->] ->]%mret_Ok. lia.
    + intros (r & σ1 & _ & Hrest)%bind_M_Ok.
      apply IH in Hrest.
      pose proof (map_size_insert (point_key env lat lon) r d) as Hsz.
      destruct (d !! point_key env lat lon); unfold id in Hsz; lia.
Qed.

(** One iteration of the forecast loop. *)
Lemma forecast_step_Ok ds variables lat lon (r : ref) σ σ' :
  (forecast_df ← _extract_point_data ds lat lon variables;
   forecast_copy ← copy forecast_df;
   _convert_forecast_to_amber_units forecast_copy) σ = Ok (r, σ') →
  (r < length σ')%nat ∧ (length σ ≤ length σ')%nat.
Proof.
  intros (f & σ1 & [_ H1]%amber_extract_point_data_Ok & H)%bind_M_Ok.
  apply bind_M_Ok in H as (fc & σ2 & [-> H2]%copy_Ok & [-> H3]%convert_amber_Ok_length).
  lia.
Qed.

Lemma forecast_loop_cons ds variables max_points lat lon rest count bound d σ :
  forecast_loop env ds variables max_points ((lat, lon) :: rest) count bound d σ
  = if cap_reached max_points count then Ok ((d, Some count), σ)
    else
      match (forecast_df ← _extract_point_data ds lat lon variables;
             forecast_copy ← copy forecast_df;
             _convert_forecast_to_amber_units forecast_copy) σ with
      | Ok (r, σ1) =>
          forecast_loop env ds variables max_points rest (S count) (Some count)
            (<[point_key env lat lon := r]> d) σ1
      | Raise e => Raise e
      end.
Proof.
  cbn [forecast_loop]. destruct (cap_reached max_points count); [done|].
  unfold mbind, M_bind.
  destruct (_extract_point_data _ _ _ _ _) as [[f σ1]|]; [|done].
  destruct (copy f σ1) as [[fc σ2]|]; [|done].
  by destruct (_convert_forecast_to_amber_units fc σ2) as [[r σ3]|].
Qed.

Lemma forecast_loop_zero_cap ds variables points count bound d σ :
  forecast_loop env ds variables (Some 0) points count bound d σ
  = forecast_loop env ds variables None points count bound d σ.
Proof.
  revert count bound d σ.
  induction points as [|[lat lon] rest IH]; intros count bound d σ; [done|].
  rewrite !forecast_loop_cons, cap_reached_zero. cbn [cap_reached].
  destruct_step r σ1 Hstep; [apply IH|done].
Qed.

Lemma forecast_loop_None_Ok ds variables points count bound d σ d' c σ' :
  forecast_loop env ds variables None points count bound d σ = Ok ((d', c), σ') →
  refs_below (length σ) d →
  dom d' = dom d ∪ list_to_set ((λ p, point_key env p.1 p.2) <$> points)
  ∧ refs_below (length σ') d'
  ∧ (length σ ≤ length σ')%nat.
Proof.
  revert count bound d σ.
  induction points as [|[lat lon] rest IH]; intros count bound d σ.
  - intros [[= -> ->] ->]%mret_Ok Hv. split_and!; [set_solver|done|done].
  - rewrite forecast_loop_cons. cbn [cap_reached].
    destruct_step r σ1 Hstep; [|done].
    apply forecast_step_Ok in Hstep as [Hr Hlen]. intros Hrest Hv.
    apply IH in Hrest as (Hdom & Hv' & Hlen').
    + split_and!; [|done|lia].
      rewrite Hdom, dom_insert_L, fmap_cons. cbn. set_solver.
    + apply refs_below_insert; [|lia]. eapply refs_below_mono; [done|lia].
Qed.

Lemma forecast_loop_cap ds variables m points count bound d σ d' c σ' :
  0 < m →
  forecast_loop env ds variables (Some m) points count bound d σ = Ok ((d', c), σ') →
  (size d' ≤ size d + (Z.to_nat m - count))%nat.
Proof.
  intros Hm. revert count bound d σ.
  induction points as [|[lat lon] rest IH]; intros count bound d σ.
  - intros [[= -> ->] ->]%mret_Ok. lia.
  - rewrite forecast_loop_cons, cap_reached_pos by done.
    case_bool_decide as Hc.
    + intros [= <- <- <-]. lia.
    + destruct_step r σ1 Hstep; [|done]. intros Hrest.
      apply IH in Hrest.
      pose proof (map_size_insert (point_key env lat lon) r d) as Hsz.
      destruct (d !! point_key env lat lon); unfold id in Hsz; lia.
Qed.

(** The two entry points, once their dataset is loaded and non-empty. *)
Lemma amber_loaded netcdf_folder_pattern variables file_name_pattern start_year
    end_year points max_points ds :
  _load_amber_data env netcdf_folder_pattern file_name_pattern start_year end_year
  = Ok (Some ds) →
  truthy (Some ds) = true →
  extract_amber_data env netcdf_folder_pattern variables file_name_pattern
    start_year end_year points max_points
  = match amber_loop env ds variables max_points points 0 None ∅ [] with
    | Ok (amber_df_dict, count, σ) =>
        _ ← read_local count; Ok (contents σ amber_df_dict)
    | Raise e => Raise e
    end.
Proof.
  intros Hload Ht. unfold extract_amber_data.
  rewrite Hload. cbn [mbind result_bind load]. rewrite Ht. cbn [negb].
  by destruct (amber_loop _ _ _ _ _ _ _ _ _) as [[[??]?]|].
Qed.

Lemma forecast_loaded netcdf_folder_pattern variables file_name_pattern points
    ensemble max_points ds :
  _load_forecast_data env netcdf_folder_pattern file_name_pattern ensemble
  = Ok (Some ds) →
  truthy (Some ds) = true →
  extract_forecast_data env netcdf_folder_pattern variables file_name_pattern
    points ensemble max_points
  = match forecast_loop env ds variables max_points points 0 None ∅ [] with
    | Ok (forecast_df_dict, count, σ) =>
        _ ← read_local count; Ok (contents σ forecast_df_dict)
    | Raise e => Raise e
    end.
Proof.
  intros Hload Ht. unfold extract_forecast_data.
  rewrite Hload. cbn [mbind result_bind load]. rewrite Ht. cbn [negb].
  by destruct (forecast_loop _ _ _ _ _ _ _ _ _) as [[[??]?]|].
Qed.

Lemma amber_zero_cap netcdf_folder_pattern variables file_name_pattern start_year
    end_year points :
  extract_amber_data env netcdf_folder_pattern variables file_name_pattern
    start_year end_year points (Some 0)
  = extract_amber_data env netcdf_folder_pattern variables file_name_pattern
      start_year end_year points None.
Proof.
  unfold extract_amber_data.
  destruct (_load_amber_data env _ _ _ _ ≫= load) as [[ds|]|]; [|done..].
  cbn [mbind result_bind]. destruct (negb _); [done|].
  by rewrite amber_loop_zero_cap.
Qed.

Lemma forecast_zero_cap netcdf_folder_pattern variables file_name_pattern points
    ensemble :
  extract_forecast_data env netcdf_folder_pattern variables file_name_pattern
    points ensemble (Some 0)
  = extract_forecast_data env netcdf_folder_pattern variables file_name_pattern
      points ensemble None.
Proof.
  unfold extract_forecast_data.
  destruct (_load_forecast_data env _ _ _ ≫= load) as [[ds|]|]; [|done..].
  cbn [mbind result_bind]. destruct (negb _); [done|].
  by rewrite forecast_loop_zero_cap.
Qed.

Lemma amber_size netcdf_folder_pattern variables file_name_pattern start_year
    end_year points m (d : gmap string DataFrame) :
  0 < m →
  extract_amber_data env netcdf_folder_pattern variables file_name_pattern
    start_year end_year points (Some m) = Ok d →
  (size d ≤ Z.to_nat m)%nat.
Proof.
  intros Hm. unfold extract_amber_data.
  intros ([ds|] & _ & H)%bind_result_Ok;
    [|injection H as <-; rewrite map_size_empty; lia].
  destruct (negb _); [injection H as <-; rewrite map_size_empty; lia|].
  apply bind_result_Ok in H as ([[d' c] σ'] & Hloop & H).
  apply bind_result_Ok in H as (? & _ & [= <-]).
  apply amber_loop_cap in Hloop; [|done].
  rewrite map_size_empty in Hloop.
  pose proof (size_contents σ' d'). lia.
Qed.

Lemma forecast_size netcdf_folder_pattern variables file_name_pattern points
    ensemble m (d : gmap string DataFrame) :
  0 < m →
  extract_forecast_data env netcdf_folder_pattern variables file_name_pattern
    points ensemble (Some m) = Ok d →
  (size d ≤ Z.to_nat m)%nat.
Proof.
  intros Hm. unfold extract_forecast_data.
  intros ([ds|] & _ & H)%bind_result_Ok;
    [|injection H as <-; rewrite map_size_empty; lia].
  destruct (negb _); [injection H as <-; rewrite map_size_empty; lia|].
  apply bind_result_Ok in H as ([[d' c] σ'] & Hloop & H).
  apply bind_result_Ok in H as (? & _ & [= <-]).
  apply forecast_loop_cap in Hloop; [|done].
  rewrite map_size_empty in Hloop.
  pose proof (size_contents σ' d'). lia.
Qed.

Lemma amber_None_dom netcdf_folder_pattern variables file_name_pattern start_year
    end_year points ds (d : gmap string DataFrame) :
  _load_amber_data env netcdf_folder_pattern file_name_pattern start_year end_year
  = Ok (Some ds) →
  truthy (Some ds) = true →
  extract_amber_data env netcdf_folder_pattern variables file_name_pattern
    start_year end_year points None = Ok d →
  dom d = list_to_set ((λ p, point_key env p.1 p.2) <$> points).
Proof.
  intros Hload Ht. rewrite (amber_loaded _ _ _ _ _ _ _ ds) by done.
  destruct (amber_loop _ _ _ _ _ _ _ _ _) as [[[d' c] σ']|] eqn:Hloop; [|done].
  intros (? & _ & [= <-])%bind_result_Ok.
  apply amber_loop_None_Ok in Hloop as (Hdom & Hv & _); [|apply refs_below_empty].
  rewrite dom_contents by done. rewrite Hdom. set_solver.
Qed.

Lemma forecast_None_dom netcdf_folder_pattern variables file_name_pattern points
    ensemble ds (d : gmap string DataFrame) :
  _load_forecast_data env netcdf_folder_pattern file_name_pattern ensemble
  = Ok (Some ds) →
  truthy (Some ds) = true →
  extract_forecast_data env netcdf_folder_pattern variables file_name_pattern
    points ensemble None = Ok d →
  dom d = list_to_set ((λ p, point_key env p.1 p.2) <$> points).
Proof.
  intros Hload Ht. rewrite (forecast_loaded _ _ _ _ _ _ ds) by done.
  destruct (forecast_loop _ _ _ _ _ _ _ _ _) as [[[d' c] σ']|] eqn:Hloop; [|done].
  intros (? & _ & [= <-])%bind_result_Ok.
  apply forecast_loop_None_Ok in Hloop as (Hdom & Hv & _); [|apply refs_below_empty].
  rewrite dom_contents by done. rewrite Hdom. set_solver.
Qed.

End amber_forecast_facts.

(** * Missing files and empty masks *)

Section degenerate_facts.

Context (env : Env).

Lemma load_netcdf_no_files folder file_pattern start_year end_year :
  (∀ p, glob env p = []) →
  ClimateDataExtractorWithParallel._load_netcdf_data env folder file_pattern
    start_year end_year = Ok None.
Proof.
  intros Hglob. unfold ClimateDataExtractorWithParallel._load_netcdf_data.
  rewrite (join_nil_2 _); [done|].
  apply Forall_fmap, Forall_forall. intros year _. cbn. apply Hglob.
Qed.

Lemma load_amber_no_files folder_pattern file_name_pattern start_year end_year :
  (∀ p, path_exists env p = false) →
  ClimateDataExtractor._load_amber_data env folder_pattern file_name_pattern
    start_year end_year = Ok None.
Proof.
  intros Hex. unfold ClimateDataExtractor._load_amber_data.
  assert (∀ l : list Z,
    omap (λ year,
        if path_exists env
             (path_join env (format_year env folder_pattern year)
                (format_year env file_name_pattern year))
        then Some (path_join env (format_year env folder_pattern year)
                     (format_year env file_name_pattern year))
        else None) l = []) as ->; [|done].
  intros l. induction l as [|y t IH]; [done|]. cbn. by rewrite Hex.
Qed.

Lemma load_forecast_no_file folder_pattern file_name_pattern ensemble :
  (∀ p, path_exists env p = false) →
  ClimateDataExtractor._load_forecast_data env folder_pattern file_name_pattern
    ensemble = Ok None.
Proof.
  intros Hex. unfold ClimateDataExtractor._load_forecast_data. by rewrite Hex.
Qed.

(** Without any file the parallel entry point returns the empty mapping. *)
Lemma parallel_no_files netcdf_folder variables file_name_pattern start_year
    end_year mask_path batch_size max_points mask :
  np_load env mask_path = Ok mask →
  (∀ p, glob env p = []) →
  ClimateDataExtractorWithParallel.extract_variables_over_years_parallel env
    netcdf_folder variables file_name_pattern start_year end_year mask_path
    batch_size max_points = Ok ∅.
Proof.
  intros Hmask Hglob.
  unfold ClimateDataExtractorWithParallel.extract_variables_over_years_parallel.
  rewrite Hmask. cbn [mbind result_bind].
  by rewrite !load_netcdf_no_files.
Qed.

(** The other three call [.load()] on what the loader returned before they
    test it. *)
Lemma sequential_no_files netcdf_folder variables file_name_pattern start_year
    end_year mask_path max_points mask :
  np_load env mask_path = Ok mask →
  (∀ p, glob env p = []) →
  ClimateDataExtractorWithParallel.extract_variables_over_years env
    netcdf_folder variables file_name_pattern start_year end_year mask_path
    max_points = Raise AttributeError.
Proof.
  intros Hmask Hglob.
  unfold ClimateDataExtractorWithParallel.extract_variables_over_years.
  rewrite Hmask. cbn [mbind result_bind].
  rewrite !load_netcdf_no_files by done. reflexivity.
Qed.

Lemma amber_no_files netcdf_folder_pattern variables file_name_pattern start_year
    end_year points max_points :
  (∀ p, path_exists env p = false) →
  ClimateDataExtractor.extract_amber_data env netcdf_folder_pattern variables
    file_name_pattern start_year end_year points max_points
  = Raise AttributeError.
Proof.
  intros Hex. unfold ClimateDataExtractor.extract_amber_data.
  rewrite load_amber_no_files by done. reflexivity.
Qed.

Lemma forecast_no_file netcdf_folder_pattern variables file_name_pattern points
    ensemble max_points :
  (∀ p, path_exists env p = false) →
  ClimateDataExtractor.extract_forecast_data env netcdf_folder_pattern variables
    file_name_pattern points ensemble max_points
  = Raise AttributeError.
Proof.
  intros Hex. unfold ClimateDataExtractor.extract_forecast_data.
  rewrite load_forecast_no_file by done. reflexivity.
Qed.

Lemma omap_imap_nil {A B C} (F : nat → A → B) (G : B → option C)
    (P : A → Prop) (l : list A) :
  (∀ i x, P x → G (F i x) = None) → Forall P l → omap G (imap F l) = [].
Proof.
  revert F. induction l as [|x t IH]; intros F HF Hl; [done|].
  apply Forall_cons in Hl as [Hx Ht]. cbn. rewrite HF by done.
  apply IH; [|done]. intros i y Hy. by apply HF.
Qed.

Lemma join_imap_nil {A B} (F : nat → A → list B) (P : A → Prop) (l : list A) :
  (∀ i x, P x → F i x = []) → Forall P l → mjoin (imap F l) = [].
Proof.
  revert F. induction l as [|x t IH]; intros F HF Hl; [done|].
  apply Forall_cons in Hl as [Hx Ht]. cbn. rewrite HF by done.
  apply IH; [|done]. intros i y Hy. by apply HF.
Qed.

Lemma true_cells_all_false (mask : Mask) :
  Forall (Forall (λ c, c = false)) mask → true_cells mask = [].
Proof.
  intros Hall. unfold true_cells.
  apply (join_imap_nil _ (Forall (λ c, c = false))); [|done].
  intros i row Hrow.
  apply (omap_imap_nil _ _ (λ c, c = false)); [|done].
  by intros j c ->.
Qed.

(** On an empty point sequence the sequential loops never bind [count],
    and the closing [print] raises. *)
Lemma sequential_empty_mask netcdf_folder variables file_name_pattern start_year
    end_year mask_path max_points mask hds fds :
  np_load env mask_path = Ok mask →
  ClimateDataExtractorWithParallel._load_netcdf_data env netcdf_folder
    file_name_pattern start_year end_year = Ok (Some hds) →
  ClimateDataExtractorWithParallel._load_netcdf_data env
    ClimateDataExtractorWithParallel.forecast_folder "combined.nc" 2024 2024
  = Ok (Some fds) →
  truthy (Some hds) = true → truthy (Some fds) = true →
  Forall (Forall (λ c, c = false)) mask →
  ClimateDataExtractorWithParallel.extract_variables_over_years env
    netcdf_folder variables file_name_pattern start_year end_year mask_path
    max_points = Raise UnboundLocalError.
Proof.
  intros Hmask Hh Hf Hth Htf Hall.
  rewrite (sequential_loaded env _ _ _ _ _ _ _ mask hds fds) by done.
  by rewrite true_cells_all_false.
Qed.

Lemma amber_empty_points netcdf_folder_pattern variables file_name_pattern
    start_year end_year max_points ds :
  ClimateDataExtractor._load_amber_data env netcdf_folder_pattern
    file_name_pattern start_year end_year = Ok (Some ds) →
  truthy (Some ds) = true →
  ClimateDataExtractor.extract_amber_data env netcdf_folder_pattern variables
    file_name_pattern start_year end_year [] max_points
  = Raise UnboundLocalError.
Proof. intros Hload Ht. by rewrite (amber_loaded env _ _ _ _ _ _ _ ds). Qed.

Lemma forecast_empty_points netcdf_folder_pattern variables file_name_pattern
    ensemble max_points ds :
  ClimateDataExtractor._load_forecast_data env netcdf_folder_pattern
    file_name_pattern ensemble = Ok (Some ds) →
  truthy (Some ds) = true →
  ClimateDataExtractor.extract_forecast_data env netcdf_folder_pattern variables
    file_name_pattern [] ensemble max_points
  = Raise UnboundLocalError.
Proof. intros Hload Ht. by rewrite (forecast_loaded env _ _ _ _ _ _ ds). Qed.

(** The parallel entry point reports [len(df_dict)] instead and returns the
    empty mapping. *)
Lemma parallel_empty_mask netcdf_folder variables file_name_pattern start_year
    end_year mask_path batch_size max_points mask hds fds :
  (∀ A (l : list A), as_completed env A l ≡ₚ l) →
  (∀ b, batch_size = Some b → b ≠ 0) →
  np_load env mask_path = Ok mask →
  ClimateDataExtractorWithParallel._load_netcdf_data env netcdf_folder
    file_name_pattern start_year end_year = Ok (Some hds) →
  ClimateDataExtractorWithParallel._load_netcdf_data env
    ClimateDataExtractorWithParallel.forecast_folder "combined.nc" 2024 2024
  = Ok (Some fds) →
  truthy (Some hds) = true → truthy (Some fds) = true →
  Forall (Forall (λ c, c = false)) mask →
  ClimateDataExtractorWithParallel.extract_variables_over_years_parallel env
    netcdf_folder variables file_name_pattern start_year end_year mask_path
    batch_size max_points = Ok ∅.
Proof.
  intros Hperm Hbs Hmask Hh Hf Hth Htf Hall.
  rewrite (parallel_loaded env _ _ _ _ _ _ _ _ mask hds fds) by done.
  unfold ClimateDataExtractorWithParallel.submissions.
  rewrite np_where_cells, true_cells_all_false by done. cbn [fmap list_fmap length].
  set (b := default _ batch_size).
  assert (b ≠ 0) as Hb.
  { unfold b. destruct batch_size as [x|]; cbn; [by apply Hbs|].
    pose proof (default_batch_size_pos env mask). lia. }
  assert (py_range_step 0 b = Ok []) as ->.
  { unfold py_range_step. rewrite decide_False by done.
    case_decide; [done|].
    replace ((0 + Z.to_nat b - 1) `div` Z.to_nat b)%nat with 0%nat; [done|].
    symmetry. apply Nat.div_small. lia. }
  cbn [mbind result_bind ClimateDataExtractorWithParallel.submit_loop
       fmap list_fmap].
  by rewrite (proj1 (Permutation_nil_r _) (Hperm _ [])).
Qed.

End degenerate_facts.


(** * Missing files, empty masks and the zero cap at the entry points *)

Section entry_point_properties.

Import ClimateDataExtractorWithParallel.

(** C8 on the code.  With no backing file at all every loader returns "no
    dataset"; the parallel entry point then returns the empty mapping, but
    the other three entry points raise [AttributeError]: they call
    [.load()] on the loader's result before testing it. *)
Theorem no_files_entry_points :
  let env := example_env [] forecast_frame ten_mask in
  _load_netcdf_data env "netcdf_files/combined" "amber_{year}.nc" 2023 2024
  = Ok None
  ∧ ClimateDataExtractor._load_amber_data env "netcdf_files/amber/{year}"
      "amber_{year}.nc" 2023 2024 = Ok None
  ∧ ClimateDataExtractor._load_forecast_data env "forecasts/{ensemble}"
      "merged_{ensemble}.nc" "r1i1p1" = Ok None
  ∧ extract_variables_over_years_parallel env "netcdf_files/combined"
      all_variables "amber_{year}.nc" 2023 2024 "mask.npy" (Some 3) (Some 5)
    = Ok ∅
  ∧ extract_variables_over_years env "netcdf_files/combined"
      all_variables "amber_{year}.nc" 2023 2024 "mask.npy" (Some 5)
    = Raise AttributeError
  ∧ ClimateDataExtractor.extract_amber_data env "netcdf_files/amber/{year}"
      all_variables "amber_{year}.nc" 2023 2024 ten_points (Some 5)
    = Raise AttributeError
  ∧ ClimateDataExtractor.extract_forecast_data env "forecasts/{ensemble}"
      all_variables "merged_{ensemble}.nc" ten_points "r1i1p1" (Some 5)
    = Raise AttributeError.
Proof.
  intros env.
  assert (∀ p, glob env p = []) as Hglob by done.
  assert (∀ p, path_exists env p = false) as Hex by done.
  split_and!.
  - by apply load_netcdf_no_files.
  - by apply load_amber_no_files.
  - by apply load_forecast_no_file.
  - by apply (parallel_no_files env _ _ _ _ _ _ _ _ ten_mask).
  - by apply (sequential_no_files env _ _ _ _ _ _ _ ten_mask).
  - by apply amber_no_files.
  - by apply forecast_no_file.
Qed.

(** C9 on the code.  With an all-false mask (no valid point) and both
    datasets present, the parallel entry point returns the empty mapping;
    the sequential entry point, and the two extraction-only entry points on
    an empty point sequence, raise [UnboundLocalError]: their closing
    [print] reads the loop variable [count], which no iteration bound. *)
Theorem empty_mask_entry_points :
  let env := example_env ["f.nc"] forecast_frame empty_mask in
  valid_points (dataset_of forecast_frame) empty_mask = Ok []
  ∧ extract_variables_over_years_parallel env "netcdf_files/combined"
      all_variables "amber_{year}.nc" 2023 2024 "mask.npy" None None
    = Ok ∅
  ∧ extract_variables_over_years env "netcdf_files/combined"
      all_variables "amber_{year}.nc" 2023 2024 "mask.npy" None
    = Raise UnboundLocalError
  ∧ ClimateDataExtractor.extract_amber_data env "netcdf_files/amber/{year}"
      all_variables "amber_{year}.nc" 2023 2024 [] None
    = Raise UnboundLocalError
  ∧ ClimateDataExtractor.extract_forecast_data env "forecasts/{ensemble}"
      all_variables "merged_{ensemble}.nc" [] "r1i1p1" None
    = Raise UnboundLocalError.
Proof.
  intros env.
  assert (Forall (Forall (λ c, c = false)) empty_mask) as Hall
    by (repeat constructor).
  assert (∀ A (l : list A), as_completed env A l ≡ₚ l) as Hperm
    by (intros A l; apply reverse_Permutation).
  split_and!.
  - reflexivity.
  - by apply (parallel_empty_mask env _ _ _ _ _ _ _ _ empty_mask
                (dataset_of forecast_frame) (dataset_of forecast_frame)).
  - by apply (sequential_empty_mask env _ _ _ _ _ _ _ empty_mask
                (dataset_of forecast_frame) (dataset_of forecast_frame)).
  - by apply (amber_empty_points env _ _ _ _ _ _ (dataset_of forecast_frame)).
  - by apply (forecast_empty_points env _ _ _ _ _ (dataset_of forecast_frame)).
Qed.

(** C10: a cap of 0 is no cap.  The batch processor and the four entry
    points behave with [max_points = 0] exactly as without a cap, and then
    (datasets loaded, the mask within the grid) the returned mapping has the
    key of every point; under a positive cap [m] it has at most [m]
    entries. *)
Theorem zero_cap_is_no_cap env :
  (∀ A (l : list A), as_completed env A l ≡ₚ l) →
  (* the cap 0 behaves as no cap *)
  (∀ hds fds variables lats lons σ,
     _process_point_batch env hds fds variables lats lons (Some 0) σ
     = _process_point_batch env hds fds variables lats lons None σ)
  ∧ (∀ nf variables pat sy ey mask_path,
       extract_variables_over_years env nf variables pat sy ey mask_path (Some 0)
       = extract_variables_over_years env nf variables pat sy ey mask_path None)
  ∧ (∀ nf variables pat sy ey mask_path batch_size,
       extract_variables_over_years_parallel env nf variables pat sy ey
         mask_path batch_size (Some 0)
       = extract_variables_over_years_parallel env nf variables pat sy ey
           mask_path batch_size None)
  ∧ (∀ nf variables pat sy ey points,
       ClimateDataExtractor.extract_amber_data env nf variables pat sy ey
         points (Some 0)
       = ClimateDataExtractor.extract_amber_data env nf variables pat sy ey
           points None)
  ∧ (∀ nf variables pat points ensemble,
       ClimateDataExtractor.extract_forecast_data env nf variables pat points
         ensemble (Some 0)
       = ClimateDataExtractor.extract_forecast_data env nf variables pat points
           ensemble None)
  (* and every point is then processed *)
  ∧ (∀ hds fds variables lats lons r,
       submit env hds fds variables lats lons (Some 0) = Ok r →
       dom r = list_to_set ((λ p, point_key env p.1 p.2) <$> zip lats lons))
  ∧ (∀ nf variables pat sy ey mask_path mask hds fds d,
       np_load env mask_path = Ok mask →
       _load_netcdf_data env nf pat sy ey = Ok (Some hds) →
       _load_netcdf_data env forecast_folder "combined.nc" 2024 2024
       = Ok (Some fds) →
       truthy (Some hds) = true → truthy (Some fds) = true →
       extract_variables_over_years env nf variables pat sy ey mask_path (Some 0)
       = Ok d →
       ∃ pts, valid_points hds mask = Ok pts
         ∧ dom d = list_to_set ((λ p, point_key env p.1 p.2) <$> pts))
  ∧ (∀ nf variables pat sy ey mask_path batch_size mask hds fds pts d,
       (∀ b, batch_size = Some b → 1 ≤ b) →
       np_load env mask_path = Ok mask →
       _load_netcdf_data env nf pat sy ey = Ok (Some hds) →
       _load_netcdf_data env forecast_folder "combined.nc" 2024 2024
       = Ok (Some fds) →
       truthy (Some hds) = true → truthy (Some fds) = true →
       valid_points hds mask = Ok pts →
       extract_variables_over_years_parallel env nf variables pat sy ey
         mask_path batch_size (Some 0) = Ok d →
       dom d = list_to_set ((λ p, point_key env p.1 p.2) <$> pts))
  ∧ (∀ nf variables pat sy ey points ds d,
       ClimateDataExtractor._load_amber_data env nf pat sy ey = Ok (Some ds) →
       truthy (Some ds) = true →
       ClimateDataExtractor.extract_amber_data env nf variables pat sy ey
         points (Some 0) = Ok d →
       dom d = list_to_set
                 ((λ p, ClimateDataExtractor.point_key env p.1 p.2) <$> points))
  ∧ (∀ nf variables pat points ensemble ds d,
       ClimateDataExtractor._load_forecast_data env nf pat ensemble
       = Ok (Some ds) →
       truthy (Some ds) = true →
       ClimateDataExtractor.extract_forecast_data env nf variables pat points
         ensemble (Some 0) = Ok d →
       dom d = list_to_set
                 ((λ p, ClimateDataExtractor.point_key env p.1 p.2) <$> points))
  (* whereas a positive cap bounds the number of entries *)
  ∧ (∀ m, 0 < m →
       (∀ hds fds variables lats lons r,
          submit env hds fds variables lats lons (Some m) = Ok r →
          (size r ≤ Z.to_nat m)%nat)
       ∧ (∀ nf variables pat sy ey mask_path d,
            extract_variables_over_years env nf variables pat sy ey mask_path
              (Some m) = Ok d →
            (size d ≤ Z.to_nat m)%nat)
       ∧ (∀ nf variables pat sy ey mask_path batch_size d,
            extract_variables_over_years_parallel env nf variables pat sy ey
              mask_path batch_size (Some m) = Ok d →
            (size d ≤ Z.to_nat m)%nat)
       ∧ (∀ nf variables pat sy ey points d,
            ClimateDataExtractor.extract_amber_data env nf variables pat sy ey
              points (Some m) = Ok d →
            (size d ≤ Z.to_nat m)%nat)
       ∧ (∀ nf variables pat points ensemble d,
            ClimateDataExtractor.extract_forecast_data env nf variables pat
              points ensemble (Some m) = Ok d →
            (size d ≤ Z.to_nat m)%nat)).
Proof.
  intros Hperm. split_and!.
  - intros. unfold _process_point_batch. apply batch_loop_zero_cap.
  - intros. apply sequential_zero_cap.
  - intros. apply parallel_zero_cap.
  - intros. apply amber_zero_cap.
  - intros. apply forecast_zero_cap.
  - intros hds fds variables lats lons r Hr.
    by apply submit_dom in Hr; [|intros ? [= <-]].
  - intros nf variables pat sy ey mask_path mask hds fds d ? ? ? ? ?.
    rewrite sequential_zero_cap. by eapply sequential_None_dom.
  - intros nf variables pat sy ey mask_path batch_size mask hds fds pts d ? ? ? ? ? ? ?.
    rewrite parallel_zero_cap. by eapply parallel_None_dom.
  - intros nf variables pat sy ey points ds d ? ?.
    rewrite amber_zero_cap. by eapply amber_None_dom.
  - intros nf variables pat points ensemble ds d ? ?.
    rewrite forecast_zero_cap. by eapply forecast_None_dom.
  - intros m Hm. split_and!.
    + intros hds fds variables lats lons r. by apply submit_size.
    + intros nf variables pat sy ey mask_path d. by apply sequential_size.
    + intros nf variables pat sy ey mask_path batch_size d Hd.
      destruct (parallel_Ok env _ _ _ _ _ _ _ _ d Hperm Hd)
        as [->|(mask & hds & fds & subs & _ & _ & _ & Hsubs & Hdom)].
      * rewrite map_size_empty. lia.
      * destruct (submissions_cap _ _ _ _ _ _ Hm Hsubs) as [_ H2].
        rewrite <- size_dom, Hdom. etrans; [apply size_list_to_set_le|].
        rewrite length_fmap, length_join_fmap. done.
    + intros nf variables pat sy ey points d. by apply amber_size.
    + intros nf variables pat points ensemble d. by apply forecast_size.
Qed.

Lemma zero_cap_is_no_cap_witness :
  let env := example_env ["f.nc"] forecast_frame ten_mask in
  (∀ A (l : list A), as_completed env A l ≡ₚ l)
  ∧ ∃ d, extract_variables_over_years_parallel env "netcdf_files/combined"
           all_variables "amber_{year}.nc" 2023 2024 "mask.npy"
           (Some 3) (Some 0) = Ok d
         ∧ dom d = list_to_set ((λ p, point_key env p.1 p.2) <$> ten_points).
Proof.
  intros env.
  assert (∀ A (l : list A), as_completed env A l ≡ₚ l) as Hperm
    by (intros A l; apply reverse_Permutation).
  split; [exact Hperm|].
  destruct (extract_variables_over_years_parallel env "netcdf_files/combined"
              all_variables "amber_{year}.nc" 2023 2024 "mask.npy"
              (Some 3) (Some 0)) as [d|e] eqn:Hrun.
  - exists d. split; [reflexivity|].
    destruct (zero_cap_is_no_cap env Hperm)
      as (_ & _ & _ & _ & _ & _ & _ & Hpar & _).
    apply (Hpar "netcdf_files/combined" all_variables "amber_{year}.nc"
             2023 2024 "mask.npy" (Some 3) ten_mask
             (dataset_of forecast_frame) (dataset_of forecast_frame));
      try reflexivity; [|exact Hrun].
    intros b [= <-]. lia.
  - vm_compute in Hrun. discriminate Hrun.
Defined.

Example zero_cap_ten_of_ten :
  let env := example_env ["f.nc"] forecast_frame ten_mask in
  (size <$> extract_variables_over_years_parallel env "netcdf_files/combined"
              all_variables "amber_{year}.nc" 2023 2024 "mask.npy"
              (Some 3) (Some 0) : result nat) = Ok 10%nat
  ∧ (size <$> extract_variables_over_years env "netcdf_files/combined"
              all_variables "amber_{year}.nc" 2023 2024 "mask.npy"
              (Some 0) : result nat) = Ok 10%nat.
Proof. split; vm_compute; reflexivity. Qed.

End entry_point_properties.

(** * More on the series combiner *)

Section combiner_more.

Import ClimateDataExtractorWithParallel.

Implicit Types (rws : list (date * list float64)) (idx seen : list date).
Implicit Types (h f : DataFrame).

Lemma keep_first_elem seen rws d :
  d ∈ (keep_first seen rws).*1 ↔ d ∈ rws.*1 ∧ d ∉ seen.
Proof.
  split; [intros [??]%keep_first_fresh; done|].
  revert seen. induction rws as [|r t IH]; intros seen [Hd Hs].
  - by apply elem_of_nil in Hd.
  - rewrite fmap_cons in Hd. cbn [keep_first].
    destruct (decide (r.1 = d)) as [<-|Hne].
    + rewrite bool_decide_eq_false_2 by done. rewrite fmap_cons. by left.
    + apply elem_of_cons in Hd as [?|Hd]; [done|].
      case_bool_decide; [|rewrite fmap_cons; right];
        apply IH; (split; [done|]); set_solver.
Qed.

Lemma combine_ascending h f D :
  columns h = columns f →
  is_monotonic_increasing (index h) = true →
  last_valid_index h = Some D →
  _combine_dataframes h f
  = Ok (mkDataFrame (columns h)
          (keep_first [] (filter (λ r, r.1 ≤ D) (rows h) ++ rows f))).
Proof.
  intros Hc Hs Hlast.
  rewrite combine_unfold, Hlast, loc_to_sorted
    by (done || by apply last_valid_index_elem).
  cbn [mbind result_bind]. by rewrite dedup_concat_same_columns.
Qed.

(** X2: the dates of the combined series: the historical dates up to the
    last valid index together with the forecast dates; none is lost and none
    is made up. *)
Theorem combine_dates h f D r :
  columns h = columns f →
  is_monotonic_increasing (index h) = true →
  last_valid_index h = Some D →
  _combine_dataframes h f = Ok r →
  ∀ d, d ∈ index r ↔ (d ∈ index h ∧ d ≤ D) ∨ d ∈ index f.
Proof.
  intros Hc Hs Hlast. rewrite (combine_ascending h f D) by done.
  intros [= <-] d. unfold index. cbn [rows].
  rewrite keep_first_elem, fmap_app, elem_of_app.
  rewrite !list_elem_of_fmap. setoid_rewrite list_elem_of_filter.
  split.
  - intros [[(x & -> & ? & ?)|?] _]; [left|by right]. split; [by exists x|done].
  - intros [[(x & -> & ?) ?]|?]; (split; [|apply not_elem_of_nil]).
    + left. by exists x.
    + by right.
Qed.

Lemma combine_dates_witness :
  let h := frame1 [(1, 5%float); (2, 6%float); (3, PrimFloat.nan)] in
  let f := frame1 [(2, 7%float); (3, 8%float); (4, 9%float)] in
  let r := frame1 [(1, 5%float); (2, 6%float); (3, 8%float); (4, 9%float)] in
  columns h = columns f
  ∧ is_monotonic_increasing (index h) = true
  ∧ last_valid_index h = Some 2
  ∧ _combine_dataframes h f = Ok r
  ∧ ∀ d, d ∈ index r ↔ (d ∈ index h ∧ d ≤ 2) ∨ d ∈ index f.
Proof.
  intros h f r. do 4 (split; [reflexivity|]).
  apply (combine_dates h f 2 r); reflexivity.
Defined.

(** X3: when no forecast date is among the retained historical dates and
    neither side repeats a date, the combined series is the retained
    historical rows followed by the forecast rows. *)
Theorem combine_disjoint h f D :
  columns h = columns f →
  is_monotonic_increasing (index h) = true →
  last_valid_index h = Some D →
  NoDup (index h) → NoDup (index f) →
  (∀ d, d ∈ index f → d ∈ index h → D < d) →
  _combine_dataframes h f
  = Ok (mkDataFrame (columns h) (filter (λ r, r.1 ≤ D) (rows h) ++ rows f)).
Proof.
  intros Hc Hs Hlast Hnh Hnf Hdisj.
  rewrite (combine_ascending h f D) by done. do 2 f_equal.
  assert (NoDup (filter (λ r, r.1 ≤ D) (rows h)).*1) as Hnhf.
  { clear -Hnh. unfold index in Hnh.
    induction (rows h) as [|x t IH]; [constructor|].
    rewrite fmap_cons in Hnh. apply NoDup_cons in Hnh as [Hx Ht].
    rewrite filter_cons. case_decide; [|by apply IH].
    rewrite fmap_cons. apply NoDup_cons. split; [|by apply IH].
    intros (y & Hy & [_ Hin]%list_elem_of_filter)%list_elem_of_fmap.
    apply Hx. rewrite Hy. by apply list_elem_of_fmap_2. }
  rewrite keep_first_app, app_nil_r.
  rewrite keep_first_id; [|done|intros; apply not_elem_of_nil].
  f_equal. apply keep_first_id; [done|].
  intros d Hd (x & -> & [Hle Hin]%list_elem_of_filter)%list_elem_of_fmap.
  specialize (Hdisj x.1 Hd (list_elem_of_fmap_2 fst _ _ Hin)). lia.
Qed.

Lemma combine_disjoint_witness :
  let h := frame1 [(1, 5%float); (2, PrimFloat.nan)] in
  let f := frame1 [(2, 7%float); (3, 8%float)] in
  _combine_dataframes h f
  = Ok (frame1 [(1, 5%float); (2, 7%float); (3, 8%float)]).
Proof.
  intros h f. apply (combine_disjoint h f 1); try reflexivity.
  - by apply (bool_decide_unpack _).
  - by apply (bool_decide_unpack _).
  - intros d Hf Hh. change (index f) with [2; 3] in Hf.
    change (index h) with [1; 2] in Hh. set_unfold. lia.
Defined.

(** X4: an empty historical series contributes nothing: with a forecast
    series that repeats no date the combined series is the forecast series. *)
Theorem combine_empty_historical h f :
  rows h = [] → columns h = columns f → NoDup (index f) →
  _combine_dataframes h f = Ok f.
Proof.
  intros Hrows Hc Hnf.
  rewrite combine_all_missing by (done || rewrite Hrows; constructor).
  rewrite Hrows, app_nil_l.
  rewrite keep_first_id; [|done|intros; apply not_elem_of_nil].
  rewrite Hc. by destruct f.
Qed.

Lemma combine_empty_historical_witness :
  let f := frame1 [(2, 7%float); (3, 8%float)] in
  _combine_dataframes (frame1 []) f = Ok f.
Proof.
  intros f. apply (combine_empty_historical (frame1 []) f); try reflexivity.
  by apply (bool_decide_unpack _).
Defined.

Lemma combine_index_NoDup_witness :
  NoDup (index (frame1 [(1, 5%float); (2, 8%float)])).
Proof.
  apply (combine_index_NoDup
           (frame1 [(1, 5%float); (2, PrimFloat.nan)])
           (frame1 [(1, 7%float); (2, 8%float)])).
  reflexivity.
Defined.

End combiner_more.


Section scattered_facts.

Import ClimateDataExtractorWithParallel.

Implicit Types (idx : list date) (h f : DataFrame).

Lemma drop_run_elem D idx :
  D ∈ drop_while (λ d, bool_decide (d = D)) idx
  ↔ ∃ mid post x, idx = mid ++ D :: post ∧ x ∈ mid ∧ x ≠ D.
Proof.
  induction idx as [|a t IH]; cbn [drop_while].
  - split; [by intros ?%elem_of_nil|].
    intros (mid & post & x & Heq & _). by destruct mid.
  - case_bool_decide as Ha.
    + subst a. rewrite IH. split.
      * intros (mid & post & x & -> & Hx & Hne).
        exists (D :: mid), post, x. split_and!; [done|by right|done].
      * intros (mid & post & x & Heq & Hx & Hne).
        destruct mid as [|b mid]; [by apply elem_of_nil in Hx|].
        injection Heq as Hb Ht. subst b t.
        apply elem_of_cons in Hx as [?|Hx]; [done|]. by exists mid, post, x.
    + split.
      * intros [?|Hin]%elem_of_cons; [done|].
        apply list_elem_of_split in Hin as (m & post & ->).
        exists (a :: m), post, a. split_and!; [done|by left|done].
      * intros (mid & post & x & Heq & _). rewrite Heq.
        apply elem_of_app. right. by left.
Qed.

Lemma scattered_head D t :
  scattered D (D :: t)
  ↔ ∃ mid post x, t = mid ++ D :: post ∧ x ∈ mid ∧ x ≠ D.
Proof.
  split.
  - intros (pre & mid & post & x & Heq & Hx & Hne).
    destruct pre as [|b pre].
    + injection Heq as ->. by exists mid, post, x.
    + injection Heq as Hb ->. subst b. exists (pre ++ D :: mid), post, x.
      split_and!; [by rewrite <-app_assoc|set_solver|done].
  - intros (mid & post & x & -> & Hx & Hne). by exists [], mid, post, x.
Qed.

Lemma drop_run_scattered D idx :
  D ∈ drop_while (λ d, bool_decide (d = D))
        (drop_while (λ d, negb (bool_decide (d = D))) idx)
  ↔ scattered D idx.
Proof.
  induction idx as [|a t IH]; cbn [drop_while].
  - split; [by intros ?%elem_of_nil|].
    intros (pre & mid & post & x & Heq & _). by destruct pre.
  - case_bool_decide as Ha; cbn [negb].
    + subst a. cbn [drop_while]. rewrite bool_decide_eq_true_2 by done.
      by rewrite drop_run_elem, scattered_head.
    + rewrite IH. split.
      * intros (pre & mid & post & x & -> & Hx & Hne).
        by exists (a :: pre), mid, post, x.
      * intros (pre & mid & post & x & Heq & Hx & Hne).
        destruct pre as [|b pre]; [by injection Heq|].
        injection Heq as Hb ->. by exists pre, mid, post, x.
Qed.

Lemma take_run_nonempty D idx :
  D ∈ idx →
  take_while (λ d, bool_decide (d = D))
    (drop_while (λ d, negb (bool_decide (d = D))) idx) ≠ [].
Proof.
  induction idx as [|a t IH]; [by intros ?%elem_of_nil|].
  intros Hin. cbn [drop_while]. case_bool_decide as Ha; cbn [negb].
  - cbn [take_while]. by rewrite bool_decide_eq_true_2.
  - apply elem_of_cons in Hin as [?|?]; [done|]. by apply IH.
Qed.

Lemma existsb_elem (D : date) (l : list date) :
  existsb (λ d, bool_decide (d = D)) l = true ↔ D ∈ l.
Proof.
  rewrite existsb_exists. setoid_rewrite <-list_elem_of_In. split.
  - by intros (x & Hx & ->%bool_decide_eq_true).
  - intros ?. exists D. by rewrite bool_decide_eq_true.
Qed.

Lemma get_slice_bound_right_scattered D idx :
  D ∈ idx →
  (scattered D idx → get_slice_bound_right idx D = Raise KeyError)
  ∧ (¬ scattered D idx → ∃ n, get_slice_bound_right idx D = Ok n).
Proof.
  intros Hin. unfold get_slice_bound_right.
  pose proof (take_run_nonempty D idx Hin) as Hrun.
  destruct (take_while _ (drop_while _ idx)) as [|x run]; [done|].
  rewrite <-drop_run_scattered, <-existsb_elem.
  destruct (existsb _ _); split; try done.
  by eexists.
Qed.

(** X5: the combiner raises [KeyError] exactly when the last valid date of
    the historical series occurs in two places of its index that are
    separated by another date; in every other case it returns a series. *)
Theorem combine_KeyError_iff_scattered h f D :
  columns h = columns f →
  last_valid_index h = Some D →
  (scattered D (index h) → _combine_dataframes h f = Raise KeyError)
  ∧ (¬ scattered D (index h) → ∃ r, _combine_dataframes h f = Ok r).
Proof.
  intros Hc Hlast. rewrite combine_unfold, Hlast. cbn [loc_to].
  destruct (get_slice_bound_right_scattered D (index h)) as [Hs Hn];
    [by apply last_valid_index_elem|].
  split.
  - intros HS. by rewrite (Hs HS).
  - intros HS. destruct (Hn HS) as [n ->]. cbn [mbind result_bind].
    rewrite dedup_concat_same_columns by done. by eexists.
Qed.

Lemma combine_KeyError_iff_scattered_witness :
  let h := frame1 [(1, 1%float); (2, 2%float); (1, 3%float)] in
  columns h = columns h
  ∧ last_valid_index h = Some 1
  ∧ (scattered 1 (index h) → _combine_dataframes h h = Raise KeyError)
  ∧ (¬ scattered 1 (index h) → ∃ r, _combine_dataframes h h = Ok r).
Proof.
  intros h. split; [reflexivity|]. split; [reflexivity|].
  apply (combine_KeyError_iff_scattered h h 1); reflexivity.
Defined.

End scattered_facts.


(** * The frames in the returned mapping *)

Section fill_facts.

Context {P : Type} (F : P → result DataFrame) (key : P → string).

Implicit Types (pts : list P) (acc d : gmap string DataFrame).

Lemma fill_app pts1 pts2 acc :
  fill F key (pts1 ++ pts2) acc
  = (acc' ← fill F key pts1 acc; fill F key pts2 acc').
Proof.
  revert acc. induction pts1 as [|p t IH]; intros acc; [done|].
  cbn [app fill]. destruct (F p) as [c|]; [|done]. cbn. apply IH.
Qed.

Lemma fill_all_Ok pts acc :
  (∀ p, p ∈ pts → ∃ c, F p = Ok c) → ∃ d, fill F key pts acc = Ok d.
Proof.
  revert acc. induction pts as [|p t IH]; intros acc Hall; [by eexists|].
  cbn [fill]. destruct (Hall p) as [c ->]; [by left|]. cbn.
  apply IH. intros q Hq. apply Hall. by right.
Qed.

Lemma fill_Ok_all pts acc d :
  fill F key pts acc = Ok d → ∀ p, p ∈ pts → ∃ c, F p = Ok c.
Proof.
  revert acc. induction pts as [|p t IH]; intros acc; [by intros _ ? ?%elem_of_nil|].
  cbn [fill]. destruct (F p) as [c|] eqn:Hp; [|done]. cbn.
  intros Hd q [->|Hq]%elem_of_cons; [by exists c|by eapply IH].
Qed.

Lemma fill_first_failure pts1 p pts2 acc e :
  (∀ q, q ∈ pts1 → ∃ c, F q = Ok c) → F p = Raise e →
  fill F key (pts1 ++ p :: pts2) acc = Raise e.
Proof.
  intros Hall Hp. rewrite fill_app.
  destruct (fill_all_Ok pts1 acc Hall) as [d ->]. cbn. by rewrite Hp.
Qed.

Lemma fill_lookup pts acc d k c :
  fill F key pts acc = Ok d → d !! k = Some c →
  acc !! k = Some c ∨ ∃ p, p ∈ pts ∧ key p = k ∧ F p = Ok c.
Proof.
  revert acc. induction pts as [|p t IH]; intros acc.
  - intros [= <-] ?. by left.
  - cbn [fill]. destruct (F p) as [c0|] eqn:Hp; [|done]. cbn.
    intros Hd Hk. destruct (IH _ Hd Hk) as [Hacc|(q & Hq & Hkq & HFq)].
    + destruct (decide (key p = k)) as [<-|Hne].
      * rewrite lookup_insert_eq in Hacc. injection Hacc as <-.
        right. exists p. split_and!; [by left|done|done].
      * rewrite lookup_insert_ne in Hacc by done. by left.
    + right. exists q. split_and!; [by right|done|done].
Qed.

Lemma fill_dom pts acc d :
  fill F key pts acc = Ok d →
  dom d = dom acc ∪ list_to_set (key <$> pts).
Proof.
  revert acc. induction pts as [|p t IH]; intros acc.
  - intros [= <-]. set_solver.
  - cbn [fill]. destruct (F p) as [c0|] eqn:Hp; [|done]. cbn.
    intros ->%IH. rewrite dom_insert_L. set_solver.
Qed.

(** With distinct keys, what is found under a key is the frame of the
    point that has the key. *)
Lemma fill_spec pts d :
  NoDup (key <$> pts) →
  fill F key pts ∅ = Ok d →
  ∀ k c, d !! k = Some c ↔ ∃ p, p ∈ pts ∧ key p = k ∧ F p = Ok c.
Proof.
  intros Hnd Hd k c. split.
  - intros Hk. destruct (fill_lookup _ _ _ _ _ Hd Hk) as [Hk'|?]; [|done].
    by rewrite lookup_empty in Hk'.
  - intros (p & Hp & <- & HFp).
    assert (key p ∈ dom d) as [c' Hc']%elem_of_dom.
    { rewrite (fill_dom _ _ _ Hd). apply elem_of_union_r, elem_of_list_to_set.
      by apply list_elem_of_fmap_2. }
    destruct (fill_lookup _ _ _ _ _ Hd Hc') as [Hk'|(q & Hq & Hkq & HFq)].
    { by rewrite lookup_empty in Hk'. }
    assert (q = p) as ->; [|congruence].
    apply list_elem_of_lookup in Hq as [i Hi].
    apply list_elem_of_lookup in Hp as [j Hj].
    assert (i = j) as ->; [|congruence].
    eapply NoDup_lookup; [exact Hnd| |];
      rewrite list_lookup_fmap; [by rewrite Hi|by rewrite Hj, Hkq].
Qed.

End fill_facts.

Section value_facts.

Import ClimateDataExtractorWithParallel.

Context (env : Env).

Implicit Types (σ : store) (d : gmap string nat).
Implicit Types (points : list (float * float)).

Lemma contents_app σ σ' d :
  refs_below (length σ) d → contents (σ ++ σ') d = contents σ d.
Proof.
  intros Hv. apply map_eq. intros k. unfold contents. rewrite !lookup_omap.
  destruct (d !! k) as [r|] eqn:Hk; [|done]. cbn.
  apply lookup_app_l. exact (Hv k r Hk).
Qed.

Lemma contents_insert σ d k (r : nat) c :
  σ !! r = Some c → contents σ (<[k:=r]> d) = <[k:=c]> (contents σ d).
Proof. intros Hr. unfold contents. by apply omap_insert_Some. Qed.

(** The binding a processed point adds, seen through the store. *)
Lemma contents_new σ d k objs c :
  refs_below (length σ) d →
  contents (σ ++ objs ++ [c]) (<[k:=(length σ + length objs)%nat]> d)
  = <[k:=c]> (contents σ d).
Proof.
  intros Hv. rewrite (contents_insert _ _ _ _ c).
  - by rewrite contents_app.
  - rewrite app_assoc, lookup_app_r by (rewrite length_app; lia).
    rewrite length_app. by replace (_ - _)%nat with 0%nat by lia.
Qed.

Lemma convert_value σ (r : nat) df :
  σ !! r = Some df →
  _convert_forecast_to_historical_units r σ
  = match converted df with
    | Ok df' => Ok (r, <[r:=df']> σ)
    | Raise e => Raise e
    end.
Proof.
  intros Hr. unfold _convert_forecast_to_historical_units, converted.
  unfold setitem_op, mbind, M_bind, result_bind, get, lift, put, mret, M_ret.
  rewrite Hr.
  destruct (update_columns _ _ df) as [df1|]; [|done].
  rewrite list_lookup_insert_eq by by eapply lookup_lt_Some.
  destruct (update_columns _ _ df1) as [df2|]; [|done].
  by rewrite list_insert_insert_eq.
Qed.

Lemma process_point_value hds fds variables lat lon d σ :
  match combined_at hds fds variables (lat, lon) with
  | Ok c =>
      ∃ objs, process_point env hds fds variables lat lon d σ
              = Ok (<[point_key env lat lon := (length σ + length objs)%nat]> d,
                    σ ++ objs ++ [c])
  | Raise e => process_point env hds fds variables lat lon d σ = Raise e
  end.
Proof.
  unfold combined_at, converted_at, process_point, _extract_point_data.
  cbn [fst snd].
  destruct (point_frame hds variables lat lon) as [h|]; [|done].
  cbn [mbind result_bind].
  destruct (point_frame fds variables lat lon) as [f|]; [|done].
  cbn [mbind result_bind].
  unfold mbind, M_bind, result_bind, lift, new, get, mret, M_ret.
  rewrite (convert_value _ _ f)
    by (rewrite lookup_app_r by done; by rewrite Nat.sub_diag).
  destruct (converted f) as [f'|]; [|done].
  rewrite insert_app_r_alt, Nat.sub_diag by done. cbn [insert list_insert].
  assert (((σ ++ [h]) ++ [f']) !! length σ = Some h) as ->.
  { rewrite <-app_assoc. by rewrite lookup_app_r, Nat.sub_diag. }
  assert (((σ ++ [h]) ++ [f']) !! length (σ ++ [h]) = Some f') as ->.
  { by rewrite lookup_app_r, Nat.sub_diag. }
  destruct (_combine_dataframes h f') as [c|]; [|done].
  exists [h; f']. rewrite !length_app. cbn [length].
  rewrite <-!app_assoc. cbn [app]. do 3 f_equal. lia.
Qed.

Lemma batch_loop_within_budget hds fds variables max_points points d σ :
  batch_loop env hds fds variables max_points points 0 d σ
  = batch_loop env hds fds variables None (within_budget max_points points) 0 d σ.
Proof.
  destruct max_points as [m|]; [|done]. unfold within_budget.
  case_decide as Hz; [subst m; apply batch_loop_zero_cap|].
  destruct (decide (0 < m)) as [Hm|Hm].
  - rewrite batch_loop_budget by done. by rewrite Nat.sub_0_r.
  - replace (Z.to_nat m) with 0%nat by lia. rewrite take_0.
    destruct points as [|[lat lon] rest]; [done|].
    cbn [batch_loop cap_reached]. rewrite bool_decide_eq_true_2 by done.
    by replace (m <=? Z.of_nat 0) with true by (symmetry; apply Z.leb_le; lia).
Qed.

Lemma batch_loop_value hds fds variables points i d σ :
  refs_below (length σ) d →
  match fill (combined_at hds fds variables) (λ p, point_key env p.1 p.2)
          points (contents σ d) with
  | Ok acc =>
      ∃ d' σ', batch_loop env hds fds variables None points i d σ = Ok (d', σ')
               ∧ contents σ' d' = acc
  | Raise e => batch_loop env hds fds variables None points i d σ = Raise e
  end.
Proof.
  revert i d σ. induction points as [|[lat lon] rest IH]; intros i d σ Hv.
  - cbn. by eexists _, _.
  - cbn [fill batch_loop cap_reached].
    pose proof (process_point_value hds fds variables lat lon d σ) as Hstep.
    set (k := λ batch_results,
           batch_loop env hds fds variables None rest (S i) batch_results).
    change ((process_point env hds fds variables lat lon d ≫= k) σ)
      with (match process_point env hds fds variables lat lon d σ with
            | Ok (a, σ') => k a σ'
            | Raise e => Raise e
            end).
    destruct (combined_at hds fds variables (lat, lon)) as [c|e];
      cbn [mbind result_bind fst snd].
    + destruct Hstep as [objs ->]. unfold k.
      rewrite <-(contents_new σ d _ objs c) by done. apply IH.
      apply refs_below_insert.
      * eapply refs_below_mono; [done|]. rewrite length_app. lia.
      * rewrite !length_app. cbn [length]. lia.
    + by rewrite Hstep.
Qed.

(** What a worker sends back. *)
Lemma submit_fill hds fds variables lats lons max_points :
  submit env hds fds variables lats lons max_points
  = fill (combined_at hds fds variables) (λ p, point_key env p.1 p.2)
      (within_budget max_points (zip lats lons)) ∅.
Proof.
  unfold submit, _process_point_batch. rewrite batch_loop_within_budget.
  pose proof (batch_loop_value hds fds variables
                (within_budget max_points (zip lats lons)) 0 ∅ []
                (refs_below_empty _)) as H.
  change (contents [] ∅) with (∅ : gmap string DataFrame) in H.
  destruct (fill _ _ _ _) as [acc|e].
  - by destruct H as (d' & σ' & -> & <-).
  - by rewrite H.
Qed.

End value_facts.


Section loop_facts.

Context {X P : Type} (G : X → result P) (F : P → result DataFrame)
        (key : P → string)
        (step : X → gmap string nat → M (gmap string nat)).

Implicit Types (σ : store) (d : gmap string nat) (items : list X) (pts : list P).

Lemma within_budget_remaining {A} max_points (l : list A) :
  within_budget max_points l = remaining max_points 0 l.
Proof.
  unfold within_budget, remaining. destruct max_points as [m|]; [|done].
  case_decide; [done|]. by rewrite Nat.sub_0_r.
Qed.

Lemma remaining_reached {A} max_points count (l : list A) :
  cap_reached max_points count = true → remaining max_points count l = [].
Proof.
  unfold cap_reached, remaining. destruct max_points as [m|]; [|done].
  intros [Hm%bool_decide_eq_true Hle%Z.leb_le]%andb_true_iff.
  rewrite decide_False by done.
  replace (Z.to_nat m - count)%nat with 0%nat by lia. done.
Qed.

Lemma remaining_cons {A} max_points count (x : A) (l : list A) :
  cap_reached max_points count = false →
  remaining max_points count (x :: l) = x :: remaining max_points (S count) l.
Proof.
  unfold cap_reached, remaining. destruct max_points as [m|]; [|done].
  case_decide as Hm; [done|]. rewrite bool_decide_eq_true_2 by done.
  cbn [andb]. intros Hle%Z.leb_gt.
  replace (Z.to_nat m - count)%nat with (S (Z.to_nat m - S count)) by lia.
  done.
Qed.

(** For a step that stores the frame of the item's point in a new object
    and binds the point's key to it, the loop fills the dictionary with the
    frames of the points the cap leaves. *)
Lemma counted_loop_value max_points items pts count bound d σ :
  (∀ x p d σ,
     G x = Ok p →
     match F p with
     | Ok c => ∃ objs, step x d σ
                       = Ok (<[key p := (length σ + length objs)%nat]> d,
                             σ ++ objs ++ [c])
     | Raise e => step x d σ = Raise e
     end) →
  refs_below (length σ) d →
  mapM_result G items = Ok pts →
  match fill F key (remaining max_points count pts) (contents σ d) with
  | Ok acc =>
      ∃ d' c σ',
        counted_loop step max_points items count bound d σ = Ok ((d', c), σ')
        ∧ contents σ' d' = acc
        ∧ (items ≠ [] → is_Some c)
  | Raise e => counted_loop step max_points items count bound d σ = Raise e
  end.
Proof.
  intros step_value. revert pts count bound d σ.
  induction items as [|x rest IH]; intros pts count bound d σ Hv Hpts.
  - injection Hpts as <-.
    replace (remaining max_points count []) with (@nil P)
      by (unfold remaining; destruct max_points; [case_decide|];
          by rewrite ?take_nil).
    cbn. by eexists _, _, _.
  - cbn [mapM_result] in Hpts.
    apply bind_result_Ok in Hpts as (p & Hp & Hpts).
    apply bind_result_Ok in Hpts as (ps & Hps & [= <-]).
    cbn [counted_loop].
    destruct (cap_reached max_points count) eqn:Hcap.
    + rewrite remaining_reached by done. cbn.
      eexists _, _, _. split_and!; [done..|]. by eexists.
    + rewrite remaining_cons by done. cbn [fill].
      set (k := λ df_dict, counted_loop step max_points rest (S count)
                             (Some count) df_dict).
      change ((step x d ≫= k) σ)
        with (match step x d σ with
              | Ok (a, σ') => k a σ'
              | Raise e => Raise e
              end).
      pose proof (step_value x p d σ Hp) as Hstep.
      destruct (F p) as [c|e]; cbn [mbind result_bind].
      * destruct Hstep as [objs ->]. unfold k.
        rewrite <-(contents_new σ d _ objs c) by done.
        specialize (IH ps (S count) (Some count)
                      (<[key p:=(length σ + length objs)%nat]> d)
                      (σ ++ objs ++ [c])).
        destruct (fill F key _ _) as [acc|e].
        -- destruct IH as (d' & c' & σ' & Hrun & Hacc & Hc'); [|done|].
           { apply refs_below_insert.
             - eapply refs_below_mono; [done|]. rewrite length_app. lia.
             - rewrite !length_app. cbn [length]. lia. }
           exists d', c', σ'. split_and!; [done..|].
           intros _. destruct rest; [|by apply Hc'].
           cbn in Hrun. injection Hrun as _ <- _. by eexists.
        -- apply IH; [|done].
           apply refs_below_insert.
           ++ eapply refs_below_mono; [done|]. rewrite length_app. lia.
           ++ rewrite !length_app. cbn [length]. lia.
      * by rewrite Hstep.
Qed.

End loop_facts.

Section sequential_values.

Import ClimateDataExtractorWithParallel.

Context (env : Env).

Implicit Types (σ : store) (d : gmap string nat).

Lemma extract_loop_counted hds fds variables max_points cells count bound d σ :
  extract_loop env hds fds variables max_points cells count bound d σ
  = counted_loop (λ ij, extract_point env hds fds variables ij.1 ij.2)
      max_points cells count bound d σ.
Proof.
  revert count bound d σ.
  induction cells as [|[i j] rest IH]; intros count bound d σ; [done|].
  cbn [extract_loop counted_loop fst snd].
  destruct (cap_reached max_points count); [done|].
  unfold mbind, M_bind.
  destruct (extract_point _ _ _ _ _ _ _ _) as [[d1 σ1]|]; [apply IH|done].
Qed.

Lemma extract_point_value hds fds variables (ij : nat * nat) p d σ :
  grid_point (lat_values hds) (lon_values hds) ij = Ok p →
  match combined_at hds fds variables p with
  | Ok c =>
      ∃ objs, extract_point env hds fds variables ij.1 ij.2 d σ
              = Ok (<[point_key env p.1 p.2 := (length σ + length objs)%nat]> d,
                    σ ++ objs ++ [c])
  | Raise e => extract_point env hds fds variables ij.1 ij.2 d σ = Raise e
  end.
Proof.
  unfold grid_point.
  intros (lat & Hlat & (lon & Hlon & [= <-])%bind_result_Ok)%bind_result_Ok.
  unfold combined_at, converted_at, extract_point, _extract_point_data, copy.
  cbn [fst snd].
  unfold mbind, M_bind, result_bind, lift, new, get, mret, M_ret.
  rewrite Hlat, Hlon.
  destruct (point_frame hds variables lat lon) as [h|]; [|done].
  destruct (point_frame fds variables lat lon) as [f|]; [|done].
  assert (((σ ++ [h]) ++ [f]) !! length (σ ++ [h]) = Some f) as ->.
  { by rewrite lookup_app_r, Nat.sub_diag. }
  rewrite (convert_value _ _ f)
    by (rewrite lookup_app_r by done; by rewrite Nat.sub_diag).
  destruct (converted f) as [f'|]; [|done].
  rewrite insert_app_r_alt, Nat.sub_diag by done. cbn [insert list_insert].
  assert ((((σ ++ [h]) ++ [f]) ++ [f']) !! length σ = Some h) as ->.
  { rewrite <-!app_assoc. by rewrite lookup_app_r, Nat.sub_diag. }
  assert ((((σ ++ [h]) ++ [f]) ++ [f']) !! length ((σ ++ [h]) ++ [f]) = Some f')
    as ->.
  { by rewrite lookup_app_r, Nat.sub_diag. }
  destruct (_combine_dataframes h f') as [c|]; [|done].
  exists [h; f; f']. rewrite !length_app. cbn [length].
  rewrite <-!app_assoc. cbn [app]. do 3 f_equal. lia.
Qed.

(** The sequential entry point on loaded datasets and a mask with a valid
    point. *)
Lemma sequential_fill netcdf_folder variables file_name_pattern start_year
    end_year mask_path max_points mask hds fds pts :
  np_load env mask_path = Ok mask →
  _load_netcdf_data env netcdf_folder file_name_pattern start_year end_year
  = Ok (Some hds) →
  _load_netcdf_data env forecast_folder "combined.nc" 2024 2024 = Ok (Some fds) →
  truthy (Some hds) = true → truthy (Some fds) = true →
  valid_points hds mask = Ok pts → pts ≠ [] →
  extract_variables_over_years env netcdf_folder variables file_name_pattern
    start_year end_year mask_path max_points
  = fill (combined_at hds fds variables) (λ p, point_key env p.1 p.2)
      (within_budget max_points pts) ∅.
Proof.
  intros Hmask Hh Hf Hth Htf Hpts Hne.
  rewrite (sequential_loaded _ _ _ _ _ _ _ _ mask hds fds) by done.
  rewrite extract_loop_counted, within_budget_remaining.
  pose proof (counted_loop_value
                (grid_point (lat_values hds) (lon_values hds))
                (combined_at hds fds variables) (λ p, point_key env p.1 p.2)
                (λ ij, extract_point env hds fds variables ij.1 ij.2)
                max_points (true_cells mask) pts 0 None ∅ []) as H.
  change (contents [] ∅) with (∅ : gmap string DataFrame) in H.
  destruct (fill _ _ _ _) as [acc|e].
  - destruct H as (d' & c & σ' & -> & <- & Hc);
      [by apply extract_point_value|apply refs_below_empty|done|].
    destruct Hc as [n ->]; [|done].
    intros Heq. unfold valid_points in Hpts. rewrite Heq in Hpts.
    by injection Hpts as <-.
  - rewrite H; [done|by apply extract_point_value|apply refs_below_empty|done].
Qed.

End sequential_values.

Section parallel_values.

Import ClimateDataExtractorWithParallel.

Implicit Types (subs : list Submission).

(** Under a positive cap the workers together process the first points of
    the slices the loop runs over, as many as the cap leaves. *)
Lemma submit_loop_cap_join lats lons cells pts (b : nat) m k0 len pp :
  (0 < b)%nat → 0 < m →
  mapM_result (grid_point lats lons) cells = Ok pts →
  ∃ subs,
    submit_loop lats lons cells.*1 cells.*2 (Z.of_nat b) (Some m)
      ((λ k, (k * b)%nat) <$> seq k0 len) pp = Ok subs
    ∧ mjoin (processed <$> subs)
      = take (Z.to_nat m - pp) (take (len * b) (drop (k0 * b) pts)).
Proof.
  intros Hb Hm Hpts. revert k0 pp.
  induction len as [|len IH]; intros k0 pp.
  - exists []. split; [done|]. by rewrite take_0, take_nil.
  - cbn [seq fmap list_fmap submit_loop]. rewrite cap_reached_pos by done.
    case_bool_decide as Hcap.
    { exists []. split; [done|].
      by replace (Z.to_nat m - pp)%nat with 0%nat by lia. }
    rewrite fancy_index_lat, fancy_index_lon, zip_slices, zip_fst_snd.
    rewrite (mapM_result_take _ _ _ b (mapM_result_drop _ _ _ (k0 * b) Hpts)).
    cbn [fmap result_fmap mbind result_bind]. rewrite length_fmap.
    set (ps := take b (drop (k0 * b) pts)).
    destruct (IH (S k0) (pp + length ps)%nat) as (later & -> & Hjoin).
    cbn [mbind result_bind]. eexists. split; [done|].
    rewrite decide_True by lia.
    rewrite fmap_cons.
    change (mjoin (?x :: ?l)) with (x ++ mjoin l). rewrite Hjoin.
    unfold processed at 1, within_budget, batch_points.
    cbn [budget lat_batch lon_batch]. rewrite zip_fst_snd.
    rewrite decide_False by lia.
    replace (S len * b)%nat with (b + len * b)%nat by lia.
    rewrite <-(take_take_drop (drop (k0 * b) pts) b (len * b)).
    fold ps. rewrite drop_drop, take_app.
    replace (k0 * b + b)%nat with (S k0 * b)%nat by lia.
    f_equal; f_equal; lia.
Qed.

Lemma submit_loop_negative_cap lats lons vi vj b m starts :
  m < 0 → submit_loop lats lons vi vj b (Some m) starts 0 = Ok [].
Proof.
  intros Hm. destruct starts as [|i rest]; [done|].
  cbn [submit_loop cap_reached].
  rewrite bool_decide_eq_true_2 by lia. cbn [andb].
  by replace (m <=? Z.of_nat 0) with true by (symmetry; apply Z.leb_le; lia).
Qed.

(** Whatever the cap, the points the workers process are, in submission
    order, the points the cap leaves of the valid-point sequence. *)
Lemma submissions_processed env hds mask (batch_size : option Z) max_points pts :
  (∀ b, batch_size = Some b → 1 ≤ b) →
  valid_points hds mask = Ok pts →
  ∃ subs, submissions env hds mask batch_size max_points = Ok subs
    ∧ mjoin (processed <$> subs) = within_budget max_points pts.
Proof.
  intros Hbs Hpts.
  assert (∃ subs, submissions env hds mask batch_size None = Ok subs
            ∧ mjoin (processed <$> subs) = pts) as Hnone.
  { destruct (submissions_no_cap env hds mask batch_size pts Hbs Hpts) as [_ Heq].
    eexists. split; [exact Heq|].
    destruct (batches_join env hds mask batch_size pts _ Hbs Hpts Heq) as [Hj Hb].
    rewrite <-Hj at 2. f_equal. apply list_fmap_ext. intros i s Hs.
    unfold processed. rewrite (Hb s); [done|]. by eapply list_elem_of_lookup_2. }
  destruct max_points as [m|]; [|done]. unfold within_budget.
  case_decide as Hz; [subst m; by rewrite submissions_zero_cap|].
  assert (1 ≤ default (default_batch_size env mask) batch_size) as HB.
  { destruct batch_size as [x|]; cbn; [by apply Hbs|apply default_batch_size_pos]. }
  set (b := Z.to_nat (default (default_batch_size env mask) batch_size)).
  assert (default (default_batch_size env mask) batch_size = Z.of_nat b) as HBb
    by (unfold b; lia).
  unfold submissions. rewrite np_where_cells, HBb.
  rewrite py_range_step_pos by lia. cbn [mbind result_bind].
  destruct (decide (0 < m)) as [Hm|Hm].
  - unfold valid_points in Hpts.
    destruct (submit_loop_cap_join (lat_values hds) (lon_values hds)
                (true_cells mask) pts b m 0
                ((length (true_cells mask).*1 + b - 1) `div` b) 0)
      as (subs & Hsubs & Hjoin); [lia|done|done|].
    exists subs. split; [done|]. rewrite Hjoin, Nat.sub_0_r, drop_0.
    rewrite length_fmap, <-(mapM_result_length _ _ _ Hpts).
    destruct (ceil_div_bounds (length pts) b) as [Hq _]; [lia|].
    by rewrite (take_ge pts) by lia.
  - rewrite submit_loop_negative_cap by lia. exists []. split; [done|].
    by replace (Z.to_nat m) with 0%nat by lia.
Qed.

Section collecting.

Context {P : Type} (F : P → result DataFrame) (key : P → string).

Implicit Types (done : list (result (gmap string DataFrame))).
Implicit Types (acc d r : gmap string DataFrame) (chunks : list (list P)).

Lemma collect_lookup done acc d k c :
  collect done acc = Ok d → d !! k = Some c →
  acc !! k = Some c ∨ ∃ r, Ok r ∈ done ∧ r !! k = Some c.
Proof.
  revert acc. induction done as [|fut rest IH]; intros acc.
  - intros [= <-] ?. by left.
  - cbn [collect]. destruct fut as [r0|e]; [|done]. cbn.
    intros Hd Hk. destruct (IH _ Hd Hk) as [Hu|(r & Hr & Hrk)].
    + apply lookup_union_Some_raw in Hu as [?|[_ ?]]; [|by left].
      right. exists r0. split; [by left|done].
    + right. exists r. split; [by right|done].
Qed.

Lemma collect_all_Ok done acc :
  (∀ fut, fut ∈ done → ∃ r, fut = Ok r) → ∃ d, collect done acc = Ok d.
Proof.
  revert acc. induction done as [|fut rest IH]; intros acc Hall; [by eexists|].
  cbn [collect]. destruct (Hall fut) as [r ->]; [by left|]. cbn.
  apply IH. intros ??. apply Hall. by right.
Qed.

Lemma collect_Raise done acc e :
  Raise e ∈ done → ∃ e', collect done acc = Raise e'.
Proof.
  revert acc. induction done as [|fut rest IH]; intros acc; [by intros ?%elem_of_nil|].
  cbn [collect]. destruct fut as [r|e0]; [|by eexists]. cbn.
  intros [[=]|?]%elem_of_cons. by apply IH.
Qed.

(** Collecting, in any order, the dictionaries of chunks whose points have
    distinct keys gives the dictionary of the chunks laid end to end. *)
Lemma collect_fills chunks done :
  done ≡ₚ (λ l, fill F key l ∅) <$> chunks →
  NoDup (key <$> mjoin chunks) →
  (∀ p, p ∈ mjoin chunks → ∃ c, F p = Ok c) →
  collect done ∅ = fill F key (mjoin chunks) ∅.
Proof.
  intros Hperm Hnd Hall.
  destruct (fill_all_Ok F key (mjoin chunks) ∅ Hall) as [d2 Hd2].
  assert (∀ l, l ∈ chunks → ∃ r, fill F key l ∅ = Ok r) as Hchunk.
  { intros l Hl. apply fill_all_Ok. intros p Hp. apply Hall.
    apply list_elem_of_join. by exists l. }
  destruct (collect_all_Ok done ∅) as [d1 Hd1].
  { intros fut. rewrite Hperm. intros (l & -> & Hl)%list_elem_of_fmap.
    by apply Hchunk. }
  rewrite Hd1, Hd2. f_equal.
  pose proof (fill_spec F key _ _ Hnd Hd2) as Hspec2.
  assert (∀ k c, d1 !! k = Some c → d2 !! k = Some c) as Hsub.
  { intros k c Hk. apply Hspec2.
    destruct (collect_lookup _ _ _ _ _ Hd1 Hk) as [Hk'|(r & Hr & Hrk)].
    { by rewrite lookup_empty in Hk'. }
    rewrite Hperm in Hr. apply list_elem_of_fmap in Hr as (l & Hr & Hl).
    symmetry in Hr.
    destruct (fill_lookup F key _ _ _ _ _ Hr Hrk) as [Hk'|(p & Hp & ? & ?)].
    { by rewrite lookup_empty in Hk'. }
    exists p. split_and!; [|done..]. apply list_elem_of_join. by exists l. }
  apply map_eq. intros k.
  destruct (d1 !! k) as [c|] eqn:H1; [symmetry; by apply Hsub|].
  destruct (d2 !! k) as [c|] eqn:H2; [|done]. exfalso.
  apply Hspec2 in H2 as (p & (l & Hp & Hl)%list_elem_of_join & <- & HFp).
  destruct (Hchunk l Hl) as [r Hr].
  assert (key p ∈ dom d1) as [c' Hc']%elem_of_dom; [|congruence].
  apply collect_Ok in Hd1 as [_ Hdom]. apply Hdom. right. exists r. split.
  - rewrite Hperm, <-Hr. by apply (list_elem_of_fmap_2 (λ l, fill F key l ∅)).
  - rewrite (fill_dom F key _ _ _ Hr). apply elem_of_union_r, elem_of_list_to_set.
    by apply list_elem_of_fmap_2.
Qed.

Lemma collect_fills_Raise chunks done p e :
  done ≡ₚ (λ l, fill F key l ∅) <$> chunks →
  p ∈ mjoin chunks → F p = Raise e →
  ∃ e', collect done ∅ = Raise e'.
Proof.
  intros Hperm (l & Hp & Hl)%list_elem_of_join HFp.
  destruct (fill F key l ∅) as [r|e'] eqn:Hr.
  - destruct (fill_Ok_all F key _ _ _ Hr p Hp) as [c Hc]. congruence.
  - apply (collect_Raise _ _ e'). rewrite Hperm, <-Hr.
    by apply (list_elem_of_fmap_2 (λ l, fill F key l ∅)).
Qed.

End collecting.

Section coordinator_values.

Context (env : Env).

(** The parallel entry point on loaded datasets. *)
Lemma parallel_collect netcdf_folder variables file_name_pattern start_year
    end_year mask_path batch_size max_points mask hds fds pts :
  (∀ b, batch_size = Some b → 1 ≤ b) →
  np_load env mask_path = Ok mask →
  _load_netcdf_data env netcdf_folder file_name_pattern start_year end_year
  = Ok (Some hds) →
  _load_netcdf_data env forecast_folder "combined.nc" 2024 2024 = Ok (Some fds) →
  truthy (Some hds) = true → truthy (Some fds) = true →
  valid_points hds mask = Ok pts →
  ∃ chunks,
    mjoin chunks = within_budget max_points pts
    ∧ extract_variables_over_years_parallel env netcdf_folder variables
        file_name_pattern start_year end_year mask_path batch_size max_points
      = collect (as_completed env _
                   ((λ l, fill (combined_at hds fds variables)
                            (λ p, point_key env p.1 p.2) l ∅) <$> chunks)) ∅.
Proof.
  intros Hbs Hmask Hh Hf Hth Htf Hpts.
  rewrite (parallel_loaded _ _ _ _ _ _ _ _ _ mask hds fds) by done.
  destruct (submissions_processed env hds mask batch_size max_points pts Hbs Hpts)
    as (subs & -> & Hjoin).
  exists (processed <$> subs). split; [done|]. cbn [mbind result_bind].
  rewrite <-list_fmap_compose. do 2 f_equal.
  apply list_fmap_ext. intros i s _. apply submit_fill.
Qed.

Lemma parallel_fill netcdf_folder variables file_name_pattern start_year
    end_year mask_path batch_size max_points mask hds fds pts :
  (∀ A (l : list A), as_completed env A l ≡ₚ l) →
  (∀ b, batch_size = Some b → 1 ≤ b) →
  np_load env mask_path = Ok mask →
  _load_netcdf_data env netcdf_folder file_name_pattern start_year end_year
  = Ok (Some hds) →
  _load_netcdf_data env forecast_folder "combined.nc" 2024 2024 = Ok (Some fds) →
  truthy (Some hds) = true → truthy (Some fds) = true →
  valid_points hds mask = Ok pts →
  NoDup ((λ p, point_key env p.1 p.2) <$> within_budget max_points pts) →
  (∀ p, p ∈ within_budget max_points pts →
        ∃ c, combined_at hds fds variables p = Ok c) →
  extract_variables_over_years_parallel env netcdf_folder variables
    file_name_pattern start_year end_year mask_path batch_size max_points
  = fill (combined_at hds fds variables) (λ p, point_key env p.1 p.2)
      (within_budget max_points pts) ∅.
Proof.
  intros Hperm Hbs Hmask Hh Hf Hth Htf Hpts Hnd Hall.
  destruct (parallel_collect netcdf_folder variables file_name_pattern
              start_year end_year mask_path batch_size max_points mask hds fds
              pts Hbs Hmask Hh Hf Hth Htf Hpts) as (chunks & Hjoin & ->).
  rewrite <-Hjoin in *. by apply collect_fills.
Qed.

End coordinator_values.

End parallel_values.

(** * The two loops of [ClimateDataExtractor.py] *)

Section amber_forecast_values.

Import ClimateDataExtractor.

Implicit Types (σ : store) (d : gmap string nat).

Lemma amber_loop_counted env ds variables max_points points count bound d σ :
  amber_loop env ds variables max_points points count bound d σ
  = counted_loop
      (λ p d, amber_df ← _extract_point_data ds p.1 p.2 variables;
              mret (<[point_key env p.1 p.2 := amber_df]> d))
      max_points points count bound d σ.
Proof.
  revert count bound d σ.
  induction points as [|[lat lon] rest IH]; intros count bound d σ; [done|].
  cbn [amber_loop counted_loop fst snd].
  destruct (cap_reached max_points count); [done|].
  unfold mbind, M_bind.
  destruct (_extract_point_data ds lat lon variables σ) as [[r σ1]|]; [|done].
  cbn. apply IH.
Qed.

Lemma amber_step_value env ds variables (p : float * float) d σ :
  match point_frame ds variables p.1 p.2 with
  | Ok c =>
      ∃ objs,
        (amber_df ← _extract_point_data ds p.1 p.2 variables;
         mret (<[point_key env p.1 p.2 := amber_df]> d)) σ
        = Ok (<[point_key env p.1 p.2 := (length σ + length objs)%nat]> d,
              σ ++ objs ++ [c])
  | Raise e =>
      (amber_df ← _extract_point_data ds p.1 p.2 variables;
       mret (<[point_key env p.1 p.2 := amber_df]> d)) σ = Raise e
  end.
Proof.
  unfold _extract_point_data, mbind, M_bind, lift, new, mret, M_ret.
  destruct (point_frame ds variables p.1 p.2) as [c|]; [|done].
  exists []. cbn [length app]. by rewrite Nat.add_0_r.
Qed.

Lemma forecast_loop_counted env ds variables max_points points count bound d σ :
  forecast_loop env ds variables max_points points count bound d σ
  = counted_loop
      (λ p d, forecast_df ← _extract_point_data ds p.1 p.2 variables;
              forecast_copy ← copy forecast_df;
              forecast_df ← _convert_forecast_to_amber_units forecast_copy;
              mret (<[point_key env p.1 p.2 := forecast_df]> d))
      max_points points count bound d σ.
Proof.
  revert count bound d σ.
  induction points as [|[lat lon] rest IH]; intros count bound d σ; [done|].
  cbn [forecast_loop counted_loop fst snd].
  destruct (cap_reached max_points count); [done|].
  unfold mbind, M_bind.
  destruct (_extract_point_data ds lat lon variables σ) as [[r σ1]|]; [|done].
  destruct (copy r σ1) as [[r2 σ2]|]; [|done].
  destruct (_convert_forecast_to_amber_units r2 σ2) as [[r3 σ3]|]; [|done].
  cbn. apply IH.
Qed.

Lemma forecast_step_value env ds variables (p : float * float) d σ :
  match converted_at ds variables p with
  | Ok c =>
      ∃ objs,
        (forecast_df ← _extract_point_data ds p.1 p.2 variables;
         forecast_copy ← copy forecast_df;
         forecast_df ← _convert_forecast_to_amber_units forecast_copy;
         mret (<[point_key env p.1 p.2 := forecast_df]> d)) σ
        = Ok (<[point_key env p.1 p.2 := (length σ + length objs)%nat]> d,
              σ ++ objs ++ [c])
  | Raise e =>
      (forecast_df ← _extract_point_data ds p.1 p.2 variables;
       forecast_copy ← copy forecast_df;
       forecast_df ← _convert_forecast_to_amber_units forecast_copy;
       mret (<[point_key env p.1 p.2 := forecast_df]> d)) σ = Raise e
  end.
Proof.
  unfold converted_at, _extract_point_data, copy.
  unfold mbind, M_bind, result_bind, lift, new, get, mret, M_ret.
  destruct (point_frame ds variables p.1 p.2) as [f|]; [|done].
  assert ((σ ++ [f]) !! length σ = Some f) as ->
    by by rewrite lookup_app_r, Nat.sub_diag.
  change (_convert_forecast_to_amber_units ?r ?s)
    with (ClimateDataExtractorWithParallel._convert_forecast_to_historical_units r s).
  rewrite (convert_value _ _ f)
    by (rewrite lookup_app_r by done; by rewrite Nat.sub_diag).
  destruct (converted f) as [f'|]; [|done].
  rewrite insert_app_r_alt, Nat.sub_diag by done. cbn [insert list_insert].
  exists [f]. cbn [length]. rewrite <-!app_assoc. cbn [app].
  do 3 f_equal. rewrite length_app. cbn [length]. lia.
Qed.

(** The two entry points on a loaded dataset and a point sequence that is
    not empty. *)
Lemma amber_fill env netcdf_folder_pattern variables file_name_pattern
    start_year end_year points max_points ds :
  _load_amber_data env netcdf_folder_pattern file_name_pattern start_year end_year
  = Ok (Some ds) →
  truthy (Some ds) = true → points ≠ [] →
  extract_amber_data env netcdf_folder_pattern variables file_name_pattern
    start_year end_year points max_points
  = fill (λ p, point_frame ds variables p.1 p.2) (λ p, point_key env p.1 p.2)
      (within_budget max_points points) ∅.
Proof.
  intros Hload Ht Hne.
  rewrite (amber_loaded env _ _ _ _ _ _ _ ds) by done.
  rewrite amber_loop_counted, within_budget_remaining.
  pose proof (counted_loop_value (λ p, Ok p)
                (λ p, point_frame ds variables p.1 p.2)
                (λ p, point_key env p.1 p.2)
                (λ p d, amber_df ← _extract_point_data ds p.1 p.2 variables;
                        mret (<[point_key env p.1 p.2 := amber_df]> d))
                max_points points points 0 None ∅ []) as H.
  change (contents [] ∅) with (∅ : gmap string DataFrame) in H.
  assert (mapM_result (λ p : float * float, Ok p) points = Ok points) as Hid.
  { clear. induction points as [|p t IH]; [done|]. cbn. by rewrite IH. }
  destruct (fill _ _ _ _) as [acc|e].
  - destruct H as (d' & c & σ' & -> & <- & Hc);
      [|apply refs_below_empty|done|].
    { intros x p d σ [= <-]. apply amber_step_value. }
    by destruct Hc as [n ->].
  - rewrite H; [done| |apply refs_below_empty|done].
    intros x p d σ [= <-]. apply amber_step_value.
Qed.

Lemma forecast_fill env netcdf_folder_pattern variables file_name_pattern
    points ensemble max_points ds :
  _load_forecast_data env netcdf_folder_pattern file_name_pattern ensemble
  = Ok (Some ds) →
  truthy (Some ds) = true → points ≠ [] →
  extract_forecast_data env netcdf_folder_pattern variables file_name_pattern
    points ensemble max_points
  = fill (converted_at ds variables) (λ p, point_key env p.1 p.2)
      (within_budget max_points points) ∅.
Proof.
  intros Hload Ht Hne.
  rewrite (forecast_loaded env _ _ _ _ _ _ ds) by done.
  rewrite forecast_loop_counted, within_budget_remaining.
  pose proof (counted_loop_value (λ p, Ok p)
                (converted_at ds variables)
                (λ p, point_key env p.1 p.2)
                (λ p d, forecast_df ← _extract_point_data ds p.1 p.2 variables;
                        forecast_copy ← copy forecast_df;
                        forecast_df ← _convert_forecast_to_amber_units forecast_copy;
                        mret (<[point_key env p.1 p.2 := forecast_df]> d))
                max_points points points 0 None ∅ []) as H.
  change (contents [] ∅) with (∅ : gmap string DataFrame) in H.
  assert (mapM_result (λ p : float * float, Ok p) points = Ok points) as Hid.
  { clear. induction points as [|p t IH]; [done|]. cbn. by rewrite IH. }
  destruct (fill _ _ _ _) as [acc|e].
  - destruct H as (d' & c & σ' & -> & <- & Hc);
      [|apply refs_below_empty|done|].
    { intros x p d σ [= <-]. apply forecast_step_value. }
    by destruct Hc as [n ->].
  - rewrite H; [done| |apply refs_below_empty|done].
    intros x p d σ [= <-]. apply forecast_step_value.
Qed.

End amber_forecast_values.

(** * What the two extractions of [ClimateDataExtractorWithParallel.py] return *)

Section extraction_values.

Import ClimateDataExtractorWithParallel.

(** X8: the sequential extraction returns, under the key of each valid point
    the cap leaves, the series of that point: its historical frame combined
    with its converted forecast frame; and nothing else. *)
Theorem sequential_frames env netcdf_folder variables file_name_pattern
    start_year end_year mask_path max_points mask hds fds pts :
  np_load env mask_path = Ok mask →
  _load_netcdf_data env netcdf_folder file_name_pattern start_year end_year
  = Ok (Some hds) →
  _load_netcdf_data env forecast_folder "combined.nc" 2024 2024 = Ok (Some fds) →
  truthy (Some hds) = true → truthy (Some fds) = true →
  valid_points hds mask = Ok pts → pts ≠ [] →
  NoDup ((λ p, point_key env p.1 p.2) <$> within_budget max_points pts) →
  (∀ p, p ∈ within_budget max_points pts →
        ∃ c, combined_at hds fds variables p = Ok c) →
  ∃ d, extract_variables_over_years env netcdf_folder variables
         file_name_pattern start_year end_year mask_path max_points = Ok d
    ∧ ∀ k c, d !! k = Some c
             ↔ ∃ p, p ∈ within_budget max_points pts
                    ∧ point_key env p.1 p.2 = k
                    ∧ combined_at hds fds variables p = Ok c.
Proof.
  intros Hmask Hh Hf Hth Htf Hpts Hne Hnd Hall.
  rewrite (sequential_fill env _ _ _ _ _ _ _ mask hds fds pts) by done.
  destruct (fill_all_Ok (combined_at hds fds variables)
              (λ p, point_key env p.1 p.2) _ ∅ Hall) as [d Hd].
  exists d. split; [done|]. by apply fill_spec.
Qed.

Lemma sequential_frames_witness :
  let env := example_env ["f.nc"] forecast_frame ten_mask in
  let hds := dataset_of forecast_frame in
  ∃ d, extract_variables_over_years env "netcdf_files/combined" all_variables
         "amber_{year}.nc" 2023 2024 "mask.npy" (Some 3) = Ok d
    ∧ ∀ k c, d !! k = Some c
             ↔ ∃ p, p ∈ within_budget (Some 3) ten_points
                    ∧ point_key env p.1 p.2 = k
                    ∧ combined_at hds hds all_variables p = Ok c.
Proof.
  intros env hds.
  apply (sequential_frames env "netcdf_files/combined" all_variables
           "amber_{year}.nc" 2023 2024 "mask.npy" (Some 3) ten_mask hds hds
           ten_points); try reflexivity.
  - discriminate.
  - apply (bool_decide_unpack _). vm_compute. reflexivity.
  - intros p _. eexists. reflexivity.
Defined.

(** X9: the sequential extraction stops at the first point whose series
    cannot be computed and raises that point's error: no mapping is
    returned. *)
Theorem sequential_first_failure env netcdf_folder variables file_name_pattern
    start_year end_year mask_path max_points mask hds fds pts before p after e :
  np_load env mask_path = Ok mask →
  _load_netcdf_data env netcdf_folder file_name_pattern start_year end_year
  = Ok (Some hds) →
  _load_netcdf_data env forecast_folder "combined.nc" 2024 2024 = Ok (Some fds) →
  truthy (Some hds) = true → truthy (Some fds) = true →
  valid_points hds mask = Ok pts →
  within_budget max_points pts = before ++ p :: after →
  (∀ q, q ∈ before → ∃ c, combined_at hds fds variables q = Ok c) →
  combined_at hds fds variables p = Raise e →
  extract_variables_over_years env netcdf_folder variables file_name_pattern
    start_year end_year mask_path max_points = Raise e.
Proof.
  intros Hmask Hh Hf Hth Htf Hpts Hsplit Hbefore Hp.
  rewrite (sequential_fill env _ _ _ _ _ _ _ mask hds fds pts); try done.
  - rewrite Hsplit. by apply fill_first_failure.
  - intros ->. replace (within_budget max_points []) with (@nil (float * float))
      in Hsplit; [by destruct before|].
    unfold within_budget. destruct max_points; [case_decide|]; by rewrite ?take_nil.
Qed.

Lemma sequential_first_failure_witness :
  let env := example_env ["f.nc"] (frame1 [(1, 278.15%float)]) ten_mask in
  extract_variables_over_years env "netcdf_files/combined" ["tas"]
    "amber_{year}.nc" 2023 2024 "mask.npy" None = Raise KeyError.
Proof.
  intros env.
  apply (sequential_first_failure env "netcdf_files/combined" ["tas"]
           "amber_{year}.nc" 2023 2024 "mask.npy" None ten_mask
           (dataset_of (frame1 [(1, 278.15%float)]))
           (dataset_of (frame1 [(1, 278.15%float)]))
           ten_points [] (54, 9)%float (tail ten_points)); try reflexivity.
  by intros q ?%elem_of_nil.
Defined.

(** X10: the parallel extraction returns the same content: under the key of
    each valid point the cap leaves, the series of that point, and nothing
    else, whatever the batch size and the order in which the batches
    complete. *)
Theorem parallel_frames env netcdf_folder variables file_name_pattern
    start_year end_year mask_path batch_size max_points mask hds fds pts :
  (∀ A (l : list A), as_completed env A l ≡ₚ l) →
  (∀ b, batch_size = Some b → 1 ≤ b) →
  np_load env mask_path = Ok mask →
  _load_netcdf_data env netcdf_folder file_name_pattern start_year end_year
  = Ok (Some hds) →
  _load_netcdf_data env forecast_folder "combined.nc" 2024 2024 = Ok (Some fds) →
  truthy (Some hds) = true → truthy (Some fds) = true →
  valid_points hds mask = Ok pts →
  NoDup ((λ p, point_key env p.1 p.2) <$> within_budget max_points pts) →
  (∀ p, p ∈ within_budget max_points pts →
        ∃ c, combined_at hds fds variables p = Ok c) →
  ∃ d, extract_variables_over_years_parallel env netcdf_folder variables
         file_name_pattern start_year end_year mask_path batch_size max_points
       = Ok d
    ∧ ∀ k c, d !! k = Some c
             ↔ ∃ p, p ∈ within_budget max_points pts
                    ∧ point_key env p.1 p.2 = k
                    ∧ combined_at hds fds variables p = Ok c.
Proof.
  intros Hperm Hbs Hmask Hh Hf Hth Htf Hpts Hnd Hall.
  rewrite (parallel_fill env _ _ _ _ _ _ _ _ mask hds fds pts) by done.
  destruct (fill_all_Ok (combined_at hds fds variables)
              (λ p, point_key env p.1 p.2) _ ∅ Hall) as [d Hd].
  exists d. split; [done|]. by apply fill_spec.
Qed.

Lemma parallel_frames_witness :
  let env := example_env ["f.nc"] forecast_frame ten_mask in
  let hds := dataset_of forecast_frame in
  ∃ d, extract_variables_over_years_parallel env "netcdf_files/combined"
         all_variables "amber_{year}.nc" 2023 2024 "mask.npy" (Some 3) (Some 5)
       = Ok d
    ∧ ∀ k c, d !! k = Some c
             ↔ ∃ p, p ∈ within_budget (Some 5) ten_points
                    ∧ point_key env p.1 p.2 = k
                    ∧ combined_at hds hds all_variables p = Ok c.
Proof.
  intros env hds.
  apply (parallel_frames env "netcdf_files/combined" all_variables
           "amber_{year}.nc" 2023 2024 "mask.npy" (Some 3) (Some 5) ten_mask
           hds hds ten_points); try reflexivity.
  - intros A l. apply reverse_Permutation.
  - intros b [= <-]. lia.
  - apply (bool_decide_unpack _). vm_compute. reflexivity.
  - intros p _. eexists. reflexivity.
Defined.

(** X11: a point whose series cannot be computed makes the parallel
    extraction raise: the frames of the other batches are not returned. *)
Theorem parallel_any_failure env netcdf_folder variables file_name_pattern
    start_year end_year mask_path batch_size max_points mask hds fds pts p e :
  (∀ A (l : list A), as_completed env A l ≡ₚ l) →
  (∀ b, batch_size = Some b → 1 ≤ b) →
  np_load env mask_path = Ok mask →
  _load_netcdf_data env netcdf_folder file_name_pattern start_year end_year
  = Ok (Some hds) →
  _load_netcdf_data env forecast_folder "combined.nc" 2024 2024 = Ok (Some fds) →
  truthy (Some hds) = true → truthy (Some fds) = true →
  valid_points hds mask = Ok pts →
  p ∈ within_budget max_points pts →
  combined_at hds fds variables p = Raise e →
  ∃ e', extract_variables_over_years_parallel env netcdf_folder variables
          file_name_pattern start_year end_year mask_path batch_size max_points
        = Raise e'.
Proof.
  intros Hperm Hbs Hmask Hh Hf Hth Htf Hpts Hp He.
  destruct (parallel_collect env netcdf_folder variables file_name_pattern
              start_year end_year mask_path batch_size max_points mask hds fds
              pts Hbs Hmask Hh Hf Hth Htf Hpts) as (chunks & Hjoin & ->).
  rewrite <-Hjoin in Hp.
  by eapply (collect_fills_Raise (combined_at hds fds variables)
               (λ p, point_key env p.1 p.2) chunks).
Qed.

Lemma parallel_any_failure_witness :
  let env := example_env ["f.nc"] (frame1 [(1, 278.15%float)]) ten_mask in
  ∃ e', extract_variables_over_years_parallel env "netcdf_files/combined"
          ["tas"] "amber_{year}.nc" 2023 2024 "mask.npy" (Some 3) None
        = Raise e'.
Proof.
  intros env.
  apply (parallel_any_failure env "netcdf_files/combined" ["tas"]
           "amber_{year}.nc" 2023 2024 "mask.npy" (Some 3) None ten_mask
           (dataset_of (frame1 [(1, 278.15%float)]))
           (dataset_of (frame1 [(1, 278.15%float)]))
           ten_points (55, 11)%float KeyError); try reflexivity.
  - intros A l. apply reverse_Permutation.
  - intros b [= <-]. lia.
  - unfold within_budget, ten_points.
    do 7 apply list_elem_of_further. apply list_elem_of_here.
Defined.

(** X12: on a mask with a valid point, and when every series can be
    computed, the parallel and the sequential extraction return the same
    mapping. *)
Theorem parallel_agrees_with_sequential env netcdf_folder variables
    file_name_pattern start_year end_year mask_path batch_size max_points
    mask hds fds pts :
  (∀ A (l : list A), as_completed env A l ≡ₚ l) →
  (∀ b, batch_size = Some b → 1 ≤ b) →
  np_load env mask_path = Ok mask →
  _load_netcdf_data env netcdf_folder file_name_pattern start_year end_year
  = Ok (Some hds) →
  _load_netcdf_data env forecast_folder "combined.nc" 2024 2024 = Ok (Some fds) →
  truthy (Some hds) = true → truthy (Some fds) = true →
  valid_points hds mask = Ok pts → pts ≠ [] →
  NoDup ((λ p, point_key env p.1 p.2) <$> within_budget max_points pts) →
  (∀ p, p ∈ within_budget max_points pts →
        ∃ c, combined_at hds fds variables p = Ok c) →
  extract_variables_over_years_parallel env netcdf_folder variables
    file_name_pattern start_year end_year mask_path batch_size max_points
  = extract_variables_over_years env netcdf_folder variables file_name_pattern
      start_year end_year mask_path max_points.
Proof.
  intros Hperm Hbs Hmask Hh Hf Hth Htf Hpts Hne Hnd Hall.
  rewrite (parallel_fill env _ _ _ _ _ _ _ _ mask hds fds pts) by done.
  by rewrite (sequential_fill env _ _ _ _ _ _ _ mask hds fds pts) by done.
Qed.

Lemma parallel_agrees_with_sequential_witness :
  let env := example_env ["f.nc"] forecast_frame ten_mask in
  extract_variables_over_years_parallel env "netcdf_files/combined"
    all_variables "amber_{year}.nc" 2023 2024 "mask.npy" (Some 3) (Some 5)
  = extract_variables_over_years env "netcdf_files/combined" all_variables
      "amber_{year}.nc" 2023 2024 "mask.npy" (Some 5).
Proof.
  intros env.
  apply (parallel_agrees_with_sequential env "netcdf_files/combined"
           all_variables "amber_{year}.nc" 2023 2024 "mask.npy" (Some 3)
           (Some 5) ten_mask (dataset_of forecast_frame)
           (dataset_of forecast_frame) ten_points); try reflexivity.
  - intros A l. apply reverse_Permutation.
  - intros b [= <-]. lia.
  - discriminate.
  - apply (bool_decide_unpack _). vm_compute. reflexivity.
  - intros p _. eexists. reflexivity.
Defined.

End extraction_values.

(** * Degenerate arguments *)

Section degenerate_arguments.

Import ClimateDataExtractorWithParallel.

(** X13: a batch size of 0 makes the parallel extraction raise [ValueError]
    (the step of its range); a negative batch size makes it return the empty
    mapping without extracting anything. *)
Theorem degenerate_batch_size env netcdf_folder variables file_name_pattern
    start_year end_year mask_path max_points mask hds fds b :
  (∀ A (l : list A), as_completed env A l ≡ₚ l) →
  np_load env mask_path = Ok mask →
  _load_netcdf_data env netcdf_folder file_name_pattern start_year end_year
  = Ok (Some hds) →
  _load_netcdf_data env forecast_folder "combined.nc" 2024 2024 = Ok (Some fds) →
  truthy (Some hds) = true → truthy (Some fds) = true →
  b ≤ 0 →
  extract_variables_over_years_parallel env netcdf_folder variables
    file_name_pattern start_year end_year mask_path (Some b) max_points
  = if decide (b = 0) then Raise ValueError else Ok ∅.
Proof.
  intros Hperm Hmask Hh Hf Hth Htf Hb.
  rewrite (parallel_loaded _ _ _ _ _ _ _ _ _ mask hds fds) by done.
  unfold submissions. rewrite np_where_cells. cbn [default]. unfold py_range_step, id.
  destruct (decide (b = 0)) as [Hz|Hz]; [reflexivity|]. rewrite decide_True by lia.
  cbn [mbind result_bind submit_loop fmap list_fmap].
  by rewrite (proj1 (Permutation_nil_r _) (Hperm _ [])).
Qed.

Lemma degenerate_batch_size_witness :
  let env := example_env ["f.nc"] forecast_frame ten_mask in
  extract_variables_over_years_parallel env "netcdf_files/combined"
    all_variables "amber_{year}.nc" 2023 2024 "mask.npy" (Some 0) None
  = Raise ValueError
  ∧ extract_variables_over_years_parallel env "netcdf_files/combined"
      all_variables "amber_{year}.nc" 2023 2024 "mask.npy" (Some (-2)) None
    = Ok ∅.
Proof.
  intros env.
  assert (∀ A (l : list A), as_completed env A l ≡ₚ l) as Hperm
    by (intros A l; apply reverse_Permutation).
  split.
  - apply (degenerate_batch_size env "netcdf_files/combined" all_variables
             "amber_{year}.nc" 2023 2024 "mask.npy" None ten_mask
             (dataset_of forecast_frame) (dataset_of forecast_frame) 0 Hperm);
      (reflexivity || lia).
  - apply (degenerate_batch_size env "netcdf_files/combined" all_variables
             "amber_{year}.nc" 2023 2024 "mask.npy" None ten_mask
             (dataset_of forecast_frame) (dataset_of forecast_frame) (-2) Hperm);
      (reflexivity || lia).
Defined.

(** X14: a negative cap, unlike the cap 0, lets no point through: on a mask
    with a valid point both extractions return the empty mapping. *)
Theorem negative_cap_extracts_nothing env netcdf_folder variables
    file_name_pattern start_year end_year mask_path batch_size m mask hds fds :
  (∀ A (l : list A), as_completed env A l ≡ₚ l) →
  (∀ b, batch_size = Some b → b ≠ 0) →
  np_load env mask_path = Ok mask →
  _load_netcdf_data env netcdf_folder file_name_pattern start_year end_year
  = Ok (Some hds) →
  _load_netcdf_data env forecast_folder "combined.nc" 2024 2024 = Ok (Some fds) →
  truthy (Some hds) = true → truthy (Some fds) = true →
  true_cells mask ≠ [] →
  m < 0 →
  extract_variables_over_years_parallel env netcdf_folder variables
    file_name_pattern start_year end_year mask_path batch_size (Some m) = Ok ∅
  ∧ extract_variables_over_years env netcdf_folder variables file_name_pattern
      start_year end_year mask_path (Some m) = Ok ∅.
Proof.
  intros Hperm Hbs Hmask Hh Hf Hth Htf Hcells Hm.
  assert (∀ count, cap_reached (Some m) count = true) as Hcap.
  { intros count. unfold cap_reached. rewrite bool_decide_eq_true_2 by lia.
    cbn [andb]. apply Z.leb_le. lia. }
  split.
  - rewrite (parallel_loaded _ _ _ _ _ _ _ _ _ mask hds fds) by done.
    unfold submissions. rewrite np_where_cells.
    assert (∀ vi vj bs starts,
              submit_loop (lat_values hds) (lon_values hds) vi vj bs (Some m)
                starts 0 = Ok []) as Hloop.
    { intros vi vj bs [|i rest]; [done|]. cbn [submit_loop]. by rewrite Hcap. }
    destruct (py_range_step _ _) as [starts|] eqn:Hstarts.
    + cbn [mbind result_bind]. rewrite Hloop. cbn [mbind result_bind fmap list_fmap].
      by rewrite (proj1 (Permutation_nil_r _) (Hperm _ [])).
    + unfold py_range_step in Hstarts.
      case_decide as Hz; [|by case_decide].
      destruct batch_size as [b|]; cbn [default] in Hz.
      * by destruct (Hbs b).
      * pose proof (default_batch_size_pos env mask). lia.
  - rewrite (sequential_loaded _ _ _ _ _ _ _ _ mask hds fds) by done.
    destruct (true_cells mask) as [|[i j] rest]; [done|].
    cbn [extract_loop]. by rewrite Hcap.
Qed.

Lemma negative_cap_extracts_nothing_witness :
  let env := example_env ["f.nc"] forecast_frame ten_mask in
  extract_variables_over_years_parallel env "netcdf_files/combined"
    all_variables "amber_{year}.nc" 2023 2024 "mask.npy" (Some 3) (Some (-1))
  = Ok ∅
  ∧ extract_variables_over_years env "netcdf_files/combined" all_variables
      "amber_{year}.nc" 2023 2024 "mask.npy" (Some (-1)) = Ok ∅.
Proof.
  intros env.
  apply (negative_cap_extracts_nothing env "netcdf_files/combined"
           all_variables "amber_{year}.nc" 2023 2024 "mask.npy" (Some 3) (-1)
           ten_mask (dataset_of forecast_frame) (dataset_of forecast_frame));
    try reflexivity.
  - intros A l. apply reverse_Permutation.
  - intros b [= <-]. lia.
  - discriminate.
Defined.

(** X15: without a batch size and without a cap, on [c] processors and at
    least [c] valid points, the coordinator forms at least [c] and fewer
    than [2 c] batches. *)
Theorem default_batch_count env hds mask pts subs c :
  cpu_count env = Some c → 0 < c →
  valid_points hds mask = Ok pts →
  c ≤ Z.of_nat (length pts) →
  submissions env hds mask None None = Ok subs →
  c ≤ Z.of_nat (length subs) < 2 * c.
Proof.
  intros Hcpu Hc Hpts Hn Hsubs.
  destruct (submissions_no_cap env hds mask None pts) as [Hb Heq]; [done..|].
  rewrite Heq in Hsubs. injection Hsubs as <-.
  rewrite length_fmap, length_seq.
  cbn [default] in *.
  assert (default_batch_size env mask = Z.of_nat (length pts) `div` c) as HB.
  { unfold default_batch_size, count_nonzero. rewrite Hcpu.
    rewrite decide_False by lia.
    unfold valid_points in Hpts. rewrite <-(mapM_result_length _ _ _ Hpts).
    assert (1 ≤ Z.of_nat (length pts) `div` c); [|lia].
    apply Z.div_le_lower_bound; lia. }
  rewrite HB in *.
  set (n := length pts) in *. set (b := Z.to_nat (Z.of_nat n `div` c)) in *.
  set (q := ((n + b - 1) `div` b)%nat).
  assert (Z.of_nat b = Z.of_nat n `div` c) as Hbz.
  { unfold b. rewrite Z2Nat.id; [done|]. apply Z.div_pos; lia. }
  pose proof (Z.div_mod (Z.of_nat n) c ltac:(lia)) as Hdm.
  pose proof (Z.mod_pos_bound (Z.of_nat n) c Hc) as Hmod.
  rewrite <-Hbz in Hdm.
  destruct (ceil_div_bounds n b Hb) as [Hq1 Hq2]. fold q in Hq1, Hq2.
  split.
  - apply Z.nlt_ge. intros Hlt. nia.
  - destruct Hq2 as [Hq0|Hq2]; [lia|]. nia.
Qed.

Lemma default_batch_count_witness :
  let env := example_env ["f.nc"] forecast_frame ten_mask in
  ∃ subs, submissions env (dataset_of forecast_frame) ten_mask None None = Ok subs
    ∧ 4 ≤ Z.of_nat (length subs) < 2 * 4.
Proof.
  intros env. eexists. split; [reflexivity|].
  apply (default_batch_count env (dataset_of forecast_frame) ten_mask
           ten_points _ 4); try reflexivity. cbn. lia.
Defined.

End degenerate_arguments.

(** * What the two extractions of [ClimateDataExtractor.py] return *)

Section extraction_only_values.

Import ClimateDataExtractor.

Lemma NoDup_key_inj {P} (key : P → string) (l : list P) p q :
  NoDup (key <$> l) → p ∈ l → q ∈ l → key p = key q → p = q.
Proof.
  intros Hnd [i Hi]%list_elem_of_lookup [j Hj]%list_elem_of_lookup Hk.
  assert (i = j) as ->; [|congruence].
  eapply NoDup_lookup; [exact Hnd| |];
    rewrite list_lookup_fmap; [by rewrite Hi|by rewrite Hj, Hk].
Qed.

(** X16: the historical extraction returns, under the key of each point the
    cap leaves, the frame of the dataset at that point, as extracted. *)
Theorem amber_frames env netcdf_folder_pattern variables file_name_pattern
    start_year end_year points max_points ds :
  _load_amber_data env netcdf_folder_pattern file_name_pattern start_year end_year
  = Ok (Some ds) →
  truthy (Some ds) = true → points ≠ [] →
  NoDup ((λ p, point_key env p.1 p.2) <$> within_budget max_points points) →
  (∀ p, p ∈ within_budget max_points points →
        ∃ c, point_frame ds variables p.1 p.2 = Ok c) →
  ∃ d, extract_amber_data env netcdf_folder_pattern variables file_name_pattern
         start_year end_year points max_points = Ok d
    ∧ ∀ k c, d !! k = Some c
             ↔ ∃ p, p ∈ within_budget max_points points
                    ∧ point_key env p.1 p.2 = k
                    ∧ point_frame ds variables p.1 p.2 = Ok c.
Proof.
  intros Hload Ht Hne Hnd Hall.
  rewrite (amber_fill env _ _ _ _ _ _ _ ds) by done.
  destruct (fill_all_Ok (λ p, point_frame ds variables p.1 p.2)
              (λ p, point_key env p.1 p.2) _ ∅ Hall) as [d Hd].
  exists d. split; [done|].
  by apply (fill_spec (λ p, point_frame ds variables p.1 p.2)).
Qed.

Lemma amber_frames_witness :
  let env := example_env ["f.nc"] historical_frame ten_mask in
  ∃ d, extract_amber_data env "netcdf_files/amber/{year}" all_variables
         "amber_{year}.nc" 2023 2024 ten_points (Some 4) = Ok d
    ∧ ∀ k c, d !! k = Some c
             ↔ ∃ p, p ∈ within_budget (Some 4) ten_points
                    ∧ point_key env p.1 p.2 = k
                    ∧ point_frame (dataset_of historical_frame) all_variables
                        p.1 p.2 = Ok c.
Proof.
  intros env.
  apply (amber_frames env "netcdf_files/amber/{year}" all_variables
           "amber_{year}.nc" 2023 2024 ten_points (Some 4)
           (dataset_of historical_frame)); try reflexivity.
  - discriminate.
  - apply (bool_decide_unpack _). vm_compute. reflexivity.
  - intros p _. eexists. reflexivity.
Defined.

(** X17: the forecast extraction returns, under the key of each point the
    cap leaves, the frame of the dataset at that point in historical units. *)
Theorem forecast_frames env netcdf_folder_pattern variables file_name_pattern
    points ensemble max_points ds :
  _load_forecast_data env netcdf_folder_pattern file_name_pattern ensemble
  = Ok (Some ds) →
  truthy (Some ds) = true → points ≠ [] →
  NoDup ((λ p, point_key env p.1 p.2) <$> within_budget max_points points) →
  (∀ p, p ∈ within_budget max_points points →
        ∃ c, converted_at ds variables p = Ok c) →
  ∃ d, extract_forecast_data env netcdf_folder_pattern variables
         file_name_pattern points ensemble max_points = Ok d
    ∧ ∀ k c, d !! k = Some c
             ↔ ∃ p, p ∈ within_budget max_points points
                    ∧ point_key env p.1 p.2 = k
                    ∧ converted_at ds variables p = Ok c.
Proof.
  intros Hload Ht Hne Hnd Hall.
  rewrite (forecast_fill env _ _ _ _ _ _ ds) by done.
  destruct (fill_all_Ok (converted_at ds variables)
              (λ p, point_key env p.1 p.2) _ ∅ Hall) as [d Hd].
  exists d. split; [done|]. by apply fill_spec.
Qed.

Lemma forecast_frames_witness :
  let env := example_env ["f.nc"] forecast_frame ten_mask in
  ∃ d, extract_forecast_data env "forecasts/{ensemble}" all_variables
         "merged_{ensemble}.nc" ten_points "r1i1p1" (Some 4) = Ok d
    ∧ ∀ k c, d !! k = Some c
             ↔ ∃ p, p ∈ within_budget (Some 4) ten_points
                    ∧ point_key env p.1 p.2 = k
                    ∧ converted_at (dataset_of forecast_frame) all_variables p
                      = Ok c.
Proof.
  intros env.
  apply (forecast_frames env "forecasts/{ensemble}" all_variables
           "merged_{ensemble}.nc" ten_points "r1i1p1" (Some 4)
           (dataset_of forecast_frame)); try reflexivity.
  - discriminate.
  - apply (bool_decide_unpack _). vm_compute. reflexivity.
  - intros p _. eexists. reflexivity.
Defined.

(** X18: the two files agree: what the combined extraction of
    [ClimateDataExtractorWithParallel.py] returns under a key is the
    combination of what the historical and the forecast extraction of
    [ClimateDataExtractor.py] return under that key, on the same datasets
    and points. *)
Theorem combined_from_parts env netcdf_folder variables file_name_pattern
    start_year end_year mask_path max_points mask hds fds pts
    amber_folder_pattern amber_file_pattern forecast_folder_pattern
    forecast_file_pattern ensemble :
  np_load env mask_path = Ok mask →
  ClimateDataExtractorWithParallel._load_netcdf_data env netcdf_folder
    file_name_pattern start_year end_year = Ok (Some hds) →
  ClimateDataExtractorWithParallel._load_netcdf_data env
    ClimateDataExtractorWithParallel.forecast_folder "combined.nc" 2024 2024
  = Ok (Some fds) →
  _load_amber_data env amber_folder_pattern amber_file_pattern start_year end_year
  = Ok (Some hds) →
  _load_forecast_data env forecast_folder_pattern forecast_file_pattern ensemble
  = Ok (Some fds) →
  truthy (Some hds) = true → truthy (Some fds) = true →
  valid_points hds mask = Ok pts → pts ≠ [] →
  NoDup ((λ p, point_key env p.1 p.2) <$> within_budget max_points pts) →
  (∀ p, p ∈ within_budget max_points pts →
        ∃ c, combined_at hds fds variables p = Ok c) →
  ∃ d da df,
    ClimateDataExtractorWithParallel.extract_variables_over_years env
      netcdf_folder variables file_name_pattern start_year end_year mask_path
      max_points = Ok d
    ∧ extract_amber_data env amber_folder_pattern variables amber_file_pattern
        start_year end_year pts max_points = Ok da
    ∧ extract_forecast_data env forecast_folder_pattern variables
        forecast_file_pattern pts ensemble max_points = Ok df
    ∧ ∀ k c, d !! k = Some c
             ↔ ∃ a f, da !! k = Some a ∧ df !! k = Some f
                      ∧ _combine_dataframes a f = Ok c.
Proof.
  intros Hmask Hh Hf Ha Hfc Hth Htf Hpts Hne Hnd Hall.
  set (key := λ p : float * float, point_key env p.1 p.2) in *.
  set (pts' := within_budget max_points pts) in *.
  assert (∀ p, p ∈ pts' → ∃ a, point_frame hds variables p.1 p.2 = Ok a) as Halla.
  { intros p [c Hc]%Hall. unfold combined_at in Hc.
    apply bind_result_Ok in Hc as (a & Ha' & _). by exists a. }
  assert (∀ p, p ∈ pts' → ∃ f, converted_at fds variables p = Ok f) as Hallf.
  { intros p [c Hc]%Hall. unfold combined_at in Hc.
    apply bind_result_Ok in Hc as (a & _ & Hc).
    apply bind_result_Ok in Hc as (f & Hf' & _). by exists f. }
  rewrite (sequential_fill env _ _ _ _ _ _ _ mask hds fds pts) by done.
  rewrite (amber_fill env _ _ _ _ _ _ _ hds) by done.
  rewrite (forecast_fill env _ _ _ _ _ _ fds) by done.
  fold pts'. change (λ p : float * float, point_key env p.1 p.2) with key.
  destruct (fill_all_Ok (combined_at hds fds variables) key _ ∅ Hall) as [d Hd].
  destruct (fill_all_Ok (λ p, point_frame hds variables p.1 p.2)
              key _ ∅ Halla) as [da Hda].
  destruct (fill_all_Ok (converted_at fds variables) key _ ∅ Hallf) as [df Hdf].
  exists d, da, df. split_and!; [done..|].
  pose proof (fill_spec _ key _ _ Hnd Hd) as Sd.
  pose proof (fill_spec _ key _ _ Hnd Hda) as Sa.
  pose proof (fill_spec _ key _ _ Hnd Hdf) as Sf.
  intros k c. rewrite Sd. split.
  - intros (p & Hp & Hk & Hc). unfold combined_at in Hc.
    apply bind_result_Ok in Hc as (a & Ha' & Hc).
    apply bind_result_Ok in Hc as (f & Hf' & Hc).
    exists a, f. split_and!; [apply Sa; by exists p|apply Sf; by exists p|done].
  - intros (a & f & (p & Hp & Hk & Ha')%Sa & (q & Hq & Hk' & Hf')%Sf & Hc).
    assert (q = p) as -> by (apply (NoDup_key_inj key pts'); congruence).
    exists p. split_and!; [done..|]. unfold combined_at.
    cbn beta in Ha'. rewrite Ha'. cbn [mbind result_bind].
    rewrite Hf'. done.
Qed.

Lemma combined_from_parts_witness :
  let env := example_env ["f.nc"] forecast_frame ten_mask in
  ∃ d da df,
    ClimateDataExtractorWithParallel.extract_variables_over_years env
      "netcdf_files/combined" all_variables "amber_{year}.nc" 2023 2024
      "mask.npy" (Some 3) = Ok d
    ∧ extract_amber_data env "netcdf_files/amber/{year}" all_variables
        "amber_{year}.nc" 2023 2024 ten_points (Some 3) = Ok da
    ∧ extract_forecast_data env "forecasts/{ensemble}" all_variables
        "merged_{ensemble}.nc" ten_points "r1i1p1" (Some 3) = Ok df
    ∧ ∀ k c, d !! k = Some c
             ↔ ∃ a f, da !! k = Some a ∧ df !! k = Some f
                      ∧ _combine_dataframes a f = Ok c.
Proof.
  intros env.
  apply (combined_from_parts env "netcdf_files/combined" all_variables
           "amber_{year}.nc" 2023 2024 "mask.npy" (Some 3) ten_mask
           (dataset_of forecast_frame) (dataset_of forecast_frame) ten_points
           "netcdf_files/amber/{year}" "amber_{year}.nc"
           "forecasts/{ensemble}" "merged_{ensemble}.nc" "r1i1p1");
    try reflexivity.
  - discriminate.
  - apply (bool_decide_unpack _). vm_compute. reflexivity.
  - intros p _. eexists. reflexivity.
Defined.

End extraction_only_values.

(** * The converter and the loaders at their edges *)

Section converter_loader_edges.

Lemma update_columns_columns labels op df df' :
  update_columns labels op df = Ok df' → columns df' = columns df.
Proof. unfold update_columns. case_match; [|done]. by intros [= <-]. Qed.

Lemma update_columns_missing labels op df c :
  c ∈ labels → c ∉ columns df → update_columns labels op df = Raise KeyError.
Proof.
  intros Hc Hn. unfold update_columns.
  destruct (forallb _ labels) eqn:Hall; [|done].
  rewrite forallb_forall in Hall.
  specialize (Hall c (proj1 (list_elem_of_In _ _) Hc)).
  by apply bool_decide_eq_true in Hall.
Qed.

(** X6: a frame that lacks one of the four converted variables cannot be
    converted: the converter raises [KeyError]. *)
Theorem convert_missing_variable (σ : store) (r : nat) df c :
  σ !! r = Some df →
  c ∈ ["tas"; "tasmax"; "tasmin"; "rsds"] → c ∉ columns df →
  ClimateDataExtractorWithParallel._convert_forecast_to_historical_units r σ
  = Raise KeyError
  ∧ ClimateDataExtractor._convert_forecast_to_amber_units r σ = Raise KeyError.
Proof.
  intros Hr Hc Hn.
  change (ClimateDataExtractor._convert_forecast_to_amber_units r σ)
    with (ClimateDataExtractorWithParallel._convert_forecast_to_historical_units r σ).
  rewrite (convert_value σ r df Hr).
  assert (converted df = Raise KeyError) as ->; [|done].
  unfold converted.
  destruct (decide (c ∈ ["tas"; "tasmax"; "tasmin"])) as [Hin|Hout].
  - by rewrite (update_columns_missing _ _ df c).
  - destruct (update_columns ["tas"; "tasmax"; "tasmin"] _ df) as [df1|e] eqn:H1.
    + cbn [mbind result_bind].
      apply (update_columns_missing _ _ df1 c); [set_solver|].
      by rewrite (update_columns_columns _ _ _ _ H1).
    + unfold update_columns in H1. case_match; [done|]. by injection H1 as <-.
Qed.

Lemma convert_missing_variable_witness :
  let σ := [frame1 [(1, 278.15%float)]] in
  ClimateDataExtractorWithParallel._convert_forecast_to_historical_units 0%nat σ
  = Raise KeyError
  ∧ ClimateDataExtractor._convert_forecast_to_amber_units 0%nat σ = Raise KeyError.
Proof.
  intros σ.
  apply (convert_missing_variable σ 0%nat (frame1 [(1, 278.15%float)]) "rsds").
  - reflexivity.
  - set_solver.
  - cbn. set_solver.
Defined.

Lemma elem_of_py_range start stop y :
  y ∈ py_range start stop ↔ start ≤ y < stop.
Proof.
  unfold py_range. rewrite list_elem_of_fmap. setoid_rewrite elem_of_seq. split.
  - intros (k & -> & Hk). lia.
  - intros Hy. exists (Z.to_nat (y - start)). lia.
Qed.

(** X7: the two year-range loaders report "no dataset" exactly when no year
    from the start year to the end year, both included, has a file: for the
    one no match of the pattern, for the other no existing path. *)
Theorem range_loaders_None_iff env folder pattern start_year end_year :
  (ClimateDataExtractorWithParallel._load_netcdf_data env folder pattern
     start_year end_year = Ok None
   ↔ ∀ year, start_year ≤ year ≤ end_year →
       glob env (path_join env folder (format_year env pattern year)) = [])
  ∧ (ClimateDataExtractor._load_amber_data env folder pattern
       start_year end_year = Ok None
     ↔ ∀ year, start_year ≤ year ≤ end_year →
         path_exists env (path_join env (format_year env folder year)
                            (format_year env pattern year)) = false).
Proof.
  split.
  - unfold ClimateDataExtractorWithParallel._load_netcdf_data.
    set (paths := mjoin _).
    assert (paths = [] ↔ ∀ year, start_year ≤ year ≤ end_year →
              glob env (path_join env folder (format_year env pattern year)) = [])
      as <-.
    { unfold paths. rewrite join_nil, Forall_fmap, Forall_forall.
      setoid_rewrite elem_of_py_range. cbn.
      split; intros H year Hy; apply H; lia. }
    destruct paths as [|p t]; [done|].
    split; [|done]. by destruct (open_mfdataset env _).
  - unfold ClimateDataExtractor._load_amber_data.
    set (paths := omap _ _).
    assert (paths = [] ↔ ∀ year, start_year ≤ year ≤ end_year →
              path_exists env (path_join env (format_year env folder year)
                                 (format_year env pattern year)) = false)
      as <-.
    { unfold paths. split.
      - intros Hnil year Hy.
        destruct (path_exists env _) eqn:Hex; [|done]. exfalso.
        assert (path_join env (format_year env folder year)
                  (format_year env pattern year) ∈ @nil string) as Hin;
          [|by apply elem_of_nil in Hin].
        rewrite <-Hnil. apply list_elem_of_omap. exists year.
        split; [apply elem_of_py_range; lia|]. cbn. by rewrite Hex.
      - intros Hall.
        destruct (omap _ _) as [|p t] eqn:Hom; [done|]. exfalso.
        assert (p ∈ p :: t) as Hin by by left.
        rewrite <-Hom in Hin.
        apply list_elem_of_omap in Hin as (year & Hy%elem_of_py_range & Hp).
        cbn in Hp. rewrite Hall in Hp by lia. done. }
    destruct paths as [|p t]; [done|].
    split; [|done]. by destruct (open_mfdataset env _).
Qed.

End converter_loader_edges.


(** * The pipeline *)

Section pipeline_facts.

Import NetCDFToMonicaPipeline.

Context (env : Env) (svc : Services).

Lemma ensembles_loop_last variables points year month ensembles bound r :
  ensembles_loop env svc variables points year month ensembles bound = Ok r →
  (ensembles = [] ∧ r = bound)
  ∨ ∃ init last d,
      ensembles = init ++ [last]
      ∧ (∀ e, e ∈ ensembles →
           ∃ d', ClimateDataExtractor.extract_forecast_data env
                   "netcdf_files/forecasts/20240501/{ensemble}" variables
                   "merged_20240501_{ensemble}.nc" points e (Some 2000) = Ok d')
      ∧ ClimateDataExtractor.extract_forecast_data env
          "netcdf_files/forecasts/20240501/{ensemble}" variables
          "merged_20240501_{ensemble}.nc" points last (Some 2000) = Ok d
      ∧ r = Some ("cache/forecast/" +:+ str_int svc year +:+ format_02 svc month
                  +:+ "01",
                  last +:+ "_extracted.pkl.lz4", d).
Proof.
  revert bound. induction ensembles as [|e rest IH]; intros bound.
  - intros [= <-]. by left.
  - cbn [ensembles_loop].
    intros (d & Hd & [[-> ->]|(init & last & d' & -> & Hall & Hlast & ->)]%IH)%bind_result_Ok;
      right.
    + exists [], e, d. split_and!; [done| |done..].
      intros e' ->%list_elem_of_singleton. by exists d.
    + exists (e :: init), last, d'. split_and!; [done| |done..].
      intros e' [->|?]%elem_of_cons; [by exists d|by apply Hall].
Qed.

End pipeline_facts.

Section pipeline_properties.

Import NetCDFToMonicaPipeline.

(** X19: when the forecast pipeline returns, it has written one file only,
    whatever the number of ensembles: the file of the last ensemble, with
    the extraction of that ensemble, of at most 2000 points. The extractions
    of the other ensembles all succeeded and are not saved. *)
Theorem forecast_pipeline_saves_last_only env svc ensembles variables
    forecast_directory year month version_suffix saved :
  forecast_pipeline env svc ensembles variables forecast_directory year month
    version_suffix = Ok saved →
  ∃ points init last d,
    load_points svc "valid_grid_points.npy" = Ok points
    ∧ ensembles = init ++ [last]
    ∧ (∀ e, e ∈ ensembles →
         ∃ d', ClimateDataExtractor.extract_forecast_data env
                 "netcdf_files/forecasts/20240501/{ensemble}" variables
                 "merged_20240501_{ensemble}.nc" points e (Some 2000) = Ok d')
    ∧ ClimateDataExtractor.extract_forecast_data env
        "netcdf_files/forecasts/20240501/{ensemble}" variables
        "merged_20240501_{ensemble}.nc" points last (Some 2000) = Ok d
    ∧ (size d ≤ 2000)%nat
    ∧ saved = [("cache/forecast/" +:+ str_int svc year +:+ format_02 svc month
                +:+ "01",
                last +:+ "_extracted.pkl.lz4", d)].
Proof.
  unfold forecast_pipeline.
  intros (? & _ & H)%bind_result_Ok.
  apply bind_result_Ok in H as (? & _ & H).
  apply bind_result_Ok in H as (points & Hpoints & H).
  apply bind_result_Ok in H as (bound & Hloop & H).
  apply bind_result_Ok in H as ([[dir file] d] & Hbound & H).
  apply bind_result_Ok in H as (? & _ & [= <-]).
  apply ensembles_loop_last in Hloop
    as [[-> ->]|(init & last & d' & -> & Hall & Hlast & ->)]; [done|].
  injection Hbound as <- <- <-.
  exists points, init, last, d'. split_and!; [done..| |done].
  by apply (forecast_size env _ _ _ _ _ 2000 d') in Hlast.
Qed.

Lemma forecast_pipeline_saves_last_only_witness :
  let env := example_env ["f.nc"] forecast_frame ten_mask in
  let svc := example_services ten_points in
  ∃ saved,
    forecast_pipeline env svc ["r1i1p1"; "r2i1p1"] all_variables
      "netcdf_files/forecasts" 2024 5 "08" = Ok saved
    ∧ ∃ points init last d,
        load_points svc "valid_grid_points.npy" = Ok points
        ∧ ["r1i1p1"; "r2i1p1"] = init ++ [last]
        ∧ (∀ e, e ∈ ["r1i1p1"; "r2i1p1"] →
             ∃ d', ClimateDataExtractor.extract_forecast_data env
                     "netcdf_files/forecasts/20240501/{ensemble}" all_variables
                     "merged_20240501_{ensemble}.nc" points e (Some 2000)
                   = Ok d')
        ∧ ClimateDataExtractor.extract_forecast_data env
            "netcdf_files/forecasts/20240501/{ensemble}" all_variables
            "merged_20240501_{ensemble}.nc" points last (Some 2000) = Ok d
        ∧ (size d ≤ 2000)%nat
        ∧ saved = [("cache/forecast/" +:+ str_int svc 2024 +:+ format_02 svc 5
                    +:+ "01",
                    last +:+ "_extracted.pkl.lz4", d)].
Proof.
  intros env svc.
  destruct (forecast_pipeline env svc ["r1i1p1"; "r2i1p1"] all_variables
              "netcdf_files/forecasts" 2024 5 "08") as [saved|e] eqn:Hrun.
  - exists saved. split; [reflexivity|].
    exact (forecast_pipeline_saves_last_only env svc _ _ _ _ _ _ saved Hrun).
  - vm_compute in Hrun. discriminate Hrun.
Defined.

(** X20: without any ensemble the forecast pipeline downloads and merges
    nothing of use and then raises [UnboundLocalError]: the call of
    [save_data] reads variables that only the loop assigns. *)
Theorem forecast_pipeline_no_ensembles env svc variables forecast_directory
    year month version_suffix points :
  retrieve_seasonal_forecasts svc "seasonal" "GCFS21" "svhYYYY" "sfc"
    "DE-0075x005" variables [] version_suffix forecast_directory year month
  = Ok tt →
  merge_esgf_files svc forecast_directory year month [] = Ok tt →
  load_points svc "valid_grid_points.npy" = Ok points →
  forecast_pipeline env svc [] variables forecast_directory year month
    version_suffix = Raise UnboundLocalError.
Proof.
  intros Hdl Hmerge Hpoints. unfold forecast_pipeline.
  by rewrite Hdl, Hmerge, Hpoints.
Qed.

Lemma forecast_pipeline_no_ensembles_witness :
  forecast_pipeline (example_env ["f.nc"] forecast_frame ten_mask)
    (example_services ten_points) [] all_variables "netcdf_files/forecasts"
    2024 5 "08" = Raise UnboundLocalError.
Proof.
  apply (forecast_pipeline_no_ensembles _ (example_services ten_points) _ _ _ _
           _ ten_points); reflexivity.
Defined.

(** X21: an ensemble whose merged file is missing stops the forecast
    pipeline with [AttributeError] before anything is saved, when the
    ensembles before it were extracted. *)
Theorem forecast_pipeline_missing_file env svc init e rest variables
    forecast_directory year month version_suffix points :
  retrieve_seasonal_forecasts svc "seasonal" "GCFS21" "svhYYYY" "sfc"
    "DE-0075x005" variables (init ++ e :: rest) version_suffix
    forecast_directory year month = Ok tt →
  merge_esgf_files svc forecast_directory year month (init ++ e :: rest)
  = Ok tt →
  load_points svc "valid_grid_points.npy" = Ok points →
  (∀ e', e' ∈ init →
     ∃ d, ClimateDataExtractor.extract_forecast_data env
            "netcdf_files/forecasts/20240501/{ensemble}" variables
            "merged_20240501_{ensemble}.nc" points e' (Some 2000) = Ok d) →
  path_exists env
    (path_join env
       (format_ensemble env "netcdf_files/forecasts/20240501/{ensemble}" e)
       (format_ensemble env "merged_20240501_{ensemble}.nc" e)) = false →
  forecast_pipeline env svc (init ++ e :: rest) variables forecast_directory
    year month version_suffix = Raise AttributeError.
Proof.
  intros Hdl Hmerge Hpoints Hinit Hmissing. unfold forecast_pipeline.
  rewrite Hdl, Hmerge, Hpoints. cbn [mbind result_bind].
  assert (∀ bound,
            ensembles_loop env svc variables points year month
              (init ++ e :: rest) bound = Raise AttributeError) as Hloop.
  { clear Hdl Hmerge. induction init as [|e0 init IH]; intros bound.
    - cbn [app ensembles_loop].
      unfold ClimateDataExtractor.extract_forecast_data,
        ClimateDataExtractor._load_forecast_data.
      by rewrite Hmissing.
    - cbn [app ensembles_loop].
      destruct (Hinit e0) as [d ->]; [by left|]. cbn [mbind result_bind].
      apply IH. intros e' He'. apply Hinit. by right. }
  by rewrite Hloop.
Qed.

Lemma forecast_pipeline_missing_file_witness :
  forecast_pipeline (example_env [] forecast_frame ten_mask)
    (example_services ten_points) ([] ++ "r1i1p1" :: ["r2i1p1"]) all_variables
    "netcdf_files/forecasts" 2024 5 "08" = Raise AttributeError.
Proof.
  apply (forecast_pipeline_missing_file _ (example_services ten_points) []
           "r1i1p1" ["r2i1p1"] _ _ _ _ _ ten_points); try reflexivity.
  by intros e' ?%elem_of_nil.
Defined.

End pipeline_properties.


(** * The end date of a forecast *)

Section end_date.

Import ClimateDataDownloader.

Lemma days_in_month_bounds y m : 28 ≤ days_in_month y m ≤ 31.
Proof.
  unfold days_in_month.
  destruct (m =? 2); [destruct (is_leap y); lia|].
  destruct ((m =? 4) || (m =? 6) || (m =? 9) || (m =? 11)); lia.
Qed.

(** X22: the end date computed for a start date in month [m] of year [y] is
    the last day of the fifth month after [m], in the year that month falls
    in. June is the exception: the computed year is one too many, so that
    the end date of a forecast starting in June of [y] is 30 November of [y
    + 1]. *)
Theorem calculate_end_date_value strptime strftime s y m d :
  strptime s = Return (mkDatetime y m d) →
  1 ≤ y < 9999 → 1 ≤ m ≤ 12 →
  _calculate_end_date strptime strftime s
  = if decide (m = 6)
    then Return (strftime (mkDatetime (y + 1) 11 30))
    else let y' := if decide (m ≤ 7) then y else y + 1 in
         let m' := if decide (m ≤ 7) then m + 5 else m - 7 in
         Return (strftime (mkDatetime y' m' (days_in_month y' m'))).
Proof.
  intros Hs Hy Hm. unfold _calculate_end_date. rewrite Hs. cbn [bind year month].
  assert (m = 1 ∨ m = 2 ∨ m = 3 ∨ m = 4 ∨ m = 5 ∨ m = 6 ∨ m = 7 ∨ m = 8
          ∨ m = 9 ∨ m = 10 ∨ m = 11 ∨ m = 12) as Hcases by lia.
  destruct Hcases as [->|[->|[->|[->|[->|[->|[->|[->|[->|[->|[->| ->]]]]]]]]]]].
  all: repeat match goal with
         | |- context [(?a + 6) `div` 12] =>
             let v := eval vm_compute in ((a + 6) `div` 12) in
             change ((a + 6) `div` 12) with v
         | |- context [(?a + 6) `mod` 12] =>
             let v := eval vm_compute in ((a + 6) `mod` 12) in
             change ((a + 6) `mod` 12) with v
         end.
  all: repeat (rewrite decide_False by lia).
  all: repeat (rewrite decide_True by lia).
  all: unfold new_datetime;
    rewrite bool_decide_eq_true_2
      by (pose proof (days_in_month_bounds (y + 0) 7);
          pose proof (days_in_month_bounds (y + 0) 8);
          pose proof (days_in_month_bounds (y + 0) 9);
          pose proof (days_in_month_bounds (y + 0) 10);
          pose proof (days_in_month_bounds (y + 0) 11);
          pose proof (days_in_month_bounds (y + 1) 12);
          pose proof (days_in_month_bounds (y + 1) 1);
          pose proof (days_in_month_bounds (y + 1) 2);
          pose proof (days_in_month_bounds (y + 1) 3);
          pose proof (days_in_month_bounds (y + 1) 4);
          pose proof (days_in_month_bounds (y + 1) 5);
          pose proof (days_in_month_bounds (y + 1) 6); lia).
  all: cbn [bind]; unfold minus_one_day; cbn [year month day].
  all: rewrite (bool_decide_eq_false_2 (1 < 1)) by lia.
  all: try (rewrite (bool_decide_eq_true_2 (1 < _)) by lia;
            rewrite ?Z.add_0_r; reflexivity).
  rewrite bool_decide_eq_true_2 by lia.
  by replace (y + 1 - 1) with y by lia.
Qed.

Lemma calculate_end_date_value_witness :
  _calculate_end_date example_strptime example_strftime "20240601"
  = Return "20251130"
  ∧ _calculate_end_date example_strptime example_strftime "20240501"
    = Return "20241031".
Proof.
  split.
  - apply (calculate_end_date_value example_strptime example_strftime
             "20240601" 2024 6 1); [reflexivity|lia|lia].
  - apply (calculate_end_date_value example_strptime example_strftime
             "20240501" 2024 5 1); [reflexivity|lia|lia].
Defined.

End end_date.


(** * The valid grid points *)

Section valid_grid_points.

Import create_data_availablity_mask_h_and_fc.

Implicit Types (acc : list (float * float)).

(** A point has a value when the test finds one in both series. *)
Lemma lon_loop_spec fc hist lat lons acc r :
  lon_loop fc hist lat lons acc = Ok r →
  ∃ keeps, mapM_result (keep_point fc hist lat) lons = Ok keeps
    ∧ r = acc ++ ((λ lk, (lat, lk.1)) <$> filter (λ lk, lk.2 = true) (zip lons keeps)).
Proof.
  revert acc. induction lons as [|lon rest IH]; intros acc.
  - intros [= <-]. exists []. by rewrite app_nil_r.
  - cbn [lon_loop mapM_result].
    intros (keep & Hkeep & (keeps & Hkeeps & ->)%IH)%bind_result_Ok.
    exists (keep :: keeps). rewrite Hkeep, Hkeeps. split; [done|].
    cbn [zip zip_with]. rewrite filter_cons. cbn [snd fst].
    destruct keep.
    + rewrite decide_True by done. by rewrite <-app_assoc.
    + by rewrite decide_False by done.
Qed.

Lemma lon_loop_elem fc hist lat lons acc r p :
  lon_loop fc hist lat lons acc = Ok r →
  p ∈ r ↔ p ∈ acc ∨ ∃ lon, p = (lat, lon) ∧ lon ∈ lons
                            ∧ keep_point fc hist lat lon = Ok true.
Proof.
  revert acc. induction lons as [|lon rest IH]; intros acc.
  - intros [= <-]. split; [by left|].
    by intros [?|(lon & _ & ?%elem_of_nil & _)].
  - cbn [lon_loop]. intros (keep & Hkeep & Hrest%IH)%bind_result_Ok.
    rewrite Hrest. split.
    + intros [Hacc|(lon' & -> & Hin & Hk)].
      * destruct keep; [|by left].
        apply elem_of_app in Hacc as [?|Heq%list_elem_of_singleton]; [by left|].
        subst p. right. exists lon. split_and!; [done|by left|done].
      * right. exists lon'. split_and!; [done|by right|done].
    + intros [Hacc|(lon' & -> & [->|Hin]%elem_of_cons & Hk)].
      * left. destruct keep; [|done]. apply elem_of_app. by left.
      * left. rewrite Hk in Hkeep. injection Hkeep as <-.
        apply elem_of_app. right. by left.
      * right. by exists lon'.
Qed.

Lemma lat_loop_elem fc hist lats lons acc r p :
  lat_loop fc hist lats lons acc = Ok r →
  p ∈ r ↔ p ∈ acc ∨ (p.1 ∈ lats ∧ p.2 ∈ lons
                      ∧ keep_point fc hist p.1 p.2 = Ok true).
Proof.
  revert acc. induction lats as [|lat rest IH]; intros acc.
  - intros [= <-]. split; [by left|]. by intros [?|[?%elem_of_nil _]].
  - cbn [lat_loop]. intros (acc1 & Hlon & Hrest%IH)%bind_result_Ok.
    rewrite Hrest, (lon_loop_elem _ _ _ _ _ _ _ Hlon). split.
    + intros [[?|(lon & -> & Hin & Hk)]|(Hlat & Hlon' & Hk)]; [by left| |].
      * right. split_and!; [by left|done..].
      * right. split_and!; [by right|done..].
    + intros [?|([Heq|Hlat]%elem_of_cons & Hlon' & Hk)]; [by left;left| |].
      * left. right. exists p.2. destruct p as [a b]. cbn in *. by subst a.
      * right. done.
Qed.

Lemma forallb_false {A} (f : A → bool) (l : list A) :
  forallb f l = false → ∃ x, x ∈ l ∧ f x = false.
Proof.
  induction l as [|x t IH]; [done|]. cbn [forallb].
  destruct (f x) eqn:Hx; [|intros _; exists x; split; [by left|done]].
  intros (y & ? & ?)%IH. exists y. split; [by right|done].
Qed.

Lemma pr_all_null_valid df :
  pr_all_null df = Ok false → ∃ D, last_valid_index df = Some D.
Proof.
  unfold pr_all_null. destruct (position "pr" (columns df)) as [j|]; [|done].
  intros [= Hall].
  apply forallb_false in Hall as (r & Hr & Hv).
  destruct (r.2 !! j) as [v|] eqn:Hj; [|done]. cbn in Hv.
  destruct (last_valid_index df) as [D|] eqn:Hlast; [by exists D|].
  apply last_valid_index_None in Hlast.
  rewrite Forall_forall in Hlast. specialize (Hlast r Hr).
  unfold row_valid in Hlast.
  assert (existsb notna r.2 = true); [|congruence].
  apply existsb_exists. exists v. split.
  - apply list_elem_of_In. by eapply list_elem_of_lookup_2.
  - unfold notna. by rewrite Hv.
Qed.

(** X23: the saved array holds the grid points of the historical dataset at
    which both series have a precipitation value, and only those, as
    [float32] pairs; at each of them the historical series has a last valid
    index, so that the combiner cuts it at a date. *)
Theorem valid_grid_points_have_values float32 dataset_fc dataset_hist
    output_path path saved :
  save_valid_grid_points_fc_and_hist float32 dataset_fc dataset_hist output_path
  = Ok (path, saved) →
  path = output_path
  ∧ ∃ points,
      saved = (λ p, (float32 p.1, float32 p.2)) <$> points
      ∧ ∀ p, p ∈ points
             ↔ p.1 ∈ lat_values dataset_hist ∧ p.2 ∈ lon_values dataset_hist
               ∧ ∃ h f,
                   point_frame dataset_hist variables p.1 p.2 = Ok h
                   ∧ point_frame dataset_fc variables p.1 p.2 = Ok f
                   ∧ pr_all_null h = Ok false ∧ pr_all_null f = Ok false
                   ∧ ∃ D, last_valid_index h = Some D.
Proof.
  unfold save_valid_grid_points_fc_and_hist.
  intros (points & Hloop & [= <- <-])%bind_result_Ok.
  split; [done|]. exists points. split; [done|].
  intros p. rewrite (lat_loop_elem _ _ _ _ _ _ _ Hloop).
  split.
  - intros [?%elem_of_nil|(Hlat & Hlon & Hk)]; [done|].
    split_and!; [done..|].
    unfold keep_point in Hk.
    apply bind_result_Ok in Hk as (h & Hh & Hk).
    apply bind_result_Ok in Hk as (f & Hf & Hk).
    apply bind_result_Ok in Hk as ([] & Hhn & Hk); [done|].
    apply bind_result_Ok in Hk as ([] & Hfn & [= ]).
    exists h, f. split_and!; [done..|]. by apply pr_all_null_valid.
  - intros (Hlat & Hlon & h & f & Hh & Hf & Hhn & Hfn & _).
    right. split_and!; [done..|].
    unfold keep_point. rewrite Hh, Hf. cbn [mbind result_bind].
    rewrite Hhn. cbn [mbind result_bind]. by rewrite Hfn.
Qed.

Lemma valid_grid_points_have_values_witness :
  let fc := dataset_of forecast_frame in
  ∃ path saved,
    save_valid_grid_points_fc_and_hist (λ x, x) fc dataset_with_gap "points.npy"
    = Ok (path, saved)
    ∧ path = "points.npy"
    ∧ ∃ points,
        saved = (λ p, (p.1, p.2)) <$> points
        ∧ ∀ p, p ∈ points
               ↔ p.1 ∈ lat_values dataset_with_gap
                 ∧ p.2 ∈ lon_values dataset_with_gap
                 ∧ ∃ h f,
                     point_frame dataset_with_gap variables p.1 p.2 = Ok h
                     ∧ point_frame fc variables p.1 p.2 = Ok f
                     ∧ pr_all_null h = Ok false ∧ pr_all_null f = Ok false
                     ∧ ∃ D, last_valid_index h = Some D.
Proof.
  intros fc. eexists _, _. split; [reflexivity|].
  apply (valid_grid_points_have_values (λ x, x) fc dataset_with_gap
           "points.npy"). reflexivity.
Defined.

(** X24: the saved points follow the grid row by row: latitude by latitude,
    and within a latitude longitude by longitude. *)
Theorem valid_grid_points_row_major float32 dataset_fc dataset_hist
    output_path path saved :
  save_valid_grid_points_fc_and_hist float32 dataset_fc dataset_hist output_path
  = Ok (path, saved) →
  ∃ points,
    saved = (λ p, (float32 p.1, float32 p.2)) <$> points
    ∧ points `sublist_of`
        (lat ← lat_values dataset_hist;
         (λ lon, (lat, lon)) <$> lon_values dataset_hist).
Proof.
  unfold save_valid_grid_points_fc_and_hist.
  intros (points & Hloop & [= <- <-])%bind_result_Ok.
  exists points. split; [done|].
  assert (∀ lats acc r,
            lat_loop dataset_fc dataset_hist lats (lon_values dataset_hist) acc
            = Ok r →
            ∃ l, r = acc ++ l
                 ∧ l `sublist_of`
                     (lat ← lats; (λ lon, (lat, lon)) <$> lon_values dataset_hist))
    as Hgen.
  { clear. induction lats as [|lat rest IH]; intros acc r.
    - intros [= <-]. exists []. by rewrite app_nil_r.
    - cbn [lat_loop].
      intros (acc1 & (keeps & _ & ->)%lon_loop_spec & (l & -> & Hl)%IH)%bind_result_Ok.
      eexists. rewrite <-app_assoc. split; [done|].
      rewrite bind_cons. apply sublist_app; [|done].
      set (lons := lon_values dataset_hist). clearbody lons. clear.
      revert keeps. induction lons as [|lon lons IH]; intros keeps; [done|].
      destruct keeps as [|k keeps]; [apply sublist_nil_l|].
      cbn [zip zip_with]. rewrite filter_cons. cbn [snd].
      case_decide; rewrite !fmap_cons; cbn [fst];
        [apply sublist_skip|apply sublist_cons]; apply IH. }
  destruct (Hgen _ _ _ Hloop) as (l & -> & Hl). done.
Qed.

Lemma valid_grid_points_row_major_witness :
  let fc := dataset_of forecast_frame in
  ∃ path saved,
    save_valid_grid_points_fc_and_hist (λ x, x) fc dataset_with_gap "points.npy"
    = Ok (path, saved)
    ∧ ∃ points,
        saved = (λ p, (p.1, p.2)) <$> points
        ∧ points `sublist_of`
            (lat ← lat_values dataset_with_gap;
             (λ lon, (lat, lon)) <$> lon_values dataset_with_gap).
Proof.
  intros fc. eexists _, _. split; [reflexivity|].
  apply (valid_grid_points_row_major (λ x, x) fc dataset_with_gap
           "points.npy" "points.npy"). reflexivity.
Defined.

End valid_grid_points.
